(** * cellTRIP / inept utilities: the replay pipeline

    A shallow embedding of the [MemoryBuffer] and [Sampler] classes of
    [inept/utilities.py], together with the tensor-tree helpers the
    sampler calls.

    Conventions.
    - Python exceptions are values of [exn]; a call that may raise has a
      [result] type.
    - Methods that mutate [self] are functions from the object to the
      updated object (and the returned value).
    - The floats of [MemoryBuffer] are IEEE 754 binary64 numbers and the
      entries of the tensor it returns binary32 numbers, with the rounding
      of the standard; the lists the buffer holds are objects in a store.
    - The numbers of the other classes are exact rationals ([Qc]) where
      only their order and the operations applied to them matter.
    - [np.random] is an explicit stream of raw outcomes, so that every
      statement below holds for every behaviour of the generator. *)

From Stdlib Require Import QArith Qcanon.
From Stdlib Require SpecFloat.
From stdpp Require Import base numbers list gmap strings.

Local Open Scope Qc_scope.

(** ** Exceptions *)

Inductive exn : Set :=
  | KeyError
  | IndexError
  | ValueError
  | TypeError
  | AttributeError.

Inductive result (A : Type) : Type :=
  | Ok (a : A)
  | Raise (e : exn).
Arguments Ok {A} a.
Arguments Raise {A} e.

Global Instance result_ret : MRet result := fun A a => Ok a.
Global Instance result_bind : MBind result := fun A B f m =>
  match m with
  | Ok a => f a
  | Raise e => Raise e
  end.
Global Instance result_fmap : FMap result := fun A B f m =>
  match m with
  | Ok a => Ok (f a)
  | Raise e => Raise e
  end.

(** [for x in xs: s = body(s, x)], stopping at the first exception. *)
Fixpoint for_each {S X : Type} (body : S → X → result S) (xs : list X) (s : S)
    : result S :=
  match xs with
  | [] => Ok s
  | x :: xs' => s' ← body s x; for_each body xs' s'
  end.

(** [zip(a, b, c)]: stops at the shortest argument. *)
Definition zip3 {A B C : Type} (a : list A) (b : list B) (c : list C)
    : list (A * B * C) :=
  zip (zip a b) c.

(** [l[i]] on a Python list, for an index that is not negative. *)
Definition list_getitem {A : Type} (l : list A) (i : nat) : result A :=
  match l !! i with
  | Some x => Ok x
  | None => Raise IndexError
  end.

(** [l[i] = x] on a Python list, for an index that is not negative. *)
Definition list_setitem {A : Type} (l : list A) (i : nat) (x : A)
    : result (list A) :=
  if decide (i < length l)%nat then Ok (<[i := x]> l) else Raise IndexError.

(** [o.attr] or [o.method(...)] where [o] may be [None]. *)
Definition attribute_of {A : Type} (o : option A) : result A :=
  match o with
  | Some a => Ok a
  | None => Raise AttributeError
  end.

(** [o[...]] where [o] may be [None]. *)
Definition subscript_of {A : Type} (o : option A) : result A :=
  match o with
  | Some a => Ok a
  | None => Raise TypeError
  end.

(** [d[key]] on a Python dict. *)
Definition dict_getitem `{Countable K} {V : Type} (d : gmap K V) (key : K)
    : result V :=
  match d !! key with
  | Some v => Ok v
  | None => Raise KeyError
  end.

(** ** Tensors and trees of tensors *)

Inductive Device : Set :=
  | cpu
  | cuda (ordinal : nat).

(** A tensor, seen along its first axis: where it lives and its rows. *)
Record Tensor (A : Type) : Type := {
  tensor_device : Device;
  tensor_rows : list A;
}.
Arguments tensor_device {A} _.
Arguments tensor_rows {A} _.

(** One integer index into an axis of [n] rows: negative indices count
    from the end, anything else out of range raises. *)
Definition normalize_index (n : nat) (i : Z) : result nat :=
  if decide (0 ≤ i < Z.of_nat n)%Z then Ok (Z.to_nat i)
  else if decide (- Z.of_nat n ≤ i < 0)%Z then Ok (Z.to_nat (Z.of_nat n + i))
  else Raise IndexError.

(** [a[idx]] for an integer index array [idx]: a copy of the chosen rows. *)
Definition array_getitem {A : Type} (a : list A) (idx : list Z)
    : result (list A) :=
  mapM (λ i, j ← normalize_index (length a) i; list_getitem a j) idx.

Definition tensor_getitem {A : Type} (x : Tensor A) (idx : list Z)
    : result (Tensor A) :=
  chosen ← array_getitem (tensor_rows x) idx;
  Ok {| tensor_device := tensor_device x; tensor_rows := chosen |}.

(** [x.to(device)] *)
Definition tensor_to {A : Type} (x : Tensor A) (device : Device) : Tensor A :=
  {| tensor_device := device; tensor_rows := tensor_rows x |}.

(** A row of a data tensor. *)
Definition Row : Type := list Qc.

(** What [recursive_tensor_func] walks: a [torch.Tensor], or anything else,
    which it iterates over. *)
#[warnings="-register-all"]
Inductive Tree : Type :=
  | Leaf (x : Tensor Row)
  | Members (members : list Tree).

Fixpoint recursive_tensor_func (input : Tree)
    (func : Tensor Row → result (Tensor Row)) : result Tree :=
  match input with
  | Leaf x => Leaf <$> func x
  | Members members =>
      Members <$> mapM (λ member, recursive_tensor_func member func) members
  end.

(** A Python dict with string keys, in insertion order. *)
Definition Dict : Type := list (string * Tree).

(** [dict_map]: the pair of the argument dict after the call and the
    returned dict (the same object when [inplace]). *)
Definition dict_map (dict : Dict) (func : Tree → result Tree) (inplace : bool)
    : result (Dict * Dict) :=
  mapped ← mapM (λ kv, v ← func kv.2; Ok (kv.1, v)) dict;
  if inplace then Ok (mapped, mapped) else Ok (dict, mapped).

(** The closure [subfunc] of [dict_map_recursive_tensor_idx_to]. *)
Definition subfunc (idx : option (list Z)) (device : option Device)
    (x : Tensor Row) : result (Tensor Row) :=
  x ← match idx with
      | Some idx => tensor_getitem x idx
      | None => Ok x
      end;
  let x := match device with
           | Some device => tensor_to x device
           | None => x
           end in
  Ok x.

Definition dict_map_recursive_tensor_idx_to (dict : Dict)
    (idx : option (list Z)) (device : option Device) : result Dict :=
  (* Apply and return (if needed) *)
  snd <$> dict_map dict (λ x, recursive_tensor_func x (subfunc idx device))
            false.

(** Reference formulation of a move: every leaf tensor of the tree
    changes device and nothing else. *)
Fixpoint tree_to (device : Device) (x : Tree) : Tree :=
  match x with
  | Leaf x => Leaf (tensor_to x device)
  | Members members => Members (tree_to device <$> members)
  end.

Definition dict_to (device : Device) (dict : Dict) : Dict :=
  (λ kv, (kv.1, tree_to device kv.2)) <$> dict.

(** ** The random generator

    [np.random] is a stream of raw outcomes; a draw of [n] values uses the
    first [n] of them and leaves the rest. *)
Definition RandomState : Type := nat → nat.

(** The first argument of [np.random.choice]: an int [n], standing for
    [np.arange(n)], or a one-dimensional array. *)
Inductive Population : Type :=
  | Count (n : nat)
  | Indices (a : list Z).

Definition population_size (a : Population) : nat :=
  match a with
  | Count n => n
  | Indices a => length a
  end.

Definition population_array (a : Population) : list Z :=
  match a with
  | Count n => Z.of_nat <$> seq 0 n
  | Indices a => a
  end.

(** [np.random.choice(a, size)] (with replacement, uniform): an empty
    population is refused unless no sample is taken. *)
Definition random_choice (a : Population) (size : Z) (rng : RandomState)
    : result (list Z * RandomState) :=
  let pop_size := population_size a in
  if decide (size < 0)%Z then Raise ValueError
  else if decide (pop_size = 0%nat ∧ size ≠ 0%Z) then Raise ValueError
  else
    let n := Z.to_nat size in
    let positions := (λ i, rng i `mod` pop_size)%nat <$> seq 0 n in
    let drawn := (λ j, default 0%Z (population_array a !! j)) <$> positions in
    Ok (drawn, λ i, rng (n + i)%nat).

(** ** Sampler *)

(** The [memory] object of a [Sampler]. Its class is not defined in this
    file; the sampler uses [len(memory)] and [memory[idx]] only, so it is
    any object with these two methods. *)
Record Memory : Type := {
  memory_len : nat;
  memory_getitem : list Z → result Dict;
}.

(** Modelled from the spec: the class of the dataset ([AdvancedMemoryBuffer])
    is missing; the spec describes the dataset as a nested
    dictionary of tensors of [n] records whose selection applies the same
    index operation to every leaf tensor. *)
Definition tree_memory (n : nat) (contents : Dict) : Memory :=
  {| memory_len := n;
     memory_getitem := λ idx,
       dict_map_recursive_tensor_idx_to contents (Some idx) None |}.

Module Sampler.

Record t : Type := Build {
  memory : Memory;
  rewards : Tensor Qc;
  sizes : list Z;
  mem_stage : nat;
  gpu_stage : nat;
  device : Device;
  idxs : list (list Z);
  mem_data : option Dict;
  mem_rewards : option (Tensor Qc);
  gpu_data : option Dict;
  gpu_rewards : option (Tensor Qc);
}.

Definition set_idxs (self : t) (v : list (list Z)) : t :=
  Build (memory self) (rewards self) (sizes self) (mem_stage self)
    (gpu_stage self) (device self) v (mem_data self) (mem_rewards self)
    (gpu_data self) (gpu_rewards self).
Definition set_mem_data (self : t) (v : option Dict) : t :=
  Build (memory self) (rewards self) (sizes self) (mem_stage self)
    (gpu_stage self) (device self) (idxs self) v (mem_rewards self)
    (gpu_data self) (gpu_rewards self).
Definition set_mem_rewards (self : t) (v : option (Tensor Qc)) : t :=
  Build (memory self) (rewards self) (sizes self) (mem_stage self)
    (gpu_stage self) (device self) (idxs self) (mem_data self) v
    (gpu_data self) (gpu_rewards self).
Definition set_gpu_data (self : t) (v : option Dict) : t :=
  Build (memory self) (rewards self) (sizes self) (mem_stage self)
    (gpu_stage self) (device self) (idxs self) (mem_data self)
    (mem_rewards self) v (gpu_rewards self).
Definition set_gpu_rewards (self : t) (v : option (Tensor Qc)) : t :=
  Build (memory self) (rewards self) (sizes self) (mem_stage self)
    (gpu_stage self) (device self) (idxs self) (mem_data self)
    (mem_rewards self) (gpu_data self) v.

Definition stage_dict : gmap string nat :=
  {[ "maxbatch" := 0%nat; "batch" := 1%nat; "minibatch" := 2%nat ]}.

Definition __init__ (memory : Memory) (rewards : Tensor Qc) (sizes : list Z)
    (mem_stage gpu_stage : string) (device : Device) : result t :=
  mem_stage ← dict_getitem stage_dict mem_stage;
  gpu_stage ← dict_getitem stage_dict gpu_stage;
  Ok {| memory := memory; rewards := rewards; sizes := sizes;
        mem_stage := mem_stage; gpu_stage := gpu_stage; device := device;
        idxs := replicate (length sizes) [];
        mem_data := None; mem_rewards := None;
        gpu_data := None; gpu_rewards := None |}.

(** Tier [stage] comes right after a tier that loads data. *)
Definition after_boundary (self : t) (stage : nat) : Prop :=
  (stage - 1)%nat = mem_stage self ∨ (stage - 1)%nat = gpu_stage self.

(** [self.idxs[stage] = v] *)
Definition assign_idxs (self : t) (stage : nat) (v : list Z) : result t :=
  set_idxs self <$> list_setitem (idxs self) stage v.

(** An entry of [idxs] is the integers it holds: the empty list that
    [__init__] stores and an empty array are one value. The code tells
    them apart in one case, which the facts about an explicit [idx]
    leave out: at a tier that is neither the first nor right after a
    tier that loads data, [idx] subscripts the tier before, and on the
    list of [__init__] this raises [TypeError] where an array checks the
    bounds. *)
Definition sample (self : t) (stage : nat) (idx : option (list Z))
    (rng : RandomState) : result (t * RandomState) :=
  (* Determine where to sample from *)
  sample_from ←
    (if decide (stage = 0%nat) then
       Ok (Count (memory_len (memory self)))
     else if decide (after_boundary self stage) then
       Count ∘ length <$> list_getitem (idxs self) (stage - 1)
     else
       Indices <$> list_getitem (idxs self) (stage - 1));
  (* Set idx manually *)
  '(self, sample_from) ←
    match idx with
    | Some idx =>
        (* Make list if int *)
        let sample_from :=
          match sample_from with
          | Count n => Indices (Z.of_nat <$> seq 0 n)
          | Indices a => Indices a
          end in
        (* Sample *)
        chosen ← array_getitem (population_array sample_from) idx;
        self ← assign_idxs self stage chosen;
        Ok (self, sample_from)
    | None => Ok (self, sample_from)
    end;
  (* Randomly sample idx *)
  size ← list_getitem (sizes self) stage;
  '(drawn, rng) ← random_choice sample_from size rng;
  self ← assign_idxs self stage drawn;
  Ok (self, rng).

(** The three parts of [act]: "Load into memory", "Load into GPU" and
    "Return latest data". *)
Definition load_into_memory (self : t) (stage : nat) : result t :=
  idx ← list_getitem (idxs self) stage;
  data ← memory_getitem (memory self) idx;
  let self := set_mem_data self (Some data) in
  idx ← list_getitem (idxs self) stage;
  chosen ← tensor_getitem (rewards self) idx;
  Ok (set_mem_rewards self (Some chosen)).

Definition load_into_gpu (self : t) (stage : nat) : result t :=
  if decide (stage = mem_stage self) then
    staged ← attribute_of (mem_data self);
    data ← dict_map_recursive_tensor_idx_to staged None (Some (device self));
    let self := set_gpu_data self (Some data) in
    staged ← attribute_of (mem_rewards self);
    Ok (set_gpu_rewards self (Some (tensor_to staged (device self))))
  else
    idx ← list_getitem (idxs self) stage;
    staged ← attribute_of (mem_data self);
    data ← dict_map_recursive_tensor_idx_to staged (Some idx)
             (Some (device self));
    let self := set_gpu_data self (Some data) in
    staged ← subscript_of (mem_rewards self);
    idx ← list_getitem (idxs self) stage;
    chosen ← tensor_getitem staged idx;
    Ok (set_gpu_rewards self (Some (tensor_to chosen (device self)))).

(** [(x[idx] for leaves x of data, rewards[idx])], both possibly [None]. *)
Definition narrowed (data : option Dict) (rewards : option (Tensor Qc))
    (idx : list Z) : result (option Dict * option (Tensor Qc)) :=
  resident ← attribute_of data;
  data ← dict_map_recursive_tensor_idx_to resident (Some idx) None;
  resident ← subscript_of rewards;
  chosen ← tensor_getitem resident idx;
  Ok (Some data, Some chosen).

Definition latest_data (self : t) (stage : nat)
    : result (option Dict * option (Tensor Qc)) :=
  if decide (gpu_stage self ≤ stage)%nat then
    if decide (stage = gpu_stage self) then
      Ok (gpu_data self, gpu_rewards self)
    else
      idx ← list_getitem (idxs self) stage;
      narrowed (gpu_data self) (gpu_rewards self) idx
  else if decide (mem_stage self ≤ stage)%nat then
    if decide (stage = mem_stage self) then
      Ok (mem_data self, mem_rewards self)
    else
      idx ← list_getitem (idxs self) stage;
      narrowed (mem_data self) (mem_rewards self) idx
  else
    idx ← list_getitem (idxs self) stage;
    chosen ← tensor_getitem (rewards self) idx;
    Ok (None, Some chosen).

Definition act (self : t) (stage : nat)
    : result (t * (option Dict * option (Tensor Qc))) :=
  self ←
    (if decide (stage = mem_stage self) then load_into_memory self stage
     else Ok self);
  self ←
    (if decide (stage = gpu_stage self) then load_into_gpu self stage
     else Ok self);
  out ← latest_data self stage;
  Ok (self, out).

(** What [act] never touches: the configuration and the index state. *)
Definition same_configuration (self self' : t) : Prop :=
  memory self' = memory self
  ∧ rewards self' = rewards self
  ∧ sizes self' = sizes self
  ∧ mem_stage self' = mem_stage self
  ∧ gpu_stage self' = gpu_stage self
  ∧ device self' = device self
  ∧ idxs self' = idxs self.

Definition stage (self : t) (stage : string) (idx : option (list Z))
    (rng : RandomState)
    : result (t * RandomState * (option Dict * option (Tensor Qc))) :=
  (* Convert stage to int *)
  stage ← dict_getitem stage_dict stage;
  (* Perform actions *)
  '(self, rng) ← sample self stage idx rng;
  '(self, out) ← act self stage;
  Ok (self, rng, out).

End Sampler.

(** ** MemoryBuffer *)

(** *** Numbers and keys *)

(** A Python [float] is an IEEE 754 binary64 number; its sum and product
    are those of the standard (round to nearest, ties to even). *)
Definition double : Type := SpecFloat.spec_float.

Definition double_zero : double := SpecFloat.S754_zero false.

Definition double_add (x y : double) : double := SpecFloat.SFadd 53 1024 x y.

Definition double_mul (x y : double) : double := SpecFloat.SFmul 53 1024 x y.

Definition double_div (x y : double) : double := SpecFloat.SFdiv 53 1024 x y.

(** The float nearest to the integer [z]. *)
Definition double_of_Z (z : Z) : double :=
  SpecFloat.binary_normalize 53 1024 z 0 false.

Global Arguments double_add : simpl never.
Global Arguments double_mul : simpl never.
Global Arguments double_div : simpl never.

(** An entry of a tensor of dtype [torch.float32] is a binary32 number. *)
Definition float32 : Type := SpecFloat.spec_float.

(** [torch.tensor(l, dtype=torch.float32)] rounds each float of [l] to
    the nearest binary32 number, to an infinity beyond the range. *)
Definition float32_of_double (x : double) : float32 :=
  match x with
  | SpecFloat.S754_finite s m e => SpecFloat.binary_round 24 128 s m e
  | _ => x
  end.

Definition float32_add (x y : float32) : float32 := SpecFloat.SFadd 24 128 x y.

Definition float32_mul (x y : float32) : float32 := SpecFloat.SFmul 24 128 x y.

Global Arguments float32_of_double : simpl never.
Global Arguments float32_add : simpl never.
Global Arguments float32_mul : simpl never.

(** The number a float stands for, when it is finite. *)
Definition number_of (x : SpecFloat.spec_float) : option Qc :=
  match x with
  | SpecFloat.S754_zero _ => Some 0
  | SpecFloat.S754_finite s m e =>
      Some (Q2Qc ((if s then -1 else 1) * inject_Z (Z.pos m) * Qpower 2 e)%Q)
  | _ => None
  end.

(** The key of a record is an entity id, a Python [int]. [np.unique]
    hands the distinct keys back as numpy integers, which a dict looks
    up like the [int]s they were made from when every key fits in 64
    bits; the facts about [propagate_rewards] are stated for such keys. *)
Definition EntityId : Type := Z.

Definition int64 (k : EntityId) : Prop := (- 2 ^ 63 ≤ k < 2 ^ 63)%Z.

(** *** Lists as objects *)

(** A store holds the lists that are alive, and a reference to a list is
    its position in the store; no list is ever freed. *)
Definition Ref : Set := nat.

Section lists.
Context {A : Type}.

Definition deref (store : list (list A)) (r : Ref) : list A :=
  default [] (store !! r).

(** A new list object. *)
Definition new_list (l : list A) (store : list (list A))
    : Ref * list (list A) :=
  (length store, store ++ [l]).

(** [r.append(x)] *)
Definition list_append (r : Ref) (x : A) (store : list (list A))
    : list (list A) :=
  <[r := deref store r ++ [x]]> store.

(** [del r[:]] *)
Definition list_del_all (r : Ref) (store : list (list A))
    : list (list A) :=
  <[r := []]> store.

End lists.

Module MemoryBuffer.
Section buffer.
Context {T : Type}.

(** The lists of keys, of tensors, of floats and of flags that are
    alive, and the tensors that [torch.tensor] has made. *)
Record Store : Type := Build_Store {
  key_lists : list (list EntityId);
  tensor_lists : list (list T);
  float_lists : list (list double);
  bool_lists : list (list bool);
  float32_tensors : list (list float32);
}.

Definition set_key_lists (l : list (list EntityId)) (h : Store) : Store :=
  {| key_lists := l; tensor_lists := tensor_lists h;
     float_lists := float_lists h; bool_lists := bool_lists h;
     float32_tensors := float32_tensors h |}.

Definition set_tensor_lists (l : list (list T)) (h : Store) : Store :=
  {| key_lists := key_lists h; tensor_lists := l;
     float_lists := float_lists h; bool_lists := bool_lists h;
     float32_tensors := float32_tensors h |}.

Definition set_float_lists (l : list (list double)) (h : Store) : Store :=
  {| key_lists := key_lists h; tensor_lists := tensor_lists h;
     float_lists := l; bool_lists := bool_lists h;
     float32_tensors := float32_tensors h |}.

Definition set_bool_lists (l : list (list bool)) (h : Store) : Store :=
  {| key_lists := key_lists h; tensor_lists := tensor_lists h;
     float_lists := float_lists h; bool_lists := l;
     float32_tensors := float32_tensors h |}.

Definition set_float32_tensors (l : list (list float32)) (h : Store) : Store :=
  {| key_lists := key_lists h; tensor_lists := tensor_lists h;
     float_lists := float_lists h; bool_lists := bool_lists h;
     float32_tensors := l |}.

(** The object: each of its seven attributes refers to a list. *)
Record t : Type := Build {
  keys : Ref;
  states : Ref;
  actions : Ref;
  action_logs : Ref;
  state_vals : Ref;
  rewards : Ref;
  is_terminals : Ref;
}.

(** The lists the attributes refer to. *)
Definition the_keys (self : t) (h : Store) : list EntityId :=
  deref (key_lists h) (keys self).
Definition the_states (self : t) (h : Store) : list T :=
  deref (tensor_lists h) (states self).
Definition the_actions (self : t) (h : Store) : list T :=
  deref (tensor_lists h) (actions self).
Definition the_action_logs (self : t) (h : Store) : list T :=
  deref (tensor_lists h) (action_logs self).
Definition the_state_vals (self : t) (h : Store) : list T :=
  deref (tensor_lists h) (state_vals self).
Definition the_rewards (self : t) (h : Store) : list double :=
  deref (float_lists h) (rewards self).
Definition the_is_terminals (self : t) (h : Store) : list bool :=
  deref (bool_lists h) (is_terminals self).

(** [__init__]: seven new, empty lists. *)
Definition __init__ (h : Store) : t * Store :=
  let '(keys, l) := new_list [] (key_lists h) in
  let h := set_key_lists l h in
  let '(states, l) := new_list [] (tensor_lists h) in
  let h := set_tensor_lists l h in
  let '(actions, l) := new_list [] (tensor_lists h) in
  let h := set_tensor_lists l h in
  let '(action_logs, l) := new_list [] (tensor_lists h) in
  let h := set_tensor_lists l h in
  let '(state_vals, l) := new_list [] (tensor_lists h) in
  let h := set_tensor_lists l h in
  let '(rewards, l) := new_list [] (float_lists h) in
  let h := set_float_lists l h in
  let '(is_terminals, l) := new_list [] (bool_lists h) in
  let h := set_bool_lists l h in
  ({| keys := keys; states := states; actions := actions;
      action_logs := action_logs; state_vals := state_vals;
      rewards := rewards; is_terminals := is_terminals |}, h).

Definition __len__ (self : t) (h : Store) : nat := length (the_keys self h).

(** One iteration of the loop of [propagate_rewards]; [rewards] is the
    local list the loop appends to. The [0] a running entry is set to is
    the float zero once it is multiplied by [gamma]. *)
Definition propagate_step (gamma : double) (rewards : Ref)
    (st : gmap EntityId double * Store) (x : EntityId * double * bool)
    : result (gmap EntityId double * Store) :=
  let '(running_rewards, h) := st in
  let '(key, reward, is_terminal) := x in
  let running_rewards :=
    if is_terminal : bool then <[key := double_zero]> running_rewards
    else running_rewards in
  r ← dict_getitem running_rewards key;
  let running_rewards :=
    <[key := double_add reward (double_mul gamma r)]> running_rewards in
  r' ← dict_getitem running_rewards key;
  Ok (running_rewards,
      set_float_lists (list_append rewards r' (float_lists h)) h).

(** [propagate_rewards] returns a reference to the tensor it makes. The
    slices [[::-1]] are new lists; [np.unique] gives the distinct keys. *)
Definition propagate_rewards (gamma : double) (self : t) (h : Store)
    : result (Ref * Store) :=
  let '(rewards, l) := new_list [] (float_lists h) in
  let h := set_float_lists l h in
  let running_rewards : gmap EntityId double :=
    gset_to_gmap double_zero (list_to_set (the_keys self h)) in
  let '(keys_reversed, l) :=
    new_list (reverse (the_keys self h)) (key_lists h) in
  let h := set_key_lists l h in
  let '(rewards_reversed, l) :=
    new_list (reverse (the_rewards self h)) (float_lists h) in
  let h := set_float_lists l h in
  let '(is_terminals_reversed, l) :=
    new_list (reverse (the_is_terminals self h)) (bool_lists h) in
  let h := set_bool_lists l h in
  '(_, h) ←
    for_each (propagate_step gamma rewards)
      (zip3 (deref (key_lists h) keys_reversed)
            (deref (float_lists h) rewards_reversed)
            (deref (bool_lists h) is_terminals_reversed))
      (running_rewards, h);
  let '(rewards, l) :=
    new_list (reverse (deref (float_lists h) rewards)) (float_lists h) in
  let h := set_float_lists l h in
  let '(rewards, l) :=
    new_list (float32_of_double <$> deref (float_lists h) rewards)
      (float32_tensors h) in
  let h := set_float32_tensors l h in
  Ok (rewards, h).

(** [clear]: [del l[:]] removes every element of the list [l], which
    stays the same object. *)
Definition clear (self : t) (h : Store) : Store :=
  let h := set_key_lists (list_del_all (keys self) (key_lists h)) h in
  let h := set_tensor_lists (list_del_all (states self) (tensor_lists h)) h in
  let h := set_tensor_lists (list_del_all (actions self) (tensor_lists h)) h in
  let h :=
    set_tensor_lists (list_del_all (action_logs self) (tensor_lists h)) h in
  let h :=
    set_tensor_lists (list_del_all (state_vals self) (tensor_lists h)) h in
  let h := set_float_lists (list_del_all (rewards self) (float_lists h)) h in
  set_bool_lists (list_del_all (is_terminals self) (bool_lists h)) h.

(** The methods the class defines. *)
Inductive Method : Set :=
  | method_init
  | method_len
  | method_propagate_rewards
  | method_clear.

(** [self.name(...)], for a name that [object] does not define: the
    method called. The seven attributes are lists, which cannot be
    called; any other name is not an attribute of the object. *)
Definition method_of (name : string) : result Method :=
  if decide (name = "__init__") then Ok method_init
  else if decide (name = "__len__") then Ok method_len
  else if decide (name = "propagate_rewards") then Ok method_propagate_rewards
  else if decide (name = "clear") then Ok method_clear
  else if decide (name ∈ ["keys"; "states"; "actions"; "action_logs";
                          "state_vals"; "rewards"; "is_terminals"])
  then Raise TypeError
  else Raise AttributeError.

(** The calls a collection loop can make on a buffer it holds. *)
Inductive Call : Type :=
  | call_len
  | call_propagate_rewards (gamma : double)
  | call_clear.

Definition call (self : t) (h : Store) (c : Call) : result Store :=
  match c with
  | call_len => let _ := __len__ self h in Ok h
  | call_propagate_rewards gamma => snd <$> propagate_rewards gamma self h
  | call_clear => Ok (clear self h)
  end.

Definition run (self : t) (calls : list Call) (h : Store) : result Store :=
  for_each (call self) calls h.

(** The structural invariant: the seven sequences are parallel. *)
Definition parallel (self : t) (h : Store) : Prop :=
  length (the_states self h) = length (the_keys self h)
  ∧ length (the_actions self h) = length (the_keys self h)
  ∧ length (the_action_logs self h) = length (the_keys self h)
  ∧ length (the_state_vals self h) = length (the_keys self h)
  ∧ length (the_rewards self h) = length (the_keys self h)
  ∧ length (the_is_terminals self h) = length (the_keys self h).

(** The seven lists of the object are in the store. *)
Definition allocated (self : t) (h : Store) : Prop :=
  (keys self < length (key_lists h))%nat
  ∧ (states self < length (tensor_lists h))%nat
  ∧ (actions self < length (tensor_lists h))%nat
  ∧ (action_logs self < length (tensor_lists h))%nat
  ∧ (state_vals self < length (tensor_lists h))%nat
  ∧ (rewards self < length (float_lists h))%nat
  ∧ (is_terminals self < length (bool_lists h))%nat.

(** [h'] holds every list and tensor of [h], unchanged, and maybe new
    ones. *)
Definition extends (h h' : Store) : Prop :=
  key_lists h `prefix_of` key_lists h'
  ∧ tensor_lists h `prefix_of` tensor_lists h'
  ∧ float_lists h `prefix_of` float_lists h'
  ∧ bool_lists h `prefix_of` bool_lists h'
  ∧ float32_tensors h `prefix_of` float32_tensors h'.

(** The part of the log that [propagate_rewards] reads. *)
Definition log (self : t) (h : Store) : list (EntityId * double * bool) :=
  zip3 (the_keys self h) (the_rewards self h) (the_is_terminals self h).

End buffer.
Arguments Store T : clear implicits.

(** *** Reference formulation of the returns *)

(** The position of the first occurrence of [k]. *)
Fixpoint index_of (k : EntityId) (ks : list EntityId) : option nat :=
  match ks with
  | [] => None
  | k' :: ks' => if decide (k' = k) then Some 0%nat else S <$> index_of k ks'
  end.

(** The position of the next record, after [i], of the same key as
    record [i]. *)
Definition next_same_key (ks : list EntityId) (i : nat) : option nat :=
  k ← ks !! i;
  j ← index_of k (drop (S i) ks);
  Some (S i + j)%nat.

(** The return of the first record of key [k], zero when there is none. *)
Fixpoint first_return (k : EntityId) (ks : list EntityId)
    (returns : list double) : double :=
  match ks, returns with
  | k' :: ks', r :: returns' =>
      if decide (k' = k) then r else first_return k ks' returns'
  | _, _ => double_zero
  end.

(** The running returns, by recursion on the log. *)
Fixpoint discounted (gamma : double) (records : list (EntityId * double * bool))
    : list double :=
  match records with
  | [] => []
  | (k, r, terminal) :: records' =>
      let future := discounted gamma records' in
      let next :=
        if terminal : bool then double_zero
        else first_return k (records'.*1.*1) future in
      double_add r (double_mul gamma next) :: future
  end.

(** The values of [values] at the positions where [ks] holds [k]. *)
Definition select_key {V : Type} (k : EntityId) (ks : list EntityId)
    (values : list V) : list V :=
  (filter (λ kv, kv.1 = k) (zip ks values)).*2.


End MemoryBuffer.


(** ** Views of a tree of tensors

    What a traversal keeps and what it changes is stated through the
    leaves of a tree, in the order the traversal meets them, and through
    what is left of the tree without them. *)

Fixpoint leaves (x : Tree) : list (Tensor Row) :=
  match x with
  | Leaf x => [x]
  | Members members => members ≫= leaves
  end.

Definition dict_leaves (dict : Dict) : list (Tensor Row) :=
  dict.*2 ≫= leaves.

#[warnings="-register-all"]
Inductive Shape : Type :=
  | leaf_shape
  | members_shape (members : list Shape).

Fixpoint shape (x : Tree) : Shape :=
  match x with
  | Leaf _ => leaf_shape
  | Members members => members_shape (shape <$> members)
  end.

(** The keys of a dict, in order, each with the shape of its value. *)
Definition dict_shape (dict : Dict) : list (string * Shape) :=
  (λ kv, (kv.1, shape kv.2)) <$> dict.

(** An index a tensor of [n] rows accepts. *)
Definition index_in_range (n : nat) (i : Z) : Prop :=
  (- Z.of_nat n ≤ i < Z.of_nat n)%Z.

(** What [subfunc] makes of one leaf: the rows [idx] of it when [idx] is
    given, on [device] when [device] is given. *)
Definition selected_and_moved (idx : option (list Z)) (device : option Device)
    (x y : Tensor Row) : Prop :=
  match idx with
  | Some idx => array_getitem (tensor_rows x) idx = Ok (tensor_rows y)
  | None => tensor_rows y = tensor_rows x
  end
  ∧ tensor_device y = match device with
                      | Some device => device
                      | None => tensor_device x
                      end.

(** ** Views of a sampler *)

(** The names [stage_dict] knows. *)
Definition stage_names : list string := ["maxbatch"; "batch"; "minibatch"].

(** A sampler no method has touched since [__init__]. *)
Definition fresh (self : Sampler.t) : Prop :=
  Sampler.idxs self = replicate (length (Sampler.sizes self)) []
  ∧ Sampler.mem_data self = None
  ∧ Sampler.mem_rewards self = None
  ∧ Sampler.gpu_data self = None
  ∧ Sampler.gpu_rewards self = None.

(** Data and rewards, where there are any, live on [device]. *)
Definition on_device (device : Device) (data : option Dict)
    (rewards : option (Tensor Qc)) : Prop :=
  (∀ d, data = Some d →
     Forall (λ x, tensor_device x = device) (dict_leaves d))
  ∧ (∀ r, rewards = Some r → tensor_device r = device).

(** ** Which records a tier selects

    With the tier that loads memory not after the tier that loads the
    GPU, the indices of a tier are positions in the dataset up to the
    memory tier, positions in the staging copy up to the GPU tier, and
    positions in the GPU copy after it. *)

Definition all_records (n : nat) : list Z := Z.of_nat <$> seq 0 n.

(** The records of the staging copy, in order. *)
Definition memory_records (self : Sampler.t) (n : nat) : result (list Z) :=
  ix ← list_getitem (Sampler.idxs self) (Sampler.mem_stage self);
  array_getitem (all_records n) ix.

(** The records of the GPU copy, in order. *)
Definition gpu_records (self : Sampler.t) (n : nat) : result (list Z) :=
  staged ← memory_records self n;
  if decide (Sampler.gpu_stage self = Sampler.mem_stage self) then Ok staged
  else
    ix ← list_getitem (Sampler.idxs self) (Sampler.gpu_stage self);
    array_getitem staged ix.

(** What the indices of tier [t] are positions in. *)
Definition index_space (self : Sampler.t) (n : nat) (t : nat)
    : result (list Z) :=
  if decide (t ≤ Sampler.mem_stage self)%nat then Ok (all_records n)
  else if decide (t ≤ Sampler.gpu_stage self)%nat then memory_records self n
  else gpu_records self n.

(** The records tier [t] selects, in order. *)
Definition records_of (self : Sampler.t) (n : nat) (t : nat)
    : result (list Z) :=
  space ← index_space self n t;
  ix ← list_getitem (Sampler.idxs self) t;
  array_getitem space ix.

(** The sampler is over a dataset of [n] records held as the dict
    [contents], with one reward per record, and loads memory no later
    than the GPU. *)
Definition dataset (self : Sampler.t) (n : nat) (contents : Dict) : Prop :=
  memory_len (Sampler.memory self) = n
  ∧ (∀ idx, memory_getitem (Sampler.memory self) idx
            = dict_map_recursive_tensor_idx_to contents (Some idx) None)
  ∧ Forall (λ x, length (tensor_rows x) = n) (dict_leaves contents)
  ∧ length (tensor_rows (Sampler.rewards self)) = n
  ∧ (Sampler.mem_stage self ≤ Sampler.gpu_stage self)%nat.

(** [rewards[records]], moved to [device] when one is given. *)
Definition selected_rewards (rewards : Tensor Qc) (records : list Z)
    (device : option Device) : result (Tensor Qc) :=
  r ← tensor_getitem rewards records;
  Ok (match device with Some device => tensor_to r device | None => r end).

(** [data] and [rewards] are the rows [records] of the dataset and of its
    rewards, on [device] when one is given. *)
Definition selection (self : Sampler.t) (contents : Dict) (records : list Z)
    (device : option Device) (data : option Dict)
    (rewards : option (Tensor Qc)) : Prop :=
  ∃ d r,
    data = Some d ∧ rewards = Some r
    ∧ dict_map_recursive_tensor_idx_to contents (Some records) device = Ok d
    ∧ selected_rewards (Sampler.rewards self) records device = Ok r.

(** Tiers have been staged in order up to tier [t]: the indices of tier
    [t] select records, and the copies that a tier up to [t] loads hold
    the records their tier selects. *)
Definition staged (self : Sampler.t) (n : nat) (contents : Dict) (t : nat)
    : Prop :=
  (∃ records, records_of self n t = Ok records)
  ∧ ((Sampler.mem_stage self ≤ t)%nat →
       ∃ records,
         memory_records self n = Ok records
         ∧ selection self contents records None
             (Sampler.mem_data self) (Sampler.mem_rewards self))
  ∧ ((Sampler.gpu_stage self ≤ t)%nat →
       ∃ records,
         gpu_records self n = Ok records
         ∧ selection self contents records (Some (Sampler.device self))
             (Sampler.gpu_data self) (Sampler.gpu_rewards self)).

(** What [stage] returns at tier [t] is the records the tier selects: no
    data and their rewards before the memory tier, their rows and
    rewards from it on, on the device from the GPU tier on. *)
Definition aligned (self : Sampler.t) (n : nat) (contents : Dict) (t : nat)
    (out : option Dict * option (Tensor Qc)) : Prop :=
  ∃ records size,
    records_of self n t = Ok records
    ∧ Forall (λ x, 0 ≤ x < Z.of_nat n)%Z records
    ∧ Sampler.sizes self !! t = Some size
    ∧ Z.of_nat (length records) = size
    ∧ if decide (t < Sampler.mem_stage self)%nat then
        out.1 = None
        ∧ ∃ r, out.2 = Some r
               ∧ selected_rewards (Sampler.rewards self) records None = Ok r
      else
        selection self contents records
          (if decide (Sampler.gpu_stage self ≤ t)%nat
           then Some (Sampler.device self) else None)
          out.1 out.2.

(** ** MemoryBuffer: what [propagate_rewards] reads and returns *)

(** The last [m] elements of [l]. *)
Definition latest {A : Type} (m : nat) (l : list A) : list A :=
  drop (length l - m) l.

Definition Qc_sum (l : list Qc) : Qc := foldr Qcplus 0 l.

Section episodes.
Context {T : Type}.

(** The number of records [propagate_rewards] reads: [zip] stops at the
    shortest of the three sequences. *)
Definition records_read (self : MemoryBuffer.t) (h : MemoryBuffer.Store T)
    : nat :=
  (length (MemoryBuffer.the_keys self h)
   `min` length (MemoryBuffer.the_rewards self h))
  `min` length (MemoryBuffer.the_is_terminals self h).

(** The records [propagate_rewards] reads: the sequences are reversed
    before they are zipped, so that they are aligned at their ends. *)
Definition read_log (self : MemoryBuffer.t) (h : MemoryBuffer.Store T)
    : list (EntityId * double * bool) :=
  zip3 (latest (records_read self h) (MemoryBuffer.the_keys self h))
       (latest (records_read self h) (MemoryBuffer.the_rewards self h))
       (latest (records_read self h) (MemoryBuffer.the_is_terminals self h)).

End episodes.

(** The rewards from the first record up to and including the first
    terminal record, all of them when no record is terminal. *)
Fixpoint rest_of_episode (records : list (EntityId * double * bool))
    : list double :=
  match records with
  | [] => []
  | (_, r, terminal) :: records' =>
      r :: if terminal : bool then [] else rest_of_episode records'
  end.

(** The rewards that count for record [i]: those of the records of its
    key, from record [i] to the end of its episode. *)
Definition rewards_ahead (k : EntityId) (i : nat)
    (records : list (EntityId * double * bool)) : list double :=
  rest_of_episode (filter (λ x, x.1.1 = k) (drop i records)).

(** [rs[0] + gamma * (rs[1] + gamma * (rs[2] + ... ))], each sum and
    product a float operation, the innermost product being with zero. *)
Definition nested_return (gamma : double) (rs : list double) : double :=
  foldr (λ r acc, double_add r (double_mul gamma acc)) double_zero rs.

(** ** RunningStatistics *)

(** The [int] [z] as a number of the reals. *)
Definition Qc_of_Z (z : Z) : Qc := Q2Qc (inject_Z z).

(** [a / b] on Python numbers; [None] stands for [ZeroDivisionError]. *)
Definition truediv (a : Qc) (b : Z) : option Qc :=
  if decide (b = 0%Z) then None else Some (a / Qc_of_Z b).

Module RunningStatistics.

Record t : Type := Build {
  mean_x : Qc;
  m2 : Qc;
  n : Z;
  n_set : option Z;
}.

(** [reset(mean=0, m2=0)]: an argument that is not given is [None]. *)
Definition reset (mean m2 : option Qc) (self : t) : t * unit :=
  ({| mean_x := default 0 mean; m2 := default 0 m2; n := 0;
      n_set := n_set self |}, ()).

(** [__init__(n_set=None, **kwargs)], the keyword arguments being those
    of [reset]. *)
Definition __init__ (n_set : option Z) (mean m2 : option Qc) : t :=
  {| mean_x := default 0 mean; m2 := default 0 m2; n := 0; n_set := n_set |}.

Definition update (x : Qc) (self : t) : option (t * unit) :=
  let self_n := (n self + 1)%Z in
  let n := match n_set self with Some n_set => n_set | None => self_n end in
  let delta := x - mean_x self in
  quotient ← truediv delta n;
  let mean_x := mean_x self + quotient in
  let m2 := m2 self + delta * (x - mean_x) in
  Some ({| mean_x := mean_x; m2 := m2; n := self_n; n_set := n_set self |}, ()).

Definition mean (self : t) : Qc := mean_x self.

Definition variance (self : t) : option Qc :=
  let n' := match n_set self with Some n_set => n_set | None => n self end in
  if decide (n' < 2)%Z then Some 0
  else truediv (m2 self) (n self - 1).

(** [update] called with each element of [xs], in order. *)
Fixpoint updates (xs : list Qc) (self : t) : option t :=
  match xs with
  | [] => Some self
  | x :: xs' => '(self', _) ← update x self; updates xs' self'
  end.

End RunningStatistics.

(** The mean of [xs]. *)
Definition average (xs : list Qc) : Qc :=
  Qc_sum xs / Qc_of_Z (Z.of_nat (length xs)).

(** ** EarlyStopping *)

(** A float: a real number or [nan]. A comparison with [nan] is false
    and arithmetic on [nan] gives [nan]. *)
Inductive Float : Type :=
  | Real (x : Qc)
  | NaN.

Definition float_add (a b : Float) : Float :=
  match a, b with
  | Real x, Real y => Real (x + y)
  | _, _ => NaN
  end.

Definition float_lt (a b : Float) : bool :=
  match a, b with
  | Real x, Real y => bool_decide (x < y)
  | _, _ => false
  end.

Definition float_gt (a b : Float) : bool := float_lt b a.

Definition real_of (a : Float) : option Qc :=
  match a with
  | Real x => Some x
  | NaN => None
  end.

(** [np.mean]: [nan] on an empty sequence and on a sequence that holds
    [nan]. *)
Definition np_mean (l : list Float) : Float :=
  match l, mapM real_of l with
  | _ :: _, Some xs => Real (average xs)
  | _, _ => NaN
  end.

(** An operand of [<], [>] or [+] that may be [None]. *)
Definition operand_of {A : Type} (o : option A) : result A :=
  match o with
  | Some a => Ok a
  | None => Raise TypeError
  end.

Module EarlyStopping.

Record t : Type := Build {
  method : string;
  buffer : Z;
  delta : Qc;
  decreasing : bool;
  window_size : Z;
  history : list Float;
  current : option Float;
  best : option Float;
  threshold : option Float;
  lapses : Z;
}.

Definition set_history (self : t) (history : list Float) : t :=
  {| method := method self; buffer := buffer self; delta := delta self;
     decreasing := decreasing self; window_size := window_size self;
     history := history; current := current self; best := best self;
     threshold := threshold self; lapses := lapses self |}.

Definition set_current (self : t) (current : option Float) : t :=
  {| method := method self; buffer := buffer self; delta := delta self;
     decreasing := decreasing self; window_size := window_size self;
     history := history self; current := current; best := best self;
     threshold := threshold self; lapses := lapses self |}.

Definition set_best_attr (self : t) (best : option Float) : t :=
  {| method := method self; buffer := buffer self; delta := delta self;
     decreasing := decreasing self; window_size := window_size self;
     history := history self; current := current self; best := best;
     threshold := threshold self; lapses := lapses self |}.

Definition set_threshold (self : t) (threshold : option Float) : t :=
  {| method := method self; buffer := buffer self; delta := delta self;
     decreasing := decreasing self; window_size := window_size self;
     history := history self; current := current self; best := best self;
     threshold := threshold; lapses := lapses self |}.

Definition set_lapses (self : t) (lapses : Z) : t :=
  {| method := method self; buffer := buffer self; delta := delta self;
     decreasing := decreasing self; window_size := window_size self;
     history := history self; current := current self; best := best self;
     threshold := threshold self; lapses := lapses |}.

(** [deque.append] on a deque of [maxlen = window_size]: the element is
    added at the right, and elements are dropped from the left while the
    deque is longer than [maxlen]. *)
Definition history_append (self : t) (objective : Float) : t :=
  set_history self
    (latest (Z.to_nat (window_size self)) (history self ++ [objective])).

Definition reset (self : t) : t * unit :=
  let self := set_history self [] in
  let self := set_current self None in
  let self := set_best_attr self None in
  let self := set_threshold self None in
  let self := set_lapses self 0 in
  (self, ()).

(** [deque([], window_size)] raises [ValueError] when [window_size] is
    negative. The attributes that [reset] creates are [None] before it
    has run. *)
Definition __init__ (method : string) (buffer : Z) (delta : Qc)
    (decreasing : bool) (window_size : Z) : result t :=
  _ ← (if decide (window_size < 0)%Z then Raise ValueError else Ok ());
  let self :=
    {| method := method; buffer := buffer; delta := delta;
       decreasing := decreasing; window_size := window_size;
       history := []; current := None; best := None; threshold := None;
       lapses := 0 |} in
  if decide (method ∉ ["absolute"; "average"]) then Raise ValueError
  else Ok (reset self).1.

Definition calculate_threshold (self : t) : result (t * unit) :=
  best ← operand_of (best self);
  Ok (set_threshold self
        (Some (float_add best
                 (Real ((if decreasing self then - (1) else 1) * delta self)))),
      ()).

Definition set_best (objective : Float) (self : t) : result (t * unit) :=
  let self := set_best_attr self (Some objective) in
  '(self, _) ← calculate_threshold self;
  Ok (set_lapses self 0, ()).

Definition record_observation (objective : Float) (self : t)
    : result (t * unit) :=
  if decide (method self = "absolute") then
    Ok (set_current self (Some objective), ())
  else if decide (method self = "average") then
    let self := history_append self objective in
    if decide (window_size self ≤ Z.of_nat (length (history self)))%Z then
      Ok (set_current self (Some (np_mean (history self))), ())
    else Ok (self, ())
  else Raise ValueError.

Definition __call__ (objective : Float) (self : t) : result (t * bool) :=
  '(self, _) ← record_observation objective self;
  match current self with
  | None => Ok (self, false)
  | Some current =>
      '(self, _) ← match best self with
                   | None => set_best current self
                   | Some _ => Ok (self, ())
                   end;
      '(self, _) ←
        (if decreasing self then
           threshold ← operand_of (threshold self);
           if float_lt current threshold then set_best current self
           else Ok (set_lapses self (lapses self + 1), ())
         else
           threshold ← operand_of (threshold self);
           if float_gt current threshold then set_best current self
           else Ok (set_lapses self (lapses self + 1), ()));
      if decide (buffer self ≤ lapses self)%Z then Ok (self, true)
      else Ok (self, false)
  end.

(** The stopper called with each objective in turn, with what each call
    returned. *)
Fixpoint calls (objectives : list Float) (self : t)
    : result (t * list bool) :=
  match objectives with
  | [] => Ok (self, [])
  | objective :: objectives' =>
      '(self, stop) ← __call__ objective self;
      '(self, stops) ← calls objectives' self;
      Ok (self, stop :: stops)
  end.

End EarlyStopping.

(** *** What holds of a stopper between calls *)

(** A stopper as [__init__] and [__call__] leave it: its method is one
    of the two, a best value has a threshold, no lapse count is
    negative. *)
Definition stopper (self : EarlyStopping.t) : Prop :=
  EarlyStopping.method self ∈ ["absolute"; "average"]
  ∧ (is_Some (EarlyStopping.best self)
     → is_Some (EarlyStopping.threshold self))
  ∧ (0 ≤ EarlyStopping.lapses self)%Z.

Definition same_parameters (self self' : EarlyStopping.t) : Prop :=
  EarlyStopping.method self' = EarlyStopping.method self
  ∧ EarlyStopping.buffer self' = EarlyStopping.buffer self
  ∧ EarlyStopping.delta self' = EarlyStopping.delta self
  ∧ EarlyStopping.decreasing self' = EarlyStopping.decreasing self
  ∧ EarlyStopping.window_size self' = EarlyStopping.window_size self.

(** The threshold that goes with the best value [b]. *)
Definition threshold_of (decreasing : bool) (delta b : Qc) : Qc :=
  b + (if decreasing then - (1) else 1) * delta.

(** [a] is past the threshold of [b], in the direction of
    improvement. *)
Definition improves (decreasing : bool) (delta a b : Qc) : bool :=
  if decreasing then bool_decide (a < threshold_of decreasing delta b)
  else bool_decide (threshold_of decreasing delta b < a).

(** A stopper of method ['absolute'] whose best value is [b]. *)
Definition tracked (b : Qc) (self : EarlyStopping.t) : Prop :=
  EarlyStopping.method self = "absolute"
  ∧ EarlyStopping.best self = Some (Real b)
  ∧ EarlyStopping.threshold self
    = Some (Real (threshold_of (EarlyStopping.decreasing self)
                    (EarlyStopping.delta self) b)).

(** [x] is no improvement on [b] by more than [delta]. *)
Definition within (decreasing : bool) (delta x b : Qc) : Prop :=
  if decreasing then b - delta <= x else x <= b + delta.


(** ** overwrite_dict *)

(** A Python dict with its keys in insertion order. *)
Definition PyDict (K V : Type) : Type := list (K * V).

(** [d.get(k)] *)
Fixpoint pydict_get {K V : Type} `{EqDecision K} (d : PyDict K V) (k : K)
    : option V :=
  match d with
  | [] => None
  | (k', v) :: d' => if decide (k' = k) then Some v else pydict_get d' k
  end.

(** [d[k] = v]: the value of a key that is present is replaced where it
    is, a new key goes to the end. *)
Fixpoint pydict_setitem {K V : Type} `{EqDecision K} (d : PyDict K V) (k : K)
    (v : V) : PyDict K V :=
  match d with
  | [] => [(k, v)]
  | (k', v') :: d' =>
      if decide (k' = k) then (k', v) :: d'
      else (k', v') :: pydict_setitem d' k v
  end.

(** [overwrite_dict(original, modification, copy)]: what the object
    [original] holds after the call, and the dict returned. Without
    [copy] the two are one object. *)
Definition overwrite_dict {K V : Type} `{EqDecision K}
    (original modification : PyDict K V) (copy : bool)
    : PyDict K V * PyDict K V :=
  let new :=
    foldl (λ new kv, pydict_setitem new kv.1 kv.2) original modification in
  (if copy then original else new, new).

(** ** subsample_nodes *)

(** [size] draws from [pool], each taken out of the pool. *)
Fixpoint draw_distinct (pool : list Z) (size : nat) (rng : RandomState)
    (i : nat) : list Z :=
  match size with
  | O => []
  | S size' =>
      let j := (rng i `mod` length pool)%nat in
      default 0%Z (pool !! j) :: draw_distinct (delete j pool) size' rng (S i)
  end.

(** [np.random.choice(n, size, replace=False)]: a negative size, and a
    size above [n], are refused. *)
Definition random_choice_distinct (n : nat) (size : Z) (rng : RandomState)
    : result (list Z * RandomState) :=
  if decide (size < 0)%Z then Raise ValueError
  else if decide (Z.of_nat n < size)%Z then Raise ValueError
  else
    let m := Z.to_nat size in
    Ok (draw_distinct (Z.of_nat <$> seq 0 n) m rng 0, λ i, rng (m + i)%nat).

(** [clean_return(ret, keep_array)]: the only element of [ret], or
    [ret]. *)
Definition clean_return {A : Type} (ret : list A) (keep_array : bool)
    : A + list A :=
  if negb keep_array && bool_decide (length ret = 1%nat) then
    match ret with
    | x :: _ => inl x
    | [] => inr ret
    end
  else inr ret.

(** [subsample_nodes] on the arrays [DS]: [DS[0]] raises
    [IndexError] when no array is given. *)
Definition subsample_nodes {A : Type} (DS : list (list A)) (num_nodes : Z)
    (keep_array : bool) (rng : RandomState)
    : result ((list A + list (list A)) * RandomState) :=
  first ← match DS !! 0%nat with
          | Some D => Ok D
          | None => Raise IndexError
          end;
  '(idx, rng) ← random_choice_distinct (length first) num_nodes rng;
  ret ← mapM (λ D, array_getitem D idx) DS;
  Ok (clean_return ret keep_array, rng).

(** ** time_logger *)

(** A number or a one-dimensional array, as [aggregate] handles them. *)
Inductive Value : Type :=
  | Scalar (x : Float)
  | Array (xs : list Float).

(** [total += v]: a scalar takes the shape of an array added to it; an
    array is added to in place, which refuses an array of another
    length unless it has one element. *)
Definition value_iadd (total v : Value) : result Value :=
  match total, v with
  | Scalar a, Scalar b => Ok (Scalar (float_add a b))
  | Scalar a, Array bs => Ok (Array (float_add a <$> bs))
  | Array xs, Scalar b => Ok (Array ((λ a, float_add a b) <$> xs))
  | Array xs, Array bs =>
      if decide (length bs = length xs) then
        Ok (Array (zip_with float_add xs bs))
      else match bs with
           | [b] => Ok (Array ((λ a, float_add a b) <$> xs))
           | _ => Raise ValueError
           end
  end.

(** A line written by [print]: its fields, not its text. *)
Inductive Line : Type :=
  | line_time (label : string) (elapsed : Value)
  | line_memory (label : string) (stored peak : Z)
  | line_total (total : Value).

(** What the logger reads and writes outside itself: the successive
    readings of [perf_counter], those of [tracemalloc], and the lines
    printed. *)
Record World : Type := {
  clock : nat → Qc;
  clock_reads : nat;
  traced : nat → Z * Z;
  traced_reads : nat;
  tracing : bool;
  printed : list Line;
}.

Definition perf_counter (w : World) : Qc * World :=
  (clock w (clock_reads w),
   {| clock := clock w; clock_reads := S (clock_reads w);
      traced := traced w; traced_reads := traced_reads w;
      tracing := tracing w; printed := printed w |}).

Definition tracemalloc_set (on : bool) (w : World) : World :=
  {| clock := clock w; clock_reads := clock_reads w;
     traced := traced w; traced_reads := traced_reads w;
     tracing := on; printed := printed w |}.

(** [tracemalloc.get_traced_memory()]: [(0, 0)] when nothing is
    traced. *)
Definition get_traced_memory (w : World) : (Z * Z) * World :=
  (if tracing w then traced w (traced_reads w) else (0, 0)%Z,
   {| clock := clock w; clock_reads := clock_reads w;
      traced := traced w; traced_reads := S (traced_reads w);
      tracing := tracing w; printed := printed w |}).

Definition print (line : Line) (w : World) : World :=
  {| clock := clock w; clock_reads := clock_reads w;
     traced := traced w; traced_reads := traced_reads w;
     tracing := tracing w; printed := printed w ++ [line] |}.

(** [d[k]] on a dict in insertion order. *)
Definition pydict_getitem {K V : Type} `{EqDecision K} (d : PyDict K V) (k : K)
    : result V :=
  match pydict_get d k with
  | Some v => Ok v
  | None => Raise KeyError
  end.

(** [if k not in d: d[k] = []] followed by [d[k].append(x)]. *)
Definition pydict_append {K V : Type} `{EqDecision K} (d : PyDict K (list V))
    (k : K) (x : V) : PyDict K (list V) :=
  pydict_setitem d k (default [] (pydict_get d k) ++ [x]).

Module time_logger.

Record t : Type := Build {
  discard_first_sample : bool;
  record : bool;
  verbose : bool;
  memory_usage : bool;
  history : PyDict string (list Qc);
  history_mem : option (PyDict string (list (Z * Z)));
  start_time : Qc;
  end_time : option Qc;
}.

Definition set_history (self : t) (history : PyDict string (list Qc)) : t :=
  {| discard_first_sample := discard_first_sample self;
     record := record self; verbose := verbose self;
     memory_usage := memory_usage self; history := history;
     history_mem := history_mem self; start_time := start_time self;
     end_time := end_time self |}.

Definition set_history_mem (self : t)
    (history_mem : option (PyDict string (list (Z * Z)))) : t :=
  {| discard_first_sample := discard_first_sample self;
     record := record self; verbose := verbose self;
     memory_usage := memory_usage self; history := history self;
     history_mem := history_mem; start_time := start_time self;
     end_time := end_time self |}.

Definition set_start_time (self : t) (start_time : Qc) : t :=
  {| discard_first_sample := discard_first_sample self;
     record := record self; verbose := verbose self;
     memory_usage := memory_usage self; history := history self;
     history_mem := history_mem self; start_time := start_time;
     end_time := end_time self |}.

Definition set_end_time (self : t) (end_time : option Qc) : t :=
  {| discard_first_sample := discard_first_sample self;
     record := record self; verbose := verbose self;
     memory_usage := memory_usage self; history := history self;
     history_mem := history_mem self; start_time := start_time self;
     end_time := end_time |}.

(** The attribute [history_mem] exists only when [memory_usage] was
    set; [end_time] only once [log] has run. *)
Definition __init__ (discard_first_sample record verbose memory_usage : bool)
    (w : World) : t * World :=
  let '(now, w) := perf_counter w in
  ({| discard_first_sample := discard_first_sample; record := record;
      verbose := verbose; memory_usage := memory_usage; history := [];
      history_mem := if memory_usage then Some [] else None;
      start_time := now; end_time := None |},
   if memory_usage then tracemalloc_set true w else w).

Definition log (str : string) (self : t) (w : World) : result (t * World) :=
  if negb (verbose self || record self) then Ok (self, w)
  else
    let '(now, w) := perf_counter w in
    let self := set_end_time self (Some now) in
    let time_elapsed := now - start_time self in
    let self :=
      if record self then
        set_history self (pydict_append (history self) str time_elapsed)
      else self in
    let w :=
      if verbose self then print (line_time str (Scalar (Real time_elapsed))) w
      else w in
    '(self, w) ←
      (if memory_usage self then
         '(self, w) ←
           (if record self then
              history_mem ← attribute_of (history_mem self);
              let '(reading, w) := get_traced_memory w in
              Ok (set_history_mem self
                    (Some (pydict_append history_mem str reading)), w)
            else Ok (self, w));
         w ← (if verbose self then
                (* [self.history_mem[-1]]: no key of the dict is [-1] *)
                _ ← attribute_of (history_mem self);
                Raise KeyError
              else Ok w);
         Ok (self, tracemalloc_set false w)
       else Ok (self, w));
    let '(now, w) := perf_counter w in
    let self := set_start_time self now in
    Ok (self, if memory_usage self then tracemalloc_set true w else w).

(** The body of the loop of [aggregate]. *)
Definition aggregate_step (method : string) (self : t)
    (st : Value * World) (kv : string * list Qc) : result (Value * World) :=
  let '(running_total, w) := st in
  let '(k, v) := kv in
  let avg_time_elapsed := Array (Real <$> v) in
  let avg_time_elapsed :=
    if discard_first_sample self then Array (Real <$> drop 1 v)
    else avg_time_elapsed in
  let avg_time_elapsed :=
    if decide (method = "mean") then Scalar (np_mean (Real <$> v))
    else if decide (method = "sum") then Scalar (Real (Qc_sum v))
    else avg_time_elapsed in
  running_total ← value_iadd running_total avg_time_elapsed;
  let w := print (line_time k avg_time_elapsed) w in
  if memory_usage self then
    history_mem ← attribute_of (history_mem self);
    readings ← pydict_getitem history_mem k;
    let stored := foldl (λ stored val, stored + val.1)%Z 0%Z readings in
    let peak :=
      foldl (λ peak val, if decide (peak < val.2)%Z then val.2 else peak)
        0%Z readings in
    Ok (running_total, print (line_memory k stored peak) w)
  else Ok (running_total, w).

Definition aggregate (method : string) (self : t) (w : World)
    : result World :=
  '(running_total, w) ←
    for_each (aggregate_step method self) (history self)
      (Scalar (Real 0), w);
  Ok (print (line_total running_total) w).

(** [log] called with each label in turn. *)
Fixpoint logs (labels : list string) (self : t) (w : World)
    : result (t * World) :=
  match labels with
  | [] => Ok (self, w)
  | str :: labels' => '(self, w) ← log str self w; logs labels' self w
  end.

End time_logger.

(** The times between the start of a measure and the call of [log]
    that ends it: the readings of the clock come in pairs, the first
    one taken by [__init__] or at the end of the previous call. *)
Definition elapsed (clock : nat → Qc) (first : nat) (calls : nat) : list Qc :=
  (λ i, clock (S (2 * i)) - clock (2 * i)%nat) <$> seq first calls.

(** The values of [values] whose label is [str]. *)
Definition labelled {V : Type} (str : string) (labels : list string)
    (values : list V) : list V :=
  (filter (λ kv, kv.1 = str) (zip labels values)).*2.

(** A logger that records and neither prints nor traces memory, after
    [m] calls of [log] in a world whose clock had been read [base]
    times before the logger was made. *)
Definition timing (base m : nat) (self : time_logger.t) (w : World) : Prop :=
  time_logger.record self = true
  ∧ time_logger.verbose self = false
  ∧ time_logger.memory_usage self = false
  ∧ clock_reads w = (base + S (2 * m))%nat
  ∧ time_logger.start_time self = clock w (base + 2 * m)%nat.

(** ** Example data *)

Definition half : Qc := Q2Qc (1 # 2).

Definition double_one : double := double_of_Z 1.

Definition double_half : double := double_div (double_of_Z 1) (double_of_Z 2).

(** A buffer whose lists are the first lists of the store, and a store
    that holds these lists and nothing else; the tensors are units. *)
Definition first_buffer : MemoryBuffer.t :=
  {| MemoryBuffer.keys := 0%nat; MemoryBuffer.states := 0%nat;
     MemoryBuffer.actions := 1%nat; MemoryBuffer.action_logs := 2%nat;
     MemoryBuffer.state_vals := 3%nat; MemoryBuffer.rewards := 0%nat;
     MemoryBuffer.is_terminals := 0%nat |}.

Definition store_of (keys : list EntityId) (rewards : list double)
    (is_terminals : list bool) : MemoryBuffer.Store unit :=
  {| MemoryBuffer.key_lists := [keys];
     MemoryBuffer.tensor_lists :=
       replicate 4%nat (replicate (length keys) ());
     MemoryBuffer.float_lists := [rewards];
     MemoryBuffer.bool_lists := [is_terminals];
     MemoryBuffer.float32_tensors := [] |}.

(** One key; rewards [[1, 1, 1]]; the last record is terminal. *)
Definition one_key_store : MemoryBuffer.Store unit :=
  store_of [7; 7; 7]%Z [double_one; double_one; double_one]
    [false; false; true].

(** Two keys, interleaved, and the records of each key alone. *)
Definition two_key_store : MemoryBuffer.Store unit :=
  store_of [1; 2; 2; 1; 2]%Z
    [double_one; double_half; double_one; double_zero; double_one]
    [false; false; true; false; false].



(** One key; rewards [[1, 1, 16777216]], the last of them [2 ** 24]; no
    record is terminal. *)
Definition large_reward_store : MemoryBuffer.Store unit :=
  store_of [0; 0; 0]%Z [double_one; double_one; double_of_Z 16777216]
    [false; false; false].

(** Two keys, in lists of unequal length. *)
Definition ragged_store : MemoryBuffer.Store unit :=
  {| MemoryBuffer.key_lists := [[1; 2; 1; 2]%Z];
     MemoryBuffer.tensor_lists := [[]; []; []; []];
     MemoryBuffer.float_lists := [[double_half; double_one; double_one]];
     MemoryBuffer.bool_lists := [[false; false]];
     MemoryBuffer.float32_tensors := [] |}.

(** A dataset of five records, a sampler over it that loads memory at
    [maxbatch] and the GPU at [batch], and two generators. *)
Definition five_contents : Dict :=
  [("state",
    Leaf {| tensor_device := cpu;
            tensor_rows := [[1; 0]; [0; 1]; [1; 1]; [0; 0]; [half; 1]] |});
   ("neighbours",
    Members
      [Leaf {| tensor_device := cpu;
               tensor_rows := [[1]; [0]; [1]; [0]; [half]] |};
       Leaf {| tensor_device := cpu;
               tensor_rows := [[0]; [0]; [1]; [1]; [1]] |}])].

Definition five_rewards : Tensor Qc :=
  {| tensor_device := cpu; tensor_rows := [1; half; 0; 1; 0] |}.

Definition five_sampler : Sampler.t :=
  {| Sampler.memory := tree_memory 5 five_contents;
     Sampler.rewards := five_rewards;
     Sampler.sizes := [3; 2; 1]%Z;
     Sampler.mem_stage := 0;
     Sampler.gpu_stage := 1;
     Sampler.device := cuda 0;
     Sampler.idxs := [[]; []; []];
     Sampler.mem_data := None;
     Sampler.mem_rewards := None;
     Sampler.gpu_data := None;
     Sampler.gpu_rewards := None |}.

(** The same dataset, everything loaded at [minibatch]. *)
Definition late_sampler : Sampler.t :=
  {| Sampler.memory := tree_memory 5 five_contents;
     Sampler.rewards := five_rewards;
     Sampler.sizes := [3; 2; 1]%Z;
     Sampler.mem_stage := 2;
     Sampler.gpu_stage := 2;
     Sampler.device := cuda 0;
     Sampler.idxs := [[]; []; []];
     Sampler.mem_data := None;
     Sampler.mem_rewards := None;
     Sampler.gpu_data := None;
     Sampler.gpu_rewards := None |}.

(** The same dataset, memory and GPU both loaded at [maxbatch], after a
    draw of the first tier. *)
Definition joint_sampler : Sampler.t :=
  {| Sampler.memory := tree_memory 5 five_contents;
     Sampler.rewards := five_rewards;
     Sampler.sizes := [3; 2; 1]%Z;
     Sampler.mem_stage := 0;
     Sampler.gpu_stage := 0;
     Sampler.device := cuda 0;
     Sampler.idxs := [[4; 0; 4]%Z; []; []];
     Sampler.mem_data := None;
     Sampler.mem_rewards := None;
     Sampler.gpu_data := None;
     Sampler.gpu_rewards := None |}.

(** [late_sampler] after a draw of the first tier. *)
Definition late_sampler_drawn : Sampler.t :=
  Sampler.set_idxs late_sampler [[3; 0; 2]%Z; []; []].

Definition zero_rng : RandomState := λ _, 0%nat.
Definition stride_rng : RandomState := λ i, (7 * i + 3)%nat.

(** An empty dataset, with tier sizes that are zero and with tier sizes
    that are not. *)
Definition empty_rewards : Tensor Qc :=
  {| tensor_device := cpu; tensor_rows := [] |}.

Definition empty_sampler (sizes : list Z) : Sampler.t :=
  {| Sampler.memory := tree_memory 0 [];
     Sampler.rewards := empty_rewards;
     Sampler.sizes := sizes;
     Sampler.mem_stage := 2;
     Sampler.gpu_stage := 2;
     Sampler.device := cuda 0;
     Sampler.idxs := [[]; []; []];
     Sampler.mem_data := None;
     Sampler.mem_rewards := None;
     Sampler.gpu_data := None;
     Sampler.gpu_rewards := None |}.

(** A world whose clock reads [0, 1, 2, ...] and where nothing has been
    printed. *)
Definition ticking_world : World :=
  {| clock := λ i, Qc_of_Z (Z.of_nat i); clock_reads := 0;
     traced := λ i, (Z.of_nat i, Z.of_nat i); traced_reads := 0;
     tracing := false; printed := [] |}.

(** A logger that has timed the label [step] twice. *)
Definition step_logger : time_logger.t :=
  {| time_logger.discard_first_sample := false;
     time_logger.record := true; time_logger.verbose := false;
     time_logger.memory_usage := false;
     time_logger.history := [("step", [1; 0])];
     time_logger.history_mem := None; time_logger.start_time := 0;
     time_logger.end_time := None |}.

(** * Facts *)

(** ** Loops and zips *)

Lemma for_each_app {S X : Type} (body : S → X → result S) xs ys s :
  for_each body (xs ++ ys) s = s' ← for_each body xs s; for_each body ys s'.
Proof.
  revert s. induction xs as [|x xs IH]; intros s; simpl; [done|].
  destruct (body s x) as [s1|e]; simpl; [apply IH|done].
Qed.

Lemma zip_reverse {A B : Type} (l : list A) (k : list B) :
  length l = length k → zip (reverse l) (reverse k) = reverse (zip l k).
Proof.
  revert k. induction l as [|x l IH]; intros [|y k] Hlen; simplify_eq/=; [done|].
  rewrite !reverse_cons, zip_with_app by (by rewrite !length_reverse).
  by rewrite IH.
Qed.

Lemma zip3_reverse {A B C : Type} (a : list A) (b : list B) (c : list C) :
  length b = length a → length c = length a →
  zip3 (reverse a) (reverse b) (reverse c) = reverse (zip3 a b c).
Proof.
  intros Hb Hc. unfold zip3.
  rewrite zip_reverse by done.
  apply zip_reverse. by rewrite length_zip_with_l_eq.
Qed.

Lemma zip3_keys {A B C : Type} (a : list A) (b : list B) (c : list C) :
  length b = length a → length c = length a → (zip3 a b c).*1.*1 = a.
Proof.
  intros Hb Hc. unfold zip3.
  rewrite fst_zip by (rewrite length_zip_with_l_eq by done; lia).
  apply fst_zip. lia.
Qed.

(** ** The last elements of a list *)

Lemma zip_reverse_latest {A B : Type} (l : list A) (k : list B) :
  zip (reverse l) (reverse k)
  = reverse (zip (latest (length l `min` length k) l)
                 (latest (length l `min` length k) k)).
Proof.
  rewrite <-(zip_with_take_both' _ (length l `min` length k)
               (length l `min` length k) (reverse l) (reverse k))
    by (rewrite !length_reverse; lia).
  rewrite !take_reverse. unfold latest. apply zip_reverse.
  rewrite !length_drop. lia.
Qed.

Lemma latest_latest {A : Type} (m m' : nat) (l : list A) :
  (m' ≤ m)%nat → latest m' (latest m l) = latest m' l.
Proof.
  intros Hle. unfold latest. rewrite drop_drop, length_drop. f_equal. lia.
Qed.

Lemma latest_zip {A B : Type} (m : nat) (l : list A) (k : list B) :
  length l = length k → latest m (zip l k) = zip (latest m l) (latest m k).
Proof.
  intros Hlen. unfold latest.
  rewrite zip_with_drop, length_zip_with_l_eq by done. by rewrite Hlen.
Qed.

Lemma length_latest {A : Type} (m : nat) (l : list A) :
  length (latest m l) = (m `min` length l)%nat.
Proof. unfold latest. rewrite length_drop. lia. Qed.

Lemma latest_all {A : Type} (m : nat) (l : list A) :
  (length l ≤ m)%nat → latest m l = l.
Proof.
  intros Hle. unfold latest. by replace (length l - m)%nat with 0%nat by lia.
Qed.

Lemma zip3_reverse_latest {A B C : Type} (a : list A) (b : list B)
    (c : list C) :
  zip3 (reverse a) (reverse b) (reverse c)
  = reverse (zip3 (latest ((length a `min` length b) `min` length c) a)
                  (latest ((length a `min` length b) `min` length c) b)
                  (latest ((length a `min` length b) `min` length c) c)).
Proof.
  unfold zip3. rewrite zip_reverse_latest, zip_reverse_latest.
  rewrite length_zip_with_l_eq by (rewrite !length_latest; lia).
  rewrite length_latest.
  replace (((length a `min` length b) `min` length a) `min` length c)%nat
    with ((length a `min` length b) `min` length c)%nat by lia.
  rewrite latest_zip by (rewrite !length_latest; lia).
  by rewrite !latest_latest by lia.
Qed.

(** ** MemoryBuffer: lists in the store *)

Lemma deref_new_nil {A : Type} (store : list (list A)) (r : Ref) :
  deref (store ++ [[]]) r = deref store r.
Proof.
  unfold deref. destruct (decide (r < length store)%nat) as [Hlt|Hge].
  - by rewrite lookup_app_l.
  - rewrite (lookup_ge_None_2 store) by lia.
    destruct (decide (r = length store)) as [->|Hne].
    + by rewrite list_lookup_middle.
    + rewrite lookup_ge_None_2; [done|]. rewrite length_app. simpl. lia.
Qed.

Lemma deref_middle {A : Type} (pre : list (list A)) l rest :
  deref (pre ++ l :: rest) (length pre) = l.
Proof. unfold deref. by rewrite list_lookup_middle. Qed.

Lemma deref_app_r {A : Type} (store new : list (list A)) (j : nat) :
  deref (store ++ new) (length store + j)%nat = deref new j.
Proof.
  unfold deref. rewrite lookup_app_r by lia. do 2 f_equal. lia.
Qed.

Lemma deref_prefix {A : Type} (store store' : list (list A)) (r : Ref) :
  store `prefix_of` store' → (r < length store)%nat →
  deref store' r = deref store r.
Proof. intros [new ->] Hr. unfold deref. by rewrite lookup_app_l. Qed.

Lemma list_append_middle {A : Type} (pre : list (list A)) l rest (x : A) :
  list_append (length pre) x (pre ++ l :: rest) = pre ++ (l ++ [x]) :: rest.
Proof.
  unfold list_append. rewrite deref_middle.
  rewrite insert_app_r_alt, Nat.sub_diag by lia. done.
Qed.

Lemma deref_del_all {A : Type} (store : list (list A)) (r r' : Ref) :
  deref (list_del_all r store) r'
  = if decide (r = r') then [] else deref store r'.
Proof.
  unfold deref, list_del_all. case_decide as Hr.
  - subst r'. destruct (decide (r < length store)%nat).
    + by rewrite list_lookup_insert_eq.
    + rewrite lookup_ge_None_2; [done|]. rewrite length_insert. lia.
  - by rewrite list_lookup_insert_ne.
Qed.

(** ** MemoryBuffer: the loop of [propagate_rewards] *)

Section propagate_rewards.
Context {T : Type}.
Implicit Types (self : MemoryBuffer.t) (h : MemoryBuffer.Store T).
Implicit Types (gamma : double) (k : EntityId).
Implicit Types (records : list (EntityId * double * bool)).
Implicit Types (running : gmap EntityId double) (acc : list double).

Lemma length_discounted gamma records :
  length (MemoryBuffer.discounted gamma records) = length records.
Proof.
  induction records as [|[[k r] d] records IH]; simpl; [done|by rewrite IH].
Qed.

(** Run over the reversed log, the loop leaves in [running] the return
    of the earliest record of each key and has appended to the local
    list the returns, latest record first; it changes no other list. *)
Lemma propagate_loop gamma records running h pre acc rest :
  MemoryBuffer.float_lists h = pre ++ acc :: rest →
  (∀ k, k ∈ records.*1.*1 → running !! k = Some double_zero) →
  ∃ running',
    for_each (MemoryBuffer.propagate_step gamma (length pre))
      (reverse records) (running, h)
    = Ok (running',
          MemoryBuffer.set_float_lists
            (pre ++ (acc ++ reverse (MemoryBuffer.discounted gamma records))
                 :: rest) h)
    ∧ ∀ k, running !! k = Some double_zero →
        running' !! k
        = Some (MemoryBuffer.first_return k (records.*1.*1)
                  (MemoryBuffer.discounted gamma records)).
Proof.
  intros Hh.
  induction records as [|[[k r] d] records IH]; intros Hzero.
  - exists running. simpl. rewrite app_nil_r, <-Hh. by destruct h.
  - destruct IH as (running1 & Hrun & Hfirst).
    { intros k' Hk'. apply Hzero. simpl. by right. }
    assert (running !! k = Some double_zero) as Hk by (apply Hzero; simpl; left).
    rewrite reverse_cons, for_each_app, Hrun.
    cbn [mbind result_bind for_each MemoryBuffer.propagate_step
         MemoryBuffer.float_lists MemoryBuffer.set_float_lists].
    unfold dict_getitem. destruct d.
    + rewrite lookup_insert_eq. cbn [mbind result_bind].
      rewrite lookup_insert_eq. cbn [mbind result_bind].
      rewrite list_append_middle.
      eexists. split.
      { cbn [MemoryBuffer.discounted]. rewrite reverse_cons, app_assoc. done. }
      intros k' Hk'. destruct (decide (k = k')) as [->|Hne].
      * rewrite lookup_insert_eq. simpl. by repeat case_decide.
      * rewrite !lookup_insert_ne by done. simpl.
        repeat case_decide; try done. by apply Hfirst.
    + rewrite (Hfirst k Hk). cbn [mbind result_bind].
      rewrite lookup_insert_eq. cbn [mbind result_bind].
      rewrite list_append_middle.
      eexists. split.
      { cbn [MemoryBuffer.discounted]. rewrite reverse_cons, app_assoc. done. }
      intros k' Hk'. destruct (decide (k = k')) as [->|Hne].
      * rewrite lookup_insert_eq. simpl. by repeat case_decide.
      * rewrite !lookup_insert_ne by done. simpl.
        repeat case_decide; try done. by apply Hfirst.
Qed.

End propagate_rewards.

(** ** MemoryBuffer: what [propagate_rewards] does to the store *)

Section propagate_store.
Context {T : Type}.
Implicit Types (self : MemoryBuffer.t) (h : MemoryBuffer.Store T).
Implicit Types (gamma : double) (k : EntityId).

Lemma length_read_log self h : length (read_log self h) = records_read self h.
Proof.
  unfold read_log, zip3, records_read.
  rewrite !length_zip_with, !length_latest. lia.
Qed.

Lemma read_log_parallel self h :
  MemoryBuffer.parallel self h → read_log self h = MemoryBuffer.log self h.
Proof.
  intros (_ & _ & _ & _ & Hr & Ht). unfold read_log, records_read.
  by rewrite !latest_all by lia.
Qed.

Lemma log_keys self h :
  MemoryBuffer.parallel self h →
  (MemoryBuffer.log self h).*1.*1 = MemoryBuffer.the_keys self h.
Proof. intros (_ & _ & _ & _ & Hr & Ht). by apply zip3_keys. Qed.

Lemma length_log self h :
  MemoryBuffer.parallel self h →
  length (MemoryBuffer.log self h) = MemoryBuffer.__len__ self h.
Proof.
  intros Hb. unfold MemoryBuffer.__len__.
  rewrite <-(log_keys self h Hb). by rewrite !length_fmap.
Qed.

Lemma log_lookup self h (i : nat) k (r : double) (terminal : bool) :
  MemoryBuffer.the_keys self h !! i = Some k →
  MemoryBuffer.the_rewards self h !! i = Some r →
  MemoryBuffer.the_is_terminals self h !! i = Some terminal →
  MemoryBuffer.log self h !! i = Some (k, r, terminal).
Proof.
  intros Hk Hr Ht. unfold MemoryBuffer.log, zip3.
  rewrite !lookup_zip_with, Hk, Hr, Ht. done.
Qed.

Lemma read_log_keys self h k :
  k ∈ (read_log self h).*1.*1 → k ∈ MemoryBuffer.the_keys self h.
Proof.
  intros Hk.
  apply list_elem_of_fmap in Hk as ([k' d] & -> & Hk).
  apply list_elem_of_fmap in Hk as ([[k'' r] d'] & [= <- <-] & Hk).
  apply elem_of_zip_l, elem_of_zip_l in Hk.
  by apply subseteq_drop in Hk.
Qed.

(** [propagate_rewards] never raises, whatever the lengths of the
    sequences. It adds to the store the three reversed copies, the local
    list of the loop, its reversed copy and the tensor, and returns the
    reference of the tensor. *)
Lemma propagate_rewards_store gamma self h :
  MemoryBuffer.propagate_rewards gamma self h
  = Ok (length (MemoryBuffer.float32_tensors h),
        {| MemoryBuffer.key_lists :=
             MemoryBuffer.key_lists h
             ++ [reverse (MemoryBuffer.the_keys self h)];
           MemoryBuffer.tensor_lists := MemoryBuffer.tensor_lists h;
           MemoryBuffer.float_lists :=
             MemoryBuffer.float_lists h
             ++ [reverse (MemoryBuffer.discounted gamma (read_log self h));
                 reverse (MemoryBuffer.the_rewards self h);
                 MemoryBuffer.discounted gamma (read_log self h)];
           MemoryBuffer.bool_lists :=
             MemoryBuffer.bool_lists h
             ++ [reverse (MemoryBuffer.the_is_terminals self h)];
           MemoryBuffer.float32_tensors :=
             MemoryBuffer.float32_tensors h
             ++ [float32_of_double
                   <$> MemoryBuffer.discounted gamma (read_log self h)] |}).
Proof.
  unfold MemoryBuffer.propagate_rewards, new_list.
  unfold MemoryBuffer.the_keys, MemoryBuffer.the_rewards,
    MemoryBuffer.the_is_terminals.
  cbn [MemoryBuffer.key_lists MemoryBuffer.float_lists MemoryBuffer.bool_lists
       MemoryBuffer.tensor_lists MemoryBuffer.float32_tensors
       MemoryBuffer.set_key_lists MemoryBuffer.set_float_lists
       MemoryBuffer.set_bool_lists MemoryBuffer.set_float32_tensors].
  rewrite deref_new_nil.
  rewrite (deref_middle (MemoryBuffer.key_lists h) _ []).
  rewrite (deref_middle (MemoryBuffer.bool_lists h) _ []).
  rewrite (deref_middle (MemoryBuffer.float_lists h ++ [[]]) _ []).
  rewrite zip3_reverse_latest.
  fold (MemoryBuffer.the_keys self h) (MemoryBuffer.the_rewards self h)
    (MemoryBuffer.the_is_terminals self h).
  fold (records_read self h). fold (read_log self h).
  rewrite <-(app_assoc (MemoryBuffer.float_lists h) [[]]).
  match goal with
  | |- context [for_each _ _ (?running, ?h0)] =>
      destruct (propagate_loop gamma (read_log self h) running h0
                  (MemoryBuffer.float_lists h) []
                  [reverse (MemoryBuffer.the_rewards self h)])
        as (running' & -> & _)
  end.
  { done. }
  { intros k Hk. apply read_log_keys in Hk.
    apply lookup_gset_to_gmap_Some. split; [|done].
    by apply elem_of_list_to_set. }
  cbn [mbind result_bind MemoryBuffer.key_lists MemoryBuffer.float_lists
       MemoryBuffer.bool_lists MemoryBuffer.tensor_lists
       MemoryBuffer.float32_tensors MemoryBuffer.set_key_lists
       MemoryBuffer.set_float_lists MemoryBuffer.set_bool_lists
       MemoryBuffer.set_float32_tensors app].
  rewrite !deref_middle.
  rewrite reverse_involutive, <-app_assoc. done.
Qed.

Lemma propagate_rewards_extends gamma self h out h' :
  MemoryBuffer.propagate_rewards gamma self h = Ok (out, h') →
  MemoryBuffer.extends h h'
  ∧ out = length (MemoryBuffer.float32_tensors h)
  ∧ deref (MemoryBuffer.float32_tensors h') out
    = float32_of_double <$> MemoryBuffer.discounted gamma (read_log self h).
Proof.
  rewrite propagate_rewards_store. intros [= <- <-]. split_and!.
  - unfold MemoryBuffer.extends. simpl.
    split_and!; (done || by apply prefix_app_r).
  - done.
  - simpl. apply (deref_middle _ _ []).
Qed.

(** The lists of an object are the same in a store that extends the one
    they are in. *)
Lemma extends_lists self h h' :
  MemoryBuffer.allocated self h → MemoryBuffer.extends h h' →
  MemoryBuffer.the_keys self h' = MemoryBuffer.the_keys self h
  ∧ MemoryBuffer.the_states self h' = MemoryBuffer.the_states self h
  ∧ MemoryBuffer.the_actions self h' = MemoryBuffer.the_actions self h
  ∧ MemoryBuffer.the_action_logs self h' = MemoryBuffer.the_action_logs self h
  ∧ MemoryBuffer.the_state_vals self h' = MemoryBuffer.the_state_vals self h
  ∧ MemoryBuffer.the_rewards self h' = MemoryBuffer.the_rewards self h
  ∧ MemoryBuffer.the_is_terminals self h'
    = MemoryBuffer.the_is_terminals self h.
Proof.
  intros (Ak & As & Aa & Al & Av & Ar & At) (Ek & Et & Ef & Eb & _).
  unfold MemoryBuffer.the_keys, MemoryBuffer.the_states,
    MemoryBuffer.the_actions, MemoryBuffer.the_action_logs,
    MemoryBuffer.the_state_vals, MemoryBuffer.the_rewards,
    MemoryBuffer.the_is_terminals.
  split_and!; by apply deref_prefix.
Qed.

Lemma extends_allocated self h h' :
  MemoryBuffer.allocated self h → MemoryBuffer.extends h h' →
  MemoryBuffer.allocated self h'.
Proof.
  intros (Ak & As & Aa & Al & Av & Ar & At) (Ek & Et & Ef & Eb & _).
  apply prefix_length in Ek, Et, Ef, Eb.
  unfold MemoryBuffer.allocated. lia.
Qed.

Lemma extends_parallel self h h' :
  MemoryBuffer.allocated self h → MemoryBuffer.extends h h' →
  MemoryBuffer.parallel self h → MemoryBuffer.parallel self h'.
Proof.
  intros Ha He. unfold MemoryBuffer.parallel.
  destruct (extends_lists self h h' Ha He)
    as (-> & -> & -> & -> & -> & -> & ->). done.
Qed.

Lemma clear_lists self h :
  MemoryBuffer.the_keys self (MemoryBuffer.clear self h) = []
  ∧ MemoryBuffer.the_states self (MemoryBuffer.clear self h) = []
  ∧ MemoryBuffer.the_actions self (MemoryBuffer.clear self h) = []
  ∧ MemoryBuffer.the_action_logs self (MemoryBuffer.clear self h) = []
  ∧ MemoryBuffer.the_state_vals self (MemoryBuffer.clear self h) = []
  ∧ MemoryBuffer.the_rewards self (MemoryBuffer.clear self h) = []
  ∧ MemoryBuffer.the_is_terminals self (MemoryBuffer.clear self h) = [].
Proof.
  unfold MemoryBuffer.the_keys, MemoryBuffer.the_states,
    MemoryBuffer.the_actions, MemoryBuffer.the_action_logs,
    MemoryBuffer.the_state_vals, MemoryBuffer.the_rewards,
    MemoryBuffer.the_is_terminals, MemoryBuffer.clear. simpl.
  rewrite !deref_del_all.
  split_and!; repeat case_decide; done.
Qed.

Lemma clear_allocated self h :
  MemoryBuffer.allocated self h →
  MemoryBuffer.allocated self (MemoryBuffer.clear self h).
Proof.
  unfold MemoryBuffer.allocated, MemoryBuffer.clear, list_del_all. simpl.
  by rewrite !length_insert.
Qed.

Lemma init_lists h :
  MemoryBuffer.the_keys (MemoryBuffer.__init__ h).1 (MemoryBuffer.__init__ h).2
  = []
  ∧ MemoryBuffer.the_states (MemoryBuffer.__init__ h).1
      (MemoryBuffer.__init__ h).2 = []
  ∧ MemoryBuffer.the_actions (MemoryBuffer.__init__ h).1
      (MemoryBuffer.__init__ h).2 = []
  ∧ MemoryBuffer.the_action_logs (MemoryBuffer.__init__ h).1
      (MemoryBuffer.__init__ h).2 = []
  ∧ MemoryBuffer.the_state_vals (MemoryBuffer.__init__ h).1
      (MemoryBuffer.__init__ h).2 = []
  ∧ MemoryBuffer.the_rewards (MemoryBuffer.__init__ h).1
      (MemoryBuffer.__init__ h).2 = []
  ∧ MemoryBuffer.the_is_terminals (MemoryBuffer.__init__ h).1
      (MemoryBuffer.__init__ h).2 = [].
Proof.
  unfold MemoryBuffer.the_keys, MemoryBuffer.the_states,
    MemoryBuffer.the_actions, MemoryBuffer.the_action_logs,
    MemoryBuffer.the_state_vals, MemoryBuffer.the_rewards,
    MemoryBuffer.the_is_terminals, MemoryBuffer.__init__, new_list. simpl.
  rewrite <-!app_assoc, !length_app. simpl.
  split_and!.
  - apply (deref_middle _ _ []).
  - apply deref_middle.
  - by rewrite (deref_app_r _ _ 1%nat).
  - by rewrite (deref_app_r _ _ 2%nat).
  - by rewrite (deref_app_r _ _ 3%nat).
  - apply (deref_middle _ _ []).
  - apply (deref_middle _ _ []).
Qed.

Lemma call_invariant self h (c : MemoryBuffer.Call) :
  MemoryBuffer.allocated self h → MemoryBuffer.parallel self h →
  ∃ h', MemoryBuffer.call self h c = Ok h'
        ∧ MemoryBuffer.allocated self h' ∧ MemoryBuffer.parallel self h'
        ∧ (MemoryBuffer.the_keys self h' = MemoryBuffer.the_keys self h
           ∨ MemoryBuffer.the_keys self h' = []).
Proof.
  intros Ha Hp. destruct c as [|gamma|]; simpl.
  - exists h. auto.
  - destruct (MemoryBuffer.propagate_rewards gamma self h) as [[out h']|e]
      eqn:Hrun; [|by rewrite propagate_rewards_store in Hrun].
    apply propagate_rewards_extends in Hrun as (He & _ & _).
    exists h'. split_and!; [done|by eapply extends_allocated
      |by eapply extends_parallel|left; by apply extends_lists].
  - eexists. split_and!; [done|by apply clear_allocated| |right; apply clear_lists].
    unfold MemoryBuffer.parallel.
    destruct (clear_lists self h) as (-> & -> & -> & -> & -> & -> & ->). done.
Qed.

Lemma run_invariant self (calls : list MemoryBuffer.Call) h :
  MemoryBuffer.allocated self h → MemoryBuffer.parallel self h →
  ∃ h', MemoryBuffer.run self calls h = Ok h'
        ∧ MemoryBuffer.allocated self h' ∧ MemoryBuffer.parallel self h'.
Proof.
  revert h. induction calls as [|c calls IH]; intros h Ha Hp.
  - exists h. done.
  - destruct (call_invariant self h c Ha Hp) as (h1 & Hc & Ha1 & Hp1 & _).
    unfold MemoryBuffer.run. simpl. rewrite Hc. simpl. by apply IH.
Qed.

End propagate_store.

(** ** MemoryBuffer: the recurrence of the returns *)

Section returns.
Implicit Types (gamma : double) (k : EntityId) (ks : list EntityId).
Implicit Types (records : list (EntityId * double * bool)).

Lemma index_of_Some k ks j :
  MemoryBuffer.index_of k ks = Some j →
  ks !! j = Some k ∧ ∀ i, (i < j)%nat → ks !! i ≠ Some k.
Proof.
  revert j. induction ks as [|k' ks IH]; intros j; simpl; [done|].
  case_decide as Hk.
  - intros [= <-]. split; [by subst|]. intros i Hi. lia.
  - destruct (MemoryBuffer.index_of k ks) as [j'|] eqn:Hj; [|done].
    intros [= <-]. destruct (IH j' eq_refl) as [Hj' Hbefore].
    split; [done|]. intros [|i] Hi; simpl; [congruence|].
    apply Hbefore. lia.
Qed.

Lemma index_of_None k ks : MemoryBuffer.index_of k ks = None → k ∉ ks.
Proof.
  induction ks as [|k' ks IH]; simpl; [intros _; apply not_elem_of_nil|].
  case_decide as Hk; [done|].
  destruct (MemoryBuffer.index_of k ks); [done|]. intros _.
  apply not_elem_of_cons. split; [congruence|by apply IH].
Qed.

(** [next_same_key] is the least later position holding the same key. *)
Lemma next_same_key_Some ks i j :
  MemoryBuffer.next_same_key ks i = Some j →
  (i < j)%nat ∧ is_Some (ks !! i) ∧ ks !! j = ks !! i
  ∧ ∀ m, (i < m < j)%nat → ks !! m ≠ ks !! i.
Proof.
  unfold MemoryBuffer.next_same_key.
  destruct (ks !! i) as [k|] eqn:Hi; [|done]. simpl.
  destruct (MemoryBuffer.index_of k (drop (S i) ks)) as [j'|] eqn:Hj; [|done].
  intros [= <-]. apply index_of_Some in Hj as [Hj Hbefore].
  rewrite lookup_drop in Hj. split_and!; [lia|eauto|done|].
  intros m Hm. specialize (Hbefore (m - S i)%nat).
  rewrite lookup_drop in Hbefore.
  replace (S i + (m - S i))%nat with m in Hbefore by lia.
  apply Hbefore. lia.
Qed.

Lemma next_same_key_None ks i j :
  MemoryBuffer.next_same_key ks i = None → (i < j)%nat →
  is_Some (ks !! i) → ks !! j ≠ ks !! i.
Proof.
  unfold MemoryBuffer.next_same_key. intros Hnone Hij [k Hi].
  rewrite Hi in Hnone |- *. simpl in Hnone.
  destruct (MemoryBuffer.index_of k (drop (S i) ks)) eqn:Hj; [done|].
  apply index_of_None in Hj. intros Hjk. apply Hj.
  apply list_elem_of_lookup. exists (j - S i)%nat.
  rewrite lookup_drop. by replace (S i + (j - S i))%nat with j by lia.
Qed.

Lemma next_same_key_cons k ks i :
  MemoryBuffer.next_same_key (k :: ks) (S i)
  = S <$> MemoryBuffer.next_same_key ks i.
Proof.
  unfold MemoryBuffer.next_same_key. simpl.
  destruct (ks !! i) as [k'|]; simpl; [|done].
  by destruct (MemoryBuffer.index_of k' (drop (S i) ks)).
Qed.

Lemma next_same_key_first k ks :
  MemoryBuffer.next_same_key (k :: ks) 0%nat = S <$> MemoryBuffer.index_of k ks.
Proof.
  unfold MemoryBuffer.next_same_key. simpl. rewrite drop_0.
  by destruct (MemoryBuffer.index_of k ks).
Qed.

Lemma discounted_cons gamma k (r : double) (terminal : bool) records :
  MemoryBuffer.discounted gamma ((k, r, terminal) :: records)
  = double_add r
      (double_mul gamma
         (if terminal then double_zero
          else MemoryBuffer.first_return k (records.*1.*1)
                 (MemoryBuffer.discounted gamma records)))
    :: MemoryBuffer.discounted gamma records.
Proof. done. Qed.

Lemma first_return_index_of k ks (returns : list double) :
  MemoryBuffer.first_return k ks returns
  = match MemoryBuffer.index_of k ks with
    | Some j => default double_zero (returns !! j)
    | None => double_zero
    end.
Proof.
  revert returns. induction ks as [|k' ks IH]; intros [|r returns]; simpl;
    try done.
  - case_decide; [done|]. by destruct (MemoryBuffer.index_of k ks).
  - case_decide; [done|]. rewrite IH.
    by destruct (MemoryBuffer.index_of k ks).
Qed.

(** Record [i] gets its reward plus [gamma] times the return of the
    next record of its key; nothing is carried over a terminal record
    or when no such record follows. *)
Lemma discounted_lookup gamma records (i : nat) k (r : double) (terminal : bool) :
  records !! i = Some (k, r, terminal) →
  MemoryBuffer.discounted gamma records !! i
  = Some (double_add r
            (double_mul gamma
               (if terminal then double_zero
                else match MemoryBuffer.next_same_key (records.*1.*1) i with
                     | Some j =>
                         default double_zero
                           (MemoryBuffer.discounted gamma records !! j)
                     | None => double_zero
                     end))).
Proof.
  revert i. induction records as [|[[k0 r0] d0] records IH]; intros i;
    [done|].
  rewrite discounted_cons.
  change (((k0, r0, d0) :: records).*1.*1) with (k0 :: records.*1.*1).
  destruct i as [|i].
  - intros [= -> -> ->].
    rewrite next_same_key_first, first_return_index_of.
    destruct terminal; [done|].
    by destruct (MemoryBuffer.index_of k (records.*1.*1)).
  - intros Hi. rewrite next_same_key_cons.
    match goal with
    | |- (?x :: ?l) !! S i = _ => change ((x :: l) !! S i) with (l !! i)
    end.
    rewrite (IH i Hi).
    by destruct (MemoryBuffer.next_same_key (records.*1.*1) i).
Qed.

(** *** One key at a time *)

Lemma select_key_cons {V : Type} k k' ks (v : V) values :
  MemoryBuffer.select_key k (k' :: ks) (v :: values)
  = if decide (k' = k) then v :: MemoryBuffer.select_key k ks values
    else MemoryBuffer.select_key k ks values.
Proof.
  unfold MemoryBuffer.select_key. simpl. rewrite filter_cons. simpl.
  by case_decide.
Qed.

Lemma first_return_select k ks (returns : list double) :
  MemoryBuffer.first_return k ks returns
  = default double_zero (head (MemoryBuffer.select_key k ks returns)).
Proof.
  revert returns. induction ks as [|k' ks IH]; intros [|r returns];
    try done.
  simpl. rewrite select_key_cons. case_decide; [done|]. apply IH.
Qed.

Lemma first_return_same k records gamma :
  Forall (λ x, x.1.1 = k) records →
  MemoryBuffer.first_return k (records.*1.*1)
    (MemoryBuffer.discounted gamma records)
  = default double_zero (head (MemoryBuffer.discounted gamma records)).
Proof.
  intros Hall. destruct Hall as [|[[k' r] d] records Hk _]; [done|].
  simpl in *. by rewrite decide_True.
Qed.

(** The returns of the records of one key do not depend on the records
    of the other keys around them. *)
Lemma discounted_filter gamma k records :
  MemoryBuffer.discounted gamma (filter (λ x, x.1.1 = k) records)
  = MemoryBuffer.select_key k (records.*1.*1)
      (MemoryBuffer.discounted gamma records).
Proof.
  induction records as [|[[k' r] d] records IH]; [done|].
  change (((k', r, d) :: records).*1.*1) with (k' :: records.*1.*1).
  rewrite discounted_cons, select_key_cons.
  destruct (decide (k' = k)) as [->|Hne].
  - rewrite filter_cons_True, discounted_cons, IH by done. f_equal.
    destruct d; [done|]. do 2 f_equal.
    rewrite <-IH, first_return_same, IH; [by rewrite first_return_select|].
    apply Forall_forall. intros x Hx.
    by apply list_elem_of_filter in Hx as [Hx _].
  - by rewrite filter_cons_False.
Qed.




(** On the records of one key, each return is the nested sum of the
    rewards up to the end of the episode. *)
Lemma discounted_one_key gamma k records :
  Forall (λ x, x.1.1 = k) records →
  head (MemoryBuffer.discounted gamma records)
  = match records with
    | [] => None
    | _ => Some (nested_return gamma (rest_of_episode records))
    end.
Proof.
  induction 1 as [|[[k' r] d] records Hk Hall IH]; [done|].
  simpl in Hk. subst k'. rewrite discounted_cons.
  cbn [head rest_of_episode]. do 3 f_equal. destruct d; [done|].
  rewrite (first_return_same k) by done. rewrite IH.
  by destruct records.
Qed.

Lemma discounted_drop gamma records (i : nat) :
  drop i (MemoryBuffer.discounted gamma records)
  = MemoryBuffer.discounted gamma (drop i records).
Proof.
  revert i. induction records as [|[[k r] d] records IH]; intros [|i];
    try done.
  rewrite discounted_cons. simpl. apply IH.
Qed.

Lemma discounted_rewards_ahead gamma k records (i : nat) :
  records.*1.*1 !! i = Some k →
  MemoryBuffer.discounted gamma records !! i
  = Some (nested_return gamma (rewards_ahead k i records)).
Proof.
  intros Hk. unfold rewards_ahead.
  rewrite !list_lookup_fmap in Hk.
  destruct (records !! i) as [[[k' r] d]|] eqn:Hi; [|done].
  simpl in Hk. injection Hk as ->.
  assert (MemoryBuffer.discounted gamma records !! i
          = head (MemoryBuffer.discounted gamma (drop i records))) as ->.
  { by rewrite <-discounted_drop, head_lookup, lookup_drop, Nat.add_0_r. }
  rewrite (drop_S _ _ _ Hi).
  pose proof (discounted_one_key gamma k
                (filter (λ x, x.1.1 = k) ((k, r, d) :: drop (S i) records)))
    as Hone.
  rewrite discounted_filter in Hone.
  change (((k, r, d) :: drop (S i) records).*1.*1)
    with (k :: (drop (S i) records).*1.*1) in Hone.
  rewrite discounted_cons, select_key_cons, decide_True in Hone by done.
  rewrite filter_cons_True in Hone by done.
  rewrite filter_cons_True by done.
  rewrite discounted_cons.
  apply Hone.
  rewrite <-(filter_cons_True (λ x, x.1.1 = k)) by done. apply Forall_forall.
  by intros x [? _]%list_elem_of_filter.
Qed.

End returns.

(** ** MemoryBuffer: the statements *)

Section memory_buffer.
Context {T : Type}.
Implicit Types (self : MemoryBuffer.t) (h : MemoryBuffer.Store T).
Implicit Types (gamma : double) (k : EntityId).

(** C8. The class defines no [append]: calling it raises
    [AttributeError]. The operations the class does define keep the
    seven sequences of one length: [__init__] makes seven empty lists,
    [clear] empties the seven lists, and any sequence of calls of
    [__len__], [propagate_rewards] and [clear] on a buffer whose
    sequences have one length returns and leaves them of one length. *)
Theorem no_append_lists_stay_parallel :
  MemoryBuffer.method_of "append" = Raise AttributeError
  ∧ (∀ h,
       MemoryBuffer.parallel (MemoryBuffer.__init__ h).1
         (MemoryBuffer.__init__ h).2
       ∧ MemoryBuffer.__len__ (MemoryBuffer.__init__ h).1
           (MemoryBuffer.__init__ h).2 = 0%nat)
  ∧ (∀ self h,
       MemoryBuffer.parallel self (MemoryBuffer.clear self h)
       ∧ MemoryBuffer.__len__ self (MemoryBuffer.clear self h) = 0%nat)
  ∧ (∀ self (calls : list MemoryBuffer.Call) h,
       Forall int64 (MemoryBuffer.the_keys self h) →
       MemoryBuffer.allocated self h →
       MemoryBuffer.parallel self h →
       ∃ h', MemoryBuffer.run self calls h = Ok h'
             ∧ MemoryBuffer.parallel self h').
Proof.
  split_and!.
  - done.
  - intros h. unfold MemoryBuffer.parallel, MemoryBuffer.__len__.
    destruct (init_lists h) as (-> & -> & -> & -> & -> & -> & ->). done.
  - intros self h. unfold MemoryBuffer.parallel, MemoryBuffer.__len__.
    destruct (clear_lists self h) as (-> & -> & -> & -> & -> & -> & ->). done.
  - intros self calls h _ Ha Hp.
    destruct (run_invariant self calls h Ha Hp) as (h' & Hrun & _ & Hp').
    eauto.
Qed.


(** C5. On a buffer with parallel sequences (and keys that fit in 64
    bits) [propagate_rewards] returns one value per record, in the order
    of the records. The value of record [i] is the [float32] nearest to
    its running return; the running return is a float: the reward of
    the record plus [gamma] times the running return (not its [float32]
    rounding) of the next record of the same key, and times zero when
    record [i] is terminal or is the last of its key, the sum and the
    product being those of floats. For one key, rewards [[1, 1, 1]],
    terminals [[False, False, True]] and [gamma = 0.5] the result is
    [[1.75, 1.5, 1]]. *)
Theorem propagate_rewards_returns :
  (∀ gamma self h,
     Forall int64 (MemoryBuffer.the_keys self h) →
     MemoryBuffer.parallel self h →
     ∃ out h' (running : list double),
       MemoryBuffer.propagate_rewards gamma self h = Ok (out, h')
       ∧ deref (MemoryBuffer.float32_tensors h') out
         = float32_of_double <$> running
       ∧ length running = MemoryBuffer.__len__ self h
       ∧ ∀ (i : nat) k (r : double) (terminal : bool),
           MemoryBuffer.the_keys self h !! i = Some k →
           MemoryBuffer.the_rewards self h !! i = Some r →
           MemoryBuffer.the_is_terminals self h !! i = Some terminal →
           running !! i
           = Some (double_add r
               (double_mul gamma
                  (if terminal then double_zero
                   else match MemoryBuffer.next_same_key
                                (MemoryBuffer.the_keys self h) i with
                        | Some j => default double_zero (running !! j)
                        | None => double_zero
                        end))))
  ∧ (∀ self h k,
       int64 k →
       MemoryBuffer.the_keys self h = [k; k; k] →
       MemoryBuffer.the_rewards self h = [double_one; double_one; double_one] →
       MemoryBuffer.the_is_terminals self h = [false; false; true] →
       ∃ out h',
         MemoryBuffer.propagate_rewards double_half self h = Ok (out, h')
         ∧ number_of <$> deref (MemoryBuffer.float32_tensors h') out
           = [Some (Q2Qc (7 # 4)); Some (Q2Qc (3 # 2)); Some 1]).
Proof.
  split.
  - intros gamma self h _ Hb.
    destruct (MemoryBuffer.propagate_rewards gamma self h) as [[out h']|e]
      eqn:Hrun; [|by rewrite propagate_rewards_store in Hrun].
    apply propagate_rewards_extends in Hrun as (_ & _ & Hout).
    rewrite read_log_parallel in Hout by done.
    exists out, h', (MemoryBuffer.discounted gamma (MemoryBuffer.log self h)).
    split_and!; [done|done|by rewrite length_discounted, length_log|].
    intros i k r terminal Hk Hri Hti.
    rewrite (discounted_lookup gamma _ i k r terminal)
      by by apply log_lookup.
    by rewrite log_keys.
  - intros self h k _ Hk Hr Ht.
    destruct (MemoryBuffer.propagate_rewards double_half self h)
      as [[out h']|e] eqn:Hrun; [|by rewrite propagate_rewards_store in Hrun].
    apply propagate_rewards_extends in Hrun as (_ & _ & Hout).
    exists out, h'. split; [done|]. rewrite Hout.
    unfold read_log, records_read. rewrite Hk, Hr, Ht.
    cbn [length Nat.min latest Nat.sub drop zip3 zip zip_with
         MemoryBuffer.discounted fmap list_fmap fst
         MemoryBuffer.first_return].
    rewrite !decide_True by done.
    repeat match goal with
    | |- context [number_of (float32_of_double ?x)] =>
        let v := eval vm_compute in (float32_of_double x) in
        replace (float32_of_double x) with v by (by vm_compute)
    end.
    cbn [number_of].
    f_equal; [|f_equal; [|f_equal]]; apply f_equal, Qc_is_canon;
      by vm_compute.
Qed.


(** X15. [propagate_rewards] never checks that the sequences have one
    length: it reads as many records as the shortest of [keys],
    [rewards] and [is_terminals] holds, taken from the END of each
    sequence, returns one value for each of them (the [float32] nearest
    to its running return), and raises nothing. *)
Theorem propagate_rewards_unequal gamma self h :
  Forall int64 (MemoryBuffer.the_keys self h) →
  ∃ out h',
    MemoryBuffer.propagate_rewards gamma self h = Ok (out, h')
    ∧ deref (MemoryBuffer.float32_tensors h') out
      = float32_of_double <$> MemoryBuffer.discounted gamma (read_log self h)
    ∧ length (deref (MemoryBuffer.float32_tensors h') out)
      = records_read self h
    ∧ (∀ (i : nat) k (r : double) (terminal : bool),
         (i < records_read self h)%nat →
         latest (records_read self h) (MemoryBuffer.the_keys self h) !! i
         = Some k →
         latest (records_read self h) (MemoryBuffer.the_rewards self h) !! i
         = Some r →
         latest (records_read self h) (MemoryBuffer.the_is_terminals self h)
           !! i = Some terminal →
         read_log self h !! i = Some (k, r, terminal)).
Proof.
  intros _.
  destruct (MemoryBuffer.propagate_rewards gamma self h) as [[out h']|e]
    eqn:Hrun; [|by rewrite propagate_rewards_store in Hrun].
  apply propagate_rewards_extends in Hrun as (_ & _ & Hout).
  exists out, h'. split_and!; [done|done| |].
  - by rewrite Hout, length_fmap, length_discounted, length_read_log.
  - intros i k r terminal _ Hk Hr Ht. unfold read_log, zip3.
    rewrite !lookup_zip_with, Hk, Hr, Ht. done.
Qed.

(** X16. On a buffer with parallel sequences, the value returned for
    record [i] of key [k] is the [float32] nearest to
    [r_0 + gamma * (r_1 + gamma * (r_2 + ... + gamma * (r_m + gamma * 0)))],
    evaluated in floats from the inside out, where [r_0, ..., r_m] are
    the rewards of the records of key [k] from record [i] on, up to and
    including the first terminal one (all of them if none is terminal):
    records of other keys, and records after the end of the episode,
    do not count. *)
Theorem propagate_rewards_nested_return gamma self h (i : nat) k :
  Forall int64 (MemoryBuffer.the_keys self h) →
  MemoryBuffer.parallel self h →
  MemoryBuffer.the_keys self h !! i = Some k →
  ∃ out h',
    MemoryBuffer.propagate_rewards gamma self h = Ok (out, h')
    ∧ deref (MemoryBuffer.float32_tensors h') out !! i
      = Some (float32_of_double
                (nested_return gamma
                   (rewards_ahead k i (MemoryBuffer.log self h)))).
Proof.
  intros _ Hb Hk.
  destruct (MemoryBuffer.propagate_rewards gamma self h) as [[out h']|e]
    eqn:Hrun; [|by rewrite propagate_rewards_store in Hrun].
  apply propagate_rewards_extends in Hrun as (_ & _ & Hout).
  exists out, h'. split; [done|].
  rewrite Hout, read_log_parallel, list_lookup_fmap by done.
  rewrite (discounted_rewards_ahead gamma k) by by rewrite log_keys.
  done.
Qed.

End memory_buffer.

Lemma first_buffer_parallel keys rewards is_terminals :
  length rewards = length keys → length is_terminals = length keys →
  MemoryBuffer.parallel first_buffer (store_of keys rewards is_terminals).
Proof.
  intros Hr Ht.
  unfold MemoryBuffer.parallel, MemoryBuffer.the_keys, MemoryBuffer.the_states,
    MemoryBuffer.the_actions, MemoryBuffer.the_action_logs,
    MemoryBuffer.the_state_vals, MemoryBuffer.the_rewards,
    MemoryBuffer.the_is_terminals, deref. simpl.
  by rewrite !length_replicate.
Qed.

Lemma first_buffer_allocated keys rewards is_terminals :
  MemoryBuffer.allocated first_buffer (store_of keys rewards is_terminals).
Proof. unfold MemoryBuffer.allocated. simpl. lia. Qed.

Lemma int64_small (k : EntityId) : (0 ≤ k < 10)%Z → int64 k.
Proof. unfold int64. lia. Qed.

Lemma no_append_lists_stay_parallel_witness :
  Forall int64 (MemoryBuffer.the_keys first_buffer two_key_store)
  ∧ MemoryBuffer.allocated first_buffer two_key_store
  ∧ MemoryBuffer.parallel first_buffer two_key_store
  ∧ ∃ h', MemoryBuffer.run first_buffer
            [MemoryBuffer.call_len;
             MemoryBuffer.call_propagate_rewards double_half;
             MemoryBuffer.call_clear;
             MemoryBuffer.call_propagate_rewards double_half]
            two_key_store = Ok h'
          ∧ MemoryBuffer.parallel first_buffer h'.
Proof.
  assert (Forall int64 (MemoryBuffer.the_keys first_buffer two_key_store))
    as Hk by (repeat constructor; apply int64_small; lia).
  assert (MemoryBuffer.allocated first_buffer two_key_store) as Ha
    by apply first_buffer_allocated.
  assert (MemoryBuffer.parallel first_buffer two_key_store) as Hp
    by by apply first_buffer_parallel.
  split_and!; [done|done|done|].
  exact (proj2 (proj2 (proj2 no_append_lists_stay_parallel)) first_buffer
           _ two_key_store Hk Ha Hp).
Defined.

(** The class has no [append] to call. *)
Lemma append_raises_attribute_error :
  MemoryBuffer.method_of "append" = Raise AttributeError.
Proof. done. Qed.


Lemma propagate_rewards_returns_witness :
  Forall int64 (MemoryBuffer.the_keys first_buffer one_key_store)
  ∧ MemoryBuffer.parallel first_buffer one_key_store
  ∧ ∃ out h' (running : list double),
      MemoryBuffer.propagate_rewards double_half first_buffer one_key_store
      = Ok (out, h')
      ∧ deref (MemoryBuffer.float32_tensors h') out
        = float32_of_double <$> running
      ∧ length running = MemoryBuffer.__len__ first_buffer one_key_store
      ∧ ∀ (i : nat) k (r : double) (terminal : bool),
          MemoryBuffer.the_keys first_buffer one_key_store !! i = Some k →
          MemoryBuffer.the_rewards first_buffer one_key_store !! i = Some r →
          MemoryBuffer.the_is_terminals first_buffer one_key_store !! i
          = Some terminal →
          running !! i
          = Some (double_add r
              (double_mul double_half
                 (if terminal then double_zero
                  else match MemoryBuffer.next_same_key
                               (MemoryBuffer.the_keys first_buffer
                                  one_key_store) i with
                       | Some j => default double_zero (running !! j)
                       | None => double_zero
                       end))).
Proof.
  assert (Forall int64 (MemoryBuffer.the_keys first_buffer one_key_store))
    as Hk by (repeat constructor; apply int64_small; lia).
  assert (MemoryBuffer.parallel first_buffer one_key_store) as Hp
    by by apply first_buffer_parallel.
  split_and!; [done|done|].
  exact (proj1 propagate_rewards_returns double_half first_buffer
           one_key_store Hk Hp).
Defined.

(** One key, rewards [[1, 1, 2 ** 24]], no terminal record, [gamma = 1]:
    the values returned are [[16777218, 16777216, 16777216]], and the
    first is not the first reward plus [gamma] times the second, whether
    the sum and the product are those of numbers, of floats or of
    [float32]: these give [16777217], [16777217] and [16777216]. *)
Lemma propagate_rewards_rounds :
  MemoryBuffer.parallel first_buffer large_reward_store
  ∧ MemoryBuffer.the_rewards first_buffer large_reward_store !! 0%nat
    = Some double_one
  ∧ MemoryBuffer.the_is_terminals first_buffer large_reward_store !! 0%nat
    = Some false
  ∧ MemoryBuffer.next_same_key
      (MemoryBuffer.the_keys first_buffer large_reward_store) 0
    = Some 1%nat
  ∧ ∃ out h' (a0 a1 a2 : float32),
      MemoryBuffer.propagate_rewards double_one first_buffer
        large_reward_store
      = Ok (out, h')
      ∧ deref (MemoryBuffer.float32_tensors h') out = [a0; a1; a2]
      ∧ number_of a0 = Some (Qc_of_Z 16777218)
      ∧ number_of a1 = Some (Qc_of_Z 16777216)
      ∧ Qc_of_Z 16777218 ≠ 1 + 1 * Qc_of_Z 16777216
      ∧ number_of (double_add double_one (double_mul double_one a1))
        = Some (Qc_of_Z 16777217)
      ∧ number_of a0
        ≠ number_of (double_add double_one (double_mul double_one a1))
      ∧ number_of (float32_add (float32_of_double double_one)
                     (float32_mul (float32_of_double double_one) a1))
        = Some (Qc_of_Z 16777216)
      ∧ number_of a0
        ≠ number_of (float32_add (float32_of_double double_one)
                       (float32_mul (float32_of_double double_one) a1)).
Proof.
  split; [by apply first_buffer_parallel|]. do 3 (split; [done|]).
  rewrite propagate_rewards_store. eexists _, _, _, _, _.
  split; [done|]. split; [by vm_compute|].
  assert (∀ (x : SpecFloat.spec_float) (q : Qc),
            match number_of x with
            | Some y => Qeq (this y) (this q)
            | None => False
            end → number_of x = Some q) as Hvalue.
  { intros x q. destruct (number_of x) as [y|]; [|done].
    intros Hq. f_equal. by apply Qc_is_canon. }
  assert (∀ x y : SpecFloat.spec_float,
            match number_of x, number_of y with
            | Some a, Some b => ¬ Qeq (this a) (this b)
            | _, _ => False
            end → number_of x ≠ number_of y) as Hdiffer.
  { intros x y. destruct (number_of x) as [a|], (number_of y) as [b|];
      try done.
    intros Hab [= ->]. by apply Hab. }
  split_and!.
  - apply Hvalue. by vm_compute.
  - apply Hvalue. by vm_compute.
  - intros Heq. apply (f_equal this) in Heq. by vm_compute in Heq.
  - apply Hvalue. by vm_compute.
  - apply Hdiffer. by vm_compute.
  - apply Hvalue. by vm_compute.
  - apply Hdiffer. by vm_compute.
Qed.


Lemma propagate_rewards_unequal_witness :
  Forall int64 (MemoryBuffer.the_keys first_buffer ragged_store)
  ∧ records_read first_buffer ragged_store = 2%nat
  ∧ ∃ out h',
      MemoryBuffer.propagate_rewards double_half first_buffer ragged_store
      = Ok (out, h')
      ∧ deref (MemoryBuffer.float32_tensors h') out
        = float32_of_double
            <$> MemoryBuffer.discounted double_half
                  (read_log first_buffer ragged_store)
      ∧ length (deref (MemoryBuffer.float32_tensors h') out)
        = records_read first_buffer ragged_store
      ∧ (∀ (i : nat) k (r : double) (terminal : bool),
           (i < records_read first_buffer ragged_store)%nat →
           latest (records_read first_buffer ragged_store)
             (MemoryBuffer.the_keys first_buffer ragged_store) !! i
           = Some k →
           latest (records_read first_buffer ragged_store)
             (MemoryBuffer.the_rewards first_buffer ragged_store) !! i
           = Some r →
           latest (records_read first_buffer ragged_store)
             (MemoryBuffer.the_is_terminals first_buffer ragged_store)
             !! i = Some terminal →
           read_log first_buffer ragged_store !! i = Some (k, r, terminal)).
Proof.
  assert (Forall int64 (MemoryBuffer.the_keys first_buffer ragged_store))
    as Hk by (repeat constructor; apply int64_small; lia).
  split_and!; [done|done|].
  exact (propagate_rewards_unequal double_half first_buffer ragged_store Hk).
Defined.

Lemma propagate_rewards_nested_return_witness :
  Forall int64 (MemoryBuffer.the_keys first_buffer two_key_store)
  ∧ MemoryBuffer.parallel first_buffer two_key_store
  ∧ MemoryBuffer.the_keys first_buffer two_key_store !! 1%nat = Some 2%Z
  ∧ ∃ out h',
      MemoryBuffer.propagate_rewards double_half first_buffer two_key_store
      = Ok (out, h')
      ∧ deref (MemoryBuffer.float32_tensors h') out !! 1%nat
        = Some (float32_of_double
                  (nested_return double_half
                     (rewards_ahead 2%Z 1
                        (MemoryBuffer.log first_buffer two_key_store)))).
Proof.
  assert (Forall int64 (MemoryBuffer.the_keys first_buffer two_key_store))
    as Hk by (repeat constructor; apply int64_small; lia).
  assert (MemoryBuffer.parallel first_buffer two_key_store) as Hp
    by by apply first_buffer_parallel.
  split_and!; [done|done|done|].
  exact (propagate_rewards_nested_return double_half first_buffer
           two_key_store 1%nat 2%Z Hk Hp eq_refl).
Defined.

(** ** Indexing and moving trees of tensors *)

Lemma mapM_Ok_fmap {A B : Type} (f : A → result B) (g : A → B) l :
  Forall (λ x, f x = Ok (g x)) l → mapM f l = Ok (g <$> l).
Proof.
  induction 1 as [|x l Hx _ IH]; [done|].
  simpl. rewrite Hx. simpl. by rewrite IH.
Qed.

Lemma mapM_Ok_fuse {A B : Type} (f f' : A → result B) (g : B → B) l
    (k : list B) :
  Forall (λ x, ∀ y, f x = Ok y → f' x = Ok (g y)) l →
  mapM f l = Ok k → mapM f' l = Ok (g <$> k).
Proof.
  intros Hall. revert k. induction Hall as [|x l Hx _ IH]; intros k; simpl.
  - by intros [= <-].
  - destruct (f x) as [y|] eqn:Hy; [|done]. simpl.
    destruct (mapM f l) as [k'|] eqn:Hk'; [|done]. simpl.
    intros [= <-]. by rewrite (Hx y eq_refl), (IH k' eq_refl).
Qed.

Lemma mapM_Ok_exists {A B : Type} (f : A → result B) l :
  Forall (λ x, ∃ y, f x = Ok y) l → ∃ k, mapM f l = Ok k.
Proof.
  induction 1 as [|x l [y Hy] _ [k IH]]; [by eexists|].
  simpl. rewrite Hy. simpl. rewrite IH. simpl. by eexists.
Qed.

Lemma mapM_Ok_length {A B : Type} (f : A → result B) l (k : list B) :
  mapM f l = Ok k → length k = length l.
Proof.
  revert k. induction l as [|x l IH]; intros k; simpl.
  - by intros [= <-].
  - destruct (f x) as [y|]; [|done]. simpl.
    destruct (mapM f l) as [k'|]; [|done]. simpl.
    intros [= <-]. simpl. by rewrite (IH k' eq_refl).
Qed.

Lemma Tree_nested_ind (P : Tree → Prop) :
  (∀ x, P (Leaf x)) →
  (∀ members, Forall P members → P (Members members)) →
  ∀ x, P x.
Proof.
  intros Hleaf Hmembers. fix IH 1. intros [x|members]; [apply Hleaf|].
  apply Hmembers. induction members as [|member members IHm];
    constructor; [apply IH|apply IHm].
Qed.

(** Moving without selecting cannot raise and is [tree_to]. *)
Lemma recursive_tensor_func_to device x :
  recursive_tensor_func x (subfunc None (Some device)) = Ok (tree_to device x).
Proof.
  induction x as [x|members IH] using Tree_nested_ind; [done|].
  simpl. by rewrite (mapM_Ok_fmap _ (tree_to device)).
Qed.

Lemma dict_map_recursive_tensor_to device dict :
  dict_map_recursive_tensor_idx_to dict None (Some device)
  = Ok (dict_to device dict).
Proof.
  unfold dict_map_recursive_tensor_idx_to, dict_map.
  rewrite (mapM_Ok_fmap _ (λ kv, (kv.1, tree_to device kv.2))); [done|].
  apply Forall_forall. intros [key x] _. simpl.
  by rewrite recursive_tensor_func_to.
Qed.

(** Selecting and moving in one pass is selecting, then moving. *)
Lemma recursive_tensor_func_idx_to idx device x y :
  recursive_tensor_func x (subfunc (Some idx) None) = Ok y →
  recursive_tensor_func x (subfunc (Some idx) (Some device))
  = Ok (tree_to device y).
Proof.
  revert y. induction x as [x|members IH] using Tree_nested_ind; intros y.
  - simpl. unfold subfunc. destruct (tensor_getitem x idx); [|done].
    simpl. by intros [= <-].
  - simpl.
    destruct (mapM _ members) as [chosen|] eqn:Hchosen; [|done]. simpl.
    intros [= <-]. by rewrite (mapM_Ok_fuse _ _ (tree_to device) _ _ IH Hchosen).
Qed.

Lemma dict_map_recursive_tensor_idx_then_to idx device dict chosen :
  dict_map_recursive_tensor_idx_to dict (Some idx) None = Ok chosen →
  dict_map_recursive_tensor_idx_to dict (Some idx) (Some device)
  = Ok (dict_to device chosen).
Proof.
  unfold dict_map_recursive_tensor_idx_to, dict_map.
  destruct (mapM _ dict) as [mapped|] eqn:Hmapped; [|done]. simpl.
  intros [= <-].
  erewrite (mapM_Ok_fuse _ _ (λ kv, (kv.1, tree_to device kv.2)));
    [done| |exact Hmapped].
  apply Forall_forall. intros [key x] _ [key' y]. simpl.
  destruct (recursive_tensor_func x (subfunc (Some idx) None)) as [y'|] eqn:Hy;
    [|done].
  simpl. intros [= <- <-]. by rewrite (recursive_tensor_func_idx_to _ _ _ _ Hy).
Qed.

(** ** The random draw *)

Lemma population_array_length a :
  length (population_array a) = population_size a.
Proof. destruct a as [n|a]; simpl; [|done]. by rewrite length_fmap, length_seq. Qed.

Lemma population_array_Count n x :
  x ∈ population_array (Count n) → (0 ≤ x < Z.of_nat n)%Z.
Proof.
  simpl. intros (i & -> & Hi)%list_elem_of_fmap.
  apply elem_of_seq in Hi. lia.
Qed.

(** A draw that returns has the requested size and only takes members
    of the population. *)
Lemma random_choice_Ok a size rng drawn rng' :
  random_choice a size rng = Ok (drawn, rng') →
  Z.of_nat (length drawn) = size
  ∧ Forall (λ x, x ∈ population_array a) drawn.
Proof.
  unfold random_choice. case_decide as Hsize; [done|].
  case_decide as Hempty; [done|]. intros [= <- <-]. split.
  - rewrite !length_fmap, length_seq. lia.
  - apply Forall_fmap, Forall_fmap, Forall_forall. intros i Hi. simpl.
    apply elem_of_seq in Hi.
    assert (population_size a ≠ 0%nat) as Hpop by (intros ?; apply Hempty; lia).
    pose proof (Nat.mod_upper_bound (rng i) _ Hpop) as Hlt.
    destruct (lookup_lt_is_Some_2 (population_array a)
                (rng i `mod` population_size a)%nat) as [x Hx];
      [by rewrite population_array_length|].
    rewrite Hx. simpl.
    by apply list_elem_of_lookup_2 in Hx.
Qed.

(** An empty population is refused as soon as a sample is asked for. *)
Lemma random_choice_empty a size rng :
  population_size a = 0%nat → size ≠ 0%Z →
  random_choice a size rng = Raise ValueError.
Proof.
  intros Hpop Hsize. unfold random_choice. case_decide; [done|].
  by rewrite decide_True.
Qed.

(** Drawing from the explicit range of a count is drawing from the count. *)
Lemma random_choice_array a size rng :
  random_choice (Indices (population_array a)) size rng
  = random_choice a size rng.
Proof.
  unfold random_choice. simpl. by rewrite population_array_length.
Qed.

(** ** Sampler: [sample] *)

Section sample.
Implicit Types (self : Sampler.t) (stage : nat) (rng : RandomState).

(** The selection given by hand is always drawn over: when [sample]
    returns, it returns what it returns without [idx]. *)
Lemma sample_explicit self stage idx rng r :
  Sampler.sample self stage (Some idx) rng = Ok r →
  Sampler.sample self stage None rng = Ok r.
Proof.
  unfold Sampler.sample.
  destruct (if decide (stage = 0%nat) then _ else _) as [sample_from|];
    [|done].
  simpl.
  replace (match sample_from with
           | Count n => Indices (Z.of_nat <$> seq 0 n)
           | Indices a => Indices a
           end) with (Indices (population_array sample_from))
    by by destruct sample_from.
  destruct (array_getitem _ idx) as [chosen|]; [|done]. simpl.
  unfold Sampler.assign_idxs, list_setitem.
  case_decide as Hstage; [|done]. simpl.
  destruct (list_getitem (Sampler.sizes self) stage) as [size|]; [|done].
  simpl. rewrite random_choice_array.
  destruct (random_choice sample_from size rng) as [[drawn rng']|]; [|done].
  simpl. rewrite length_insert, !decide_True by done. simpl.
  unfold Sampler.set_idxs. simpl. by rewrite list_insert_insert_eq.
Qed.

(** What a call of [sample] that returns has done: tier [stage] of
    [idxs] holds a fresh draw of the size of the tier, nothing else has
    changed, and the draw was taken from the index space of the tier. *)
Lemma sample_Ok self stage idx rng self' rng' :
  Sampler.sample self stage idx rng = Ok (self', rng') →
  ∃ drawn size,
    self' = Sampler.set_idxs self (<[stage := drawn]> (Sampler.idxs self))
    ∧ (stage < length (Sampler.idxs self))%nat
    ∧ Sampler.sizes self !! stage = Some size
    ∧ Z.of_nat (length drawn) = size
    ∧ (stage = 0%nat →
         Forall (λ x, 0 ≤ x < Z.of_nat (memory_len (Sampler.memory self)))%Z
           drawn)
    ∧ (stage ≠ 0%nat →
         ∃ prev,
           Sampler.idxs self !! (stage - 1)%nat = Some prev
           ∧ (Sampler.after_boundary self stage →
                Forall (λ x, 0 ≤ x < Z.of_nat (length prev))%Z drawn)
           ∧ (¬ Sampler.after_boundary self stage →
                Forall (λ x, x ∈ prev) drawn)).
Proof.
  intros Hsample.
  assert (Sampler.sample self stage None rng = Ok (self', rng')) as Hnone.
  { destruct idx; [by apply sample_explicit in Hsample|done]. }
  clear Hsample. revert Hnone. unfold Sampler.sample.
  destruct (if decide (stage = 0%nat) then _ else _) as [sample_from|]
    eqn:Hfrom; [|done].
  simpl. unfold list_getitem.
  destruct (Sampler.sizes self !! stage) as [size|] eqn:Hsize; [|done].
  simpl.
  destruct (random_choice sample_from size rng) as [[drawn rng1]|] eqn:Hdraw;
    [|done].
  simpl. unfold Sampler.assign_idxs, list_setitem.
  destruct (decide (stage < length (Sampler.idxs self))%nat) as [Hstage|];
    simpl; [|done].
  intros [= <- <-].
  apply random_choice_Ok in Hdraw as [Hlen Hin].
  exists drawn, size. split_and!; try done.
  - intros ->. rewrite decide_True in Hfrom by done.
    injection Hfrom as <-.
    eapply Forall_impl; [exact Hin|]. apply population_array_Count.
  - intros Hne. rewrite decide_False in Hfrom by done.
    unfold list_getitem in Hfrom.
    destruct (Sampler.idxs self !! (stage - 1)%nat) as [prev|]; [|by case_decide].
    exists prev. split; [done|]. case_decide as Hafter; simplify_eq/=.
    + split; [|done]. intros _.
      eapply Forall_impl; [exact Hin|]. apply population_array_Count.
    + by split.
Qed.

(** On an empty dataset the first tier cannot be drawn, unless its size
    is zero, in which case the draw is empty. *)
Lemma sample_empty_dataset self rng size :
  memory_len (Sampler.memory self) = 0%nat →
  Sampler.sizes self !! 0%nat = Some size →
  size ≠ 0%Z →
  Sampler.sample self 0 None rng = Raise ValueError.
Proof.
  intros Hlen Hsize Hne. unfold Sampler.sample. simpl.
  unfold list_getitem. rewrite Hsize. simpl.
  by rewrite random_choice_empty by (simpl; done).
Qed.

End sample.

(** ** Sampler: [act] *)

Section act.
Implicit Types (self : Sampler.t) (stage : nat).

Lemma array_getitem_in_range {A : Type} (a : list A) (idx : list Z) :
  Forall (λ i, 0 ≤ i < Z.of_nat (length a))%Z idx →
  ∃ chosen, array_getitem a idx = Ok chosen.
Proof.
  intros Hidx. apply mapM_Ok_exists.
  eapply Forall_impl; [exact Hidx|]. intros i Hi. simpl in *.
  unfold normalize_index. rewrite decide_True by done. simpl.
  unfold list_getitem.
  destruct (lookup_lt_is_Some_2 a (Z.to_nat i)) as [x ->]; [lia|].
  by eexists.
Qed.

Lemma load_into_memory_Ok self stage s1 :
  Sampler.load_into_memory self stage = Ok s1 →
  ∃ idx data chosen,
    Sampler.idxs self !! stage = Some idx
    ∧ memory_getitem (Sampler.memory self) idx = Ok data
    ∧ tensor_getitem (Sampler.rewards self) idx = Ok chosen
    ∧ s1 = Sampler.set_mem_rewards (Sampler.set_mem_data self (Some data))
             (Some chosen).
Proof.
  unfold Sampler.load_into_memory, list_getitem. simpl.
  destruct (Sampler.idxs self !! stage) as [idx|]; [|done]. simpl.
  destruct (memory_getitem _ idx) as [data|] eqn:Hdata; [|done]. simpl.
  destruct (tensor_getitem _ idx) as [chosen|] eqn:Hchosen; [|done]. simpl.
  intros [= <-]. by exists idx, data, chosen.
Qed.

Lemma load_into_memory_eq self stage idx data chosen :
  Sampler.idxs self !! stage = Some idx →
  memory_getitem (Sampler.memory self) idx = Ok data →
  tensor_getitem (Sampler.rewards self) idx = Ok chosen →
  Sampler.load_into_memory self stage
  = Ok (Sampler.set_mem_rewards (Sampler.set_mem_data self (Some data))
          (Some chosen)).
Proof.
  intros Hidx Hdata Hchosen. unfold Sampler.load_into_memory, list_getitem.
  simpl. rewrite Hidx. simpl. rewrite Hdata. simpl. by rewrite Hchosen.
Qed.

Lemma load_into_memory_configuration self stage s1 :
  Sampler.load_into_memory self stage = Ok s1 →
  Sampler.same_configuration self s1.
Proof.
  intros (idx & data & chosen & _ & _ & _ & ->)%load_into_memory_Ok.
  by unfold Sampler.same_configuration.
Qed.

Lemma load_into_gpu_Ok self stage s2 :
  Sampler.load_into_gpu self stage = Ok s2 →
  ∃ data chosen,
    s2 = Sampler.set_gpu_rewards (Sampler.set_gpu_data self data) chosen.
Proof.
  destruct self as [memory rewards sizes mem gpu device idxs md mr gd gr].
  unfold Sampler.load_into_gpu, list_getitem. simpl. case_decide.
  - destruct md as [staged|]; [|done]. simpl.
    destruct (dict_map_recursive_tensor_idx_to staged _ _) as [data|];
      [|done]. simpl.
    destruct mr as [chosen|]; [|done]. simpl.
    intros [= <-]. by eexists _, _.
  - destruct (idxs !! stage) as [idx|]; [|done]. simpl.
    destruct md as [staged|]; [|done]. simpl.
    destruct (dict_map_recursive_tensor_idx_to staged _ _) as [data|];
      [|done]. simpl.
    destruct mr as [resident|]; [|done]. simpl.
    destruct (tensor_getitem resident idx) as [chosen|]; [|done]. simpl.
    intros [= <-]. by eexists _, _.
Qed.

Lemma load_into_gpu_configuration self stage s2 :
  Sampler.load_into_gpu self stage = Ok s2 →
  Sampler.same_configuration self s2.
Proof.
  intros (data & chosen & ->)%load_into_gpu_Ok.
  by unfold Sampler.same_configuration.
Qed.

(** Loading again, with the same indices, stores what is stored. *)
Lemma load_into_memory_again self stage s1 data chosen :
  Sampler.load_into_memory self stage = Ok s1 →
  Sampler.load_into_memory
    (Sampler.set_gpu_rewards (Sampler.set_gpu_data s1 data) chosen) stage
  = Ok (Sampler.set_gpu_rewards (Sampler.set_gpu_data s1 data) chosen).
Proof.
  intros (idx & staged & selected & Hidx & Hdata & Hchosen & ->)
    %load_into_memory_Ok.
  by rewrite (load_into_memory_eq _ _ idx staged selected).
Qed.

Lemma load_into_gpu_again self stage s2 :
  Sampler.load_into_gpu self stage = Ok s2 →
  Sampler.load_into_gpu s2 stage = Ok s2.
Proof.
  destruct self as [memory rewards sizes mem gpu device idxs md mr gd gr].
  unfold Sampler.load_into_gpu, list_getitem. simpl.
  destruct (decide (stage = mem)) as [->|Hmem].
  - destruct md as [staged|]; [|done]. simpl.
    destruct (dict_map_recursive_tensor_idx_to staged None (Some device))
      as [data|] eqn:Hdata; [|done]. simpl.
    destruct mr as [chosen|]; [|done]. simpl.
    intros [= <-]. simpl. rewrite decide_True by done. simpl.
    by rewrite Hdata.
  - destruct (idxs !! stage) as [idx|] eqn:Hidx; [|done]. simpl.
    destruct md as [staged|]; [|done]. simpl.
    destruct (dict_map_recursive_tensor_idx_to staged (Some idx)
                (Some device)) as [data|] eqn:Hdata; [|done]. simpl.
    destruct mr as [resident|]; [|done]. simpl.
    destruct (tensor_getitem resident idx) as [chosen|] eqn:Hchosen; [|done].
    simpl. intros [= <-]. simpl. rewrite decide_False by done.
    rewrite Hidx. simpl. rewrite Hdata. simpl. by rewrite Hchosen.
Qed.

Lemma set_gpu_same self :
  Sampler.set_gpu_rewards
    (Sampler.set_gpu_data self (Sampler.gpu_data self))
    (Sampler.gpu_rewards self)
  = self.
Proof. by destruct self. Qed.

Lemma act_Ok self stage self' out :
  Sampler.act self stage = Ok (self', out) →
  ∃ s1,
    (if decide (stage = Sampler.mem_stage self)
     then Sampler.load_into_memory self stage else Ok self) = Ok s1
    ∧ (if decide (stage = Sampler.gpu_stage s1)
       then Sampler.load_into_gpu s1 stage else Ok s1) = Ok self'
    ∧ Sampler.latest_data self' stage = Ok out.
Proof.
  unfold Sampler.act.
  destruct (if decide (stage = Sampler.mem_stage self) then _ else _)
    as [s1|] eqn:Hs1; [|done]. simpl.
  destruct (if decide (stage = Sampler.gpu_stage s1) then _ else _)
    as [s2|] eqn:Hs2; [|done]. simpl.
  destruct (Sampler.latest_data s2 stage) as [out'|] eqn:Hout; [|done].
  simpl. intros [= <- <-]. by exists s1.
Qed.

Lemma same_configuration_refl self : Sampler.same_configuration self self.
Proof. by unfold Sampler.same_configuration. Qed.

Lemma same_configuration_trans s1 s2 s3 :
  Sampler.same_configuration s1 s2 → Sampler.same_configuration s2 s3 →
  Sampler.same_configuration s1 s3.
Proof.
  unfold Sampler.same_configuration. intros ??.
  destruct_and!. split_and!; congruence.
Qed.

(** [act] changes the caches only. *)
Lemma act_configuration self stage self' out :
  Sampler.act self stage = Ok (self', out) →
  Sampler.same_configuration self self'.
Proof.
  intros (s1 & Hs1 & Hs2 & _)%act_Ok.
  apply same_configuration_trans with s1.
  - destruct (decide (stage = Sampler.mem_stage self)).
    + by eapply load_into_memory_configuration.
    + injection Hs1 as <-. apply same_configuration_refl.
  - destruct (decide (stage = Sampler.gpu_stage s1)).
    + by eapply load_into_gpu_configuration.
    + injection Hs2 as <-. apply same_configuration_refl.
Qed.

(** Calling [act] again re-loads what is loaded and serves the same. *)
Lemma act_again self stage self' out :
  Sampler.act self stage = Ok (self', out) →
  Sampler.act self' stage = Ok (self', out).
Proof.
  intros Hact.
  pose proof (act_configuration _ _ _ _ Hact) as (_ & _ & _ & Hm & Hg & _).
  apply act_Ok in Hact as (s1 & Hs1 & Hs2 & Hout).
  unfold Sampler.act. rewrite Hm.
  assert (Sampler.gpu_stage s1 = Sampler.gpu_stage self) as Hg1.
  { destruct (decide (stage = Sampler.mem_stage self)).
    - by apply load_into_memory_configuration in Hs1 as (_&_&_&_&?&_).
    - by injection Hs1 as <-. }
  rewrite Hg1 in Hs2.
  assert ((if decide (stage = Sampler.mem_stage self)
           then Sampler.load_into_memory self' stage else Ok self')
          = Ok self') as ->.
  { destruct (decide (stage = Sampler.mem_stage self)); [|done].
    destruct (decide (stage = Sampler.gpu_stage self)).
    - apply load_into_gpu_Ok in Hs2 as (data & chosen & ->).
      by eapply load_into_memory_again.
    - injection Hs2 as <-. rewrite <-(set_gpu_same s1).
      by eapply load_into_memory_again. }
  simpl. rewrite Hg.
  assert ((if decide (stage = Sampler.gpu_stage self)
           then Sampler.load_into_gpu self' stage else Ok self')
          = Ok self') as ->.
  { destruct (decide (stage = Sampler.gpu_stage self)); [|done].
    by eapply load_into_gpu_again. }
  simpl. by rewrite Hout.
Qed.

(** Before any tier that loads data, [act] serves the rewards of the
    dataset and no data, and stores nothing. *)
Lemma act_before_loading self stage :
  (stage < Sampler.mem_stage self)%nat →
  (stage < Sampler.gpu_stage self)%nat →
  Sampler.act self stage
  = idx ← list_getitem (Sampler.idxs self) stage;
    chosen ← tensor_getitem (Sampler.rewards self) idx;
    Ok (self, (None, Some chosen)).
Proof.
  intros Hmem Hgpu. unfold Sampler.act.
  rewrite decide_False by lia. simpl. rewrite decide_False by lia. simpl.
  unfold Sampler.latest_data. rewrite !decide_False by lia.
  destruct (list_getitem _ stage) as [idx|]; [|done]. simpl.
  by destruct (tensor_getitem _ idx).
Qed.

Lemma stage_Ok self name idx rng self' rng' out :
  Sampler.stage self name idx rng = Ok (self', rng', out) →
  ∃ stage self1,
    Sampler.stage_dict !! name = Some stage
    ∧ Sampler.sample self stage idx rng = Ok (self1, rng')
    ∧ Sampler.act self1 stage = Ok (self', out).
Proof.
  unfold Sampler.stage, dict_getitem.
  destruct (Sampler.stage_dict !! name) as [stage|]; [|done]. simpl.
  destruct (Sampler.sample self stage idx rng) as [[self1 rng1]|] eqn:Hsample;
    [|done].
  simpl. destruct (Sampler.act self1 stage) as [[self2 out2]|] eqn:Hact;
    [|done].
  simpl. intros [= <- <- <-]. by exists stage, self1.
Qed.

End act.

(** ** Sampler: the statements *)

Section sampler.
Implicit Types (self : Sampler.t) (rng : RandomState).

(** One call of [stage]: the tier it names is redrawn, the other tiers
    and the configuration stay. *)
Lemma stage_step self name (t : nat) idx rng self' rng' out :
  Sampler.stage_dict !! name = Some t →
  Sampler.stage self name idx rng = Ok (self', rng', out) →
  ∃ drawn,
    Sampler.idxs self' = <[t := drawn]> (Sampler.idxs self)
    ∧ (t < length (Sampler.idxs self))%nat
    ∧ Sampler.sizes self !! t = Some (Z.of_nat (length drawn))
    ∧ (t = 0%nat →
         Forall (λ x, 0 ≤ x < Z.of_nat (memory_len (Sampler.memory self)))%Z
           drawn)
    ∧ (t ≠ 0%nat →
         ∃ prev,
           Sampler.idxs self !! (t - 1)%nat = Some prev
           ∧ (Sampler.after_boundary self t →
                Forall (λ x, 0 ≤ x < Z.of_nat (length prev))%Z drawn)
           ∧ (¬ Sampler.after_boundary self t →
                Forall (λ x, x ∈ prev) drawn))
    ∧ Sampler.memory self' = Sampler.memory self
    ∧ Sampler.sizes self' = Sampler.sizes self
    ∧ Sampler.mem_stage self' = Sampler.mem_stage self
    ∧ Sampler.gpu_stage self' = Sampler.gpu_stage self.
Proof.
  intros Ht (t' & self1 & Ht' & Hsample & Hact)%stage_Ok.
  rewrite Ht in Ht'. injection Ht' as <-.
  apply sample_Ok in Hsample
    as (drawn & size & -> & Hlt & Hsize & Hlen & Hfirst & Hnext).
  apply act_configuration in Hact as (Hm & _ & Hs & Hms & Hgs & _ & Hi).
  exists drawn. subst size. simpl in *. by split_and!.
Qed.

(** C1. After [stage('maxbatch')], [stage('batch')] and
    [stage('minibatch')] on a sampler built with sizes [[a, b, c]] over
    [N] records, the three tiers of [idxs] have [a], [b] and [c]
    elements; the first tier lies in [0..N-1]; a later tier that does
    not follow the tier that loads memory or the GPU only holds elements
    of the tier before it; a later tier that follows one holds positions
    [0..len(idxs[t-1])-1] of the tier before it. *)
Theorem staged_indices memory rewards (a b c : Z) mem_stage gpu_stage device
    s0 idx0 idx1 idx2 rng0 s1 rng1 out1 s2 rng2 out2 s3 rng3 out3 :
  Sampler.__init__ memory rewards [a; b; c] mem_stage gpu_stage device = Ok s0 →
  Sampler.stage s0 "maxbatch" idx0 rng0 = Ok (s1, rng1, out1) →
  Sampler.stage s1 "batch" idx1 rng1 = Ok (s2, rng2, out2) →
  Sampler.stage s2 "minibatch" idx2 rng2 = Ok (s3, rng3, out3) →
  ∃ i0 i1 i2,
    Sampler.idxs s3 = [i0; i1; i2]
    ∧ Z.of_nat (length i0) = a
    ∧ Z.of_nat (length i1) = b
    ∧ Z.of_nat (length i2) = c
    ∧ Forall (λ x, 0 ≤ x < Z.of_nat (memory_len memory))%Z i0
    ∧ (¬ Sampler.after_boundary s0 1 → Forall (λ x, x ∈ i0) i1)
    ∧ (Sampler.after_boundary s0 1 →
         Forall (λ x, 0 ≤ x < Z.of_nat (length i0))%Z i1)
    ∧ (¬ Sampler.after_boundary s0 2 → Forall (λ x, x ∈ i1) i2)
    ∧ (Sampler.after_boundary s0 2 →
         Forall (λ x, 0 ≤ x < Z.of_nat (length i1))%Z i2).
Proof.
  intros Hinit H0 H1 H2.
  assert (Sampler.idxs s0 = [[]; []; []] ∧ Sampler.sizes s0 = [a; b; c]
          ∧ Sampler.memory s0 = memory) as (Hi0 & Hs0 & Hm0).
  { revert Hinit. unfold Sampler.__init__.
    destruct (dict_getitem _ mem_stage); [|done]. simpl.
    destruct (dict_getitem _ gpu_stage); [|done]. simpl.
    by intros [= <-]. }
  apply (stage_step _ _ 0%nat) in H0
    as (i0 & Hi1 & _ & Hl0 & Hr0 & _ & Hm1 & Hs1 & Hms1 & Hgs1); [|done].
  apply (stage_step _ _ 1%nat) in H1
    as (i1 & Hi2 & _ & Hl1 & _ & Hn1 & Hm2 & Hs2 & Hms2 & Hgs2); [|done].
  apply (stage_step _ _ 2%nat) in H2
    as (i2 & Hi3 & _ & Hl2 & _ & Hn2 & Hm3 & Hs3 & Hms3 & Hgs3); [|done].
  rewrite Hs2, Hs1, Hs0 in Hl2. rewrite Hs1, Hs0 in Hl1. rewrite Hs0 in Hl0.
  rewrite Hi0 in Hi1. simpl in Hi1. rewrite Hi1 in Hi2, Hn1. simpl in Hi2.
  rewrite Hi2 in Hi3, Hn2. simpl in Hi3.
  destruct Hn1 as (prev1 & Hp1 & Hafter1 & Hnot1); [done|].
  destruct Hn2 as (prev2 & Hp2 & Hafter2 & Hnot2); [done|].
  simpl in *. simplify_eq.
  assert (∀ t, Sampler.after_boundary s1 t ↔ Sampler.after_boundary s0 t) as E1.
  { intros t. unfold Sampler.after_boundary. by rewrite Hms1, Hgs1. }
  assert (∀ t, Sampler.after_boundary s2 t ↔ Sampler.after_boundary s0 t) as E2.
  { intros t. unfold Sampler.after_boundary. by rewrite Hms2, Hgs2, Hms1, Hgs1. }
  exists prev1, prev2, i2. split_and!; try done.
  - apply Hr0. done.
  - intros ?. apply Hnot1. by rewrite E1.
  - intros ?. apply Hafter1. by rewrite E1.
  - intros ?. apply Hnot2. by rewrite E2.
  - intros ?. apply Hafter2. by rewrite E2.
Qed.

(** C3. At a tier below both the tier that loads memory and the tier
    that loads the GPU, [stage] draws the indices first, and the draw
    can raise; once the draw has returned, [stage] returns [None] for
    the data, with no exception, and for the rewards the reward array
    of the dataset at [idxs[t]]; it stores nothing. The reward array
    has a row for each record and the tier before, if any, holds
    indices of records. *)
Theorem stage_before_loading self name (t : nat) idx rng self1 rng1 :
  Sampler.stage_dict !! name = Some t →
  (t < Sampler.mem_stage self)%nat →
  (t < Sampler.gpu_stage self)%nat →
  (memory_len (Sampler.memory self)
   ≤ length (tensor_rows (Sampler.rewards self)))%nat →
  (t ≠ 0%nat →
     ∀ prev, Sampler.idxs self !! (t - 1)%nat = Some prev →
       Forall (λ x, 0 ≤ x < Z.of_nat (memory_len (Sampler.memory self)))%Z
         prev) →
  Sampler.sample self t idx rng = Ok (self1, rng1) →
  ∃ ix chosen,
    Sampler.idxs self1 !! t = Some ix
    ∧ tensor_getitem (Sampler.rewards self) ix = Ok chosen
    ∧ Sampler.stage self name idx rng = Ok (self1, rng1, (None, Some chosen)).
Proof.
  intros Ht Hmem Hgpu Hrows Hprev Hsample.
  pose proof Hsample as
    (drawn & size & -> & Hlt & Hsize & Hlen & Hfirst & Hnext)%sample_Ok.
  assert (Forall (λ x, 0 ≤ x
            < Z.of_nat (length (tensor_rows (Sampler.rewards self))))%Z
            drawn) as Hvalid.
  { destruct (decide (t = 0%nat)) as [->|Hne].
    - eapply Forall_impl; [by apply Hfirst|]. simpl. lia.
    - destruct (Hnext Hne) as (prev & Hp & _ & Hin).
      assert (¬ Sampler.after_boundary self t) as Hnot
        by (unfold Sampler.after_boundary; lia).
      apply Forall_forall. intros x Hx.
      pose proof (Hprev Hne prev Hp) as Hrange.
      rewrite Forall_forall in Hrange.
      specialize (Hin Hnot). rewrite Forall_forall in Hin.
      specialize (Hrange x (Hin x Hx)). simpl in Hrange. lia. }
  destruct (array_getitem_in_range _ _ Hvalid) as [rows Hrows'].
  exists drawn, {| tensor_device := tensor_device (Sampler.rewards self);
                   tensor_rows := rows |}.
  assert (tensor_getitem (Sampler.rewards self) drawn
          = Ok {| tensor_device := tensor_device (Sampler.rewards self);
                  tensor_rows := rows |}) as Hchosen
    by (unfold tensor_getitem; by rewrite Hrows').
  split_and!.
  - simpl. by apply list_lookup_insert_eq.
  - done.
  - unfold Sampler.stage, dict_getitem. rewrite Ht. simpl.
    rewrite Hsample. simpl. rewrite act_before_loading by done.
    unfold list_getitem. simpl.
    rewrite list_lookup_insert_eq by done. simpl. by rewrite Hchosen.
Qed.

(** C4. When one tier loads both memory and the GPU, [act] at that tier
    returns the rows [idxs[tier]] of the dataset, selected once and
    moved to the device; the memory cache holds the selected rows and
    rewards, the GPU cache the same rows and rewards on the device. *)
Theorem act_single_copy self (t : nat) ix data chosen :
  Sampler.mem_stage self = t →
  Sampler.gpu_stage self = t →
  Sampler.idxs self !! t = Some ix →
  memory_getitem (Sampler.memory self) ix = Ok data →
  tensor_getitem (Sampler.rewards self) ix = Ok chosen →
  let moved := dict_to (Sampler.device self) data in
  let moved_rewards := tensor_to chosen (Sampler.device self) in
  Sampler.act self t
  = Ok (Sampler.set_gpu_rewards
          (Sampler.set_gpu_data
             (Sampler.set_mem_rewards
                (Sampler.set_mem_data self (Some data)) (Some chosen))
             (Some moved))
          (Some moved_rewards),
        (Some moved, Some moved_rewards)).
Proof.
  intros Hmem Hgpu Hix Hdata Hchosen moved moved_rewards.
  unfold Sampler.act. rewrite decide_True by done.
  rewrite (load_into_memory_eq _ _ ix data chosen) by done. simpl.
  rewrite decide_True by done.
  unfold Sampler.load_into_gpu. simpl. rewrite decide_True by done.
  rewrite dict_map_recursive_tensor_to. simpl.
  unfold Sampler.latest_data. simpl.
  rewrite decide_True by lia. by rewrite decide_True by done.
Qed.

(** C7. When [act] has returned at a tier, calling it again at that
    tier, with no [sample] in between, returns the same data and
    rewards and leaves the sampler as it is. *)
Theorem act_twice self (t : nat) self1 out :
  Sampler.act self t = Ok (self1, out) →
  Sampler.act self1 t = Ok (self1, out).
Proof. apply act_again. Qed.

(** C2. The selection given by hand does not survive: on five
    records, [sample(0, idx=[4, 4, 4])] selects [[4, 4, 4]] and then
    draws over it; with a generator that yields zeros the tier holds
    [[0, 0, 0]]. *)
Theorem explicit_idx_drawn_over :
  array_getitem (population_array (Count 5)) [4; 4; 4]%Z = Ok [4; 4; 4]%Z
  ∧ ∃ self1 rng1,
      Sampler.sample five_sampler 0 (Some [4; 4; 4]%Z) zero_rng
      = Ok (self1, rng1)
      ∧ Sampler.idxs self1 !! 0%nat = Some [0; 0; 0]%Z.
Proof.
  split; [done|]. eexists _, _. split; [vm_compute; reflexivity|done].
Qed.

(** C10, as amended. On an empty dataset, when the size of the first
    tier is not zero, the draw of [stage('maxbatch')] raises
    [ValueError]. *)
Theorem empty_dataset_draw_raises self rng (size : Z) :
  memory_len (Sampler.memory self) = 0%nat →
  Sampler.sizes self !! 0%nat = Some size →
  size ≠ 0%Z →
  Sampler.sample self 0 None rng = Raise ValueError
  ∧ Sampler.stage self "maxbatch" None rng = Raise ValueError.
Proof.
  intros Hlen Hsize Hne.
  pose proof (sample_empty_dataset self rng size Hlen Hsize Hne) as Hsample.
  split; [done|].
  unfold Sampler.stage.
  change (dict_getitem Sampler.stage_dict "maxbatch") with (@Ok nat 0%nat).
  simpl. by rewrite Hsample.
Qed.

End sampler.

(** With memory and GPU loaded at one tier over a dictionary of tensors,
    what [act] returns is what one pass that selects and moves returns. *)
Lemma tree_memory_single_copy n contents ix data device :
  memory_getitem (tree_memory n contents) ix = Ok data →
  dict_map_recursive_tensor_idx_to contents (Some ix) (Some device)
  = Ok (dict_to device data).
Proof. apply dict_map_recursive_tensor_idx_then_to. Qed.

(** C10, as stated, fails when the size of the first tier is zero: the
    draw returns an empty selection and [stage('maxbatch')] returns. *)
Lemma empty_dataset_zero_size :
  memory_len (Sampler.memory (empty_sampler [0; 0; 0]%Z)) = 0%nat
  ∧ Sampler.__init__ (tree_memory 0 []) empty_rewards [0; 0; 0]%Z
      "minibatch" "minibatch" (cuda 0)
    = Ok (empty_sampler [0; 0; 0]%Z)
  ∧ ∃ rng1,
      Sampler.stage (empty_sampler [0; 0; 0]%Z) "maxbatch" None zero_rng
      = Ok (empty_sampler [0; 0; 0]%Z, rng1, (None, Some empty_rewards)).
Proof.
  split_and!; [done|vm_compute; reflexivity|].
  eexists. vm_compute. reflexivity.
Qed.

Lemma empty_dataset_draw_raises_witness :
  Sampler.sample (empty_sampler [3; 2; 1]%Z) 0 None stride_rng
  = Raise ValueError
  ∧ Sampler.stage (empty_sampler [3; 2; 1]%Z) "maxbatch" None stride_rng
    = Raise ValueError.
Proof.
  apply (empty_dataset_draw_raises (empty_sampler [3; 2; 1]%Z) stride_rng 3%Z);
    [reflexivity|reflexivity|lia].
Defined.

Lemma staged_indices_witness :
  ∃ s3 i0 i1 i2,
    Sampler.idxs s3 = [i0; i1; i2]
    ∧ Z.of_nat (length i0) = 3%Z
    ∧ Z.of_nat (length i1) = 2%Z
    ∧ Z.of_nat (length i2) = 1%Z
    ∧ Forall (λ x, 0 ≤ x < Z.of_nat (memory_len (tree_memory 5 five_contents)))%Z
        i0
    ∧ (¬ Sampler.after_boundary five_sampler 1 → Forall (λ x, x ∈ i0) i1)
    ∧ (Sampler.after_boundary five_sampler 1 →
         Forall (λ x, 0 ≤ x < Z.of_nat (length i0))%Z i1)
    ∧ (¬ Sampler.after_boundary five_sampler 2 → Forall (λ x, x ∈ i1) i2)
    ∧ (Sampler.after_boundary five_sampler 2 →
         Forall (λ x, 0 ≤ x < Z.of_nat (length i1))%Z i2).
Proof.
  eexists.
  eapply (staged_indices (tree_memory 5 five_contents) five_rewards 3 2 1
            "maxbatch" "batch" (cuda 0) five_sampler None None None stride_rng);
    vm_compute; reflexivity.
Defined.

Lemma stage_before_loading_witness :
  ∃ self1 rng1 ix chosen,
    Sampler.idxs self1 !! 1%nat = Some ix
    ∧ tensor_getitem (Sampler.rewards late_sampler_drawn) ix = Ok chosen
    ∧ Sampler.stage late_sampler_drawn "batch" None stride_rng
      = Ok (self1, rng1, (None, Some chosen)).
Proof.
  eexists _, _.
  eapply (stage_before_loading late_sampler_drawn "batch" 1 None stride_rng).
  - reflexivity.
  - simpl. lia.
  - simpl. lia.
  - simpl. lia.
  - intros _ prev [= <-]. repeat constructor; simpl; lia.
  - vm_compute. reflexivity.
Defined.

(** [stage('batch')] on a sampler fresh from [__init__] that loads
    memory and the GPU at [minibatch]: tier 1 is below both, and the
    draw from the empty first tier raises [ValueError]. *)
Lemma stage_before_loading_raises :
  Sampler.stage_dict !! "batch" = Some 1%nat
  ∧ (1 < Sampler.mem_stage late_sampler)%nat
  ∧ (1 < Sampler.gpu_stage late_sampler)%nat
  ∧ Sampler.stage late_sampler "batch" None stride_rng = Raise ValueError.
Proof. split_and!; [reflexivity|simpl; lia|simpl; lia|by vm_compute]. Qed.

Lemma act_single_copy_witness :
  ∃ data chosen,
    Sampler.idxs joint_sampler !! 0%nat = Some [4; 0; 4]%Z
    ∧ memory_getitem (Sampler.memory joint_sampler) [4; 0; 4]%Z = Ok data
    ∧ tensor_getitem (Sampler.rewards joint_sampler) [4; 0; 4]%Z = Ok chosen
    ∧ Sampler.act joint_sampler 0
      = Ok (Sampler.set_gpu_rewards
              (Sampler.set_gpu_data
                 (Sampler.set_mem_rewards
                    (Sampler.set_mem_data joint_sampler (Some data))
                    (Some chosen))
                 (Some (dict_to (cuda 0) data)))
              (Some (tensor_to chosen (cuda 0))),
            (Some (dict_to (cuda 0) data), Some (tensor_to chosen (cuda 0)))).
Proof.
  assert (∃ data, memory_getitem (Sampler.memory joint_sampler) [4; 0; 4]%Z
                  = Ok data) as [data Hdata]
    by (eexists; vm_compute; reflexivity).
  assert (∃ chosen, tensor_getitem (Sampler.rewards joint_sampler) [4; 0; 4]%Z
                    = Ok chosen) as [chosen Hchosen]
    by (eexists; vm_compute; reflexivity).
  exists data, chosen. split_and!; [reflexivity|exact Hdata|exact Hchosen|].
  exact (act_single_copy joint_sampler 0 [4; 0; 4]%Z data chosen
           eq_refl eq_refl eq_refl Hdata Hchosen).
Defined.

Lemma act_twice_witness :
  ∃ self1 out,
    Sampler.act joint_sampler 0 = Ok (self1, out)
    ∧ Sampler.act self1 0 = Ok (self1, out).
Proof.
  assert (∃ self1 out, Sampler.act joint_sampler 0 = Ok (self1, out))
    as (self1 & out & Hact) by (eexists _, _; vm_compute; reflexivity).
  exists self1, out. split; [exact Hact|].
  exact (act_twice joint_sampler 0 self1 out Hact).
Defined.

(** ** More on indexing and moving trees of tensors *)

Lemma mapM_Ok_Forall2 {A B : Type} (f : A → result B) l (k : list B) :
  mapM f l = Ok k ↔ Forall2 (λ x y, f x = Ok y) l k.
Proof.
  split.
  - revert k. induction l as [|x l IH]; intros k; simpl.
    + intros [= <-]. constructor.
    + destruct (f x) as [y|] eqn:Hy; [|done]. simpl.
      destruct (mapM f l) as [k'|]; [|done]. simpl.
      intros [= <-]. constructor; [done|by apply IH].
  - induction 1 as [|x y l k Hy _ IH]; [done|].
    simpl. rewrite Hy. simpl. by rewrite IH.
Qed.

Lemma list_getitem_Some {A : Type} (l : list A) i x :
  l !! i = Some x → list_getitem l i = Ok x.
Proof. unfold list_getitem. by intros ->. Qed.

Lemma normalize_index_Ok n i j :
  normalize_index n i = Ok j → index_in_range n i ∧ (j < n)%nat.
Proof.
  unfold normalize_index, index_in_range.
  repeat case_decide; intros [= <-]; lia.
Qed.

Lemma normalize_index_in_range n i :
  index_in_range n i → ∃ j, normalize_index n i = Ok j ∧ (j < n)%nat.
Proof.
  unfold normalize_index, index_in_range. intros Hi.
  repeat case_decide; try lia; eexists; (split; [done|lia]).
Qed.

Lemma normalize_index_Raise n i e :
  normalize_index n i = Raise e → e = IndexError ∧ ¬ index_in_range n i.
Proof.
  unfold normalize_index, index_in_range.
  repeat case_decide; intros [= <-]; split; [done|lia].
Qed.

(** One row: [a[i]] is defined exactly for the indices in range. *)
Lemma row_in_range {A : Type} (a : list A) i :
  index_in_range (length a) i →
  ∃ x, (j ← normalize_index (length a) i; list_getitem a j) = Ok x.
Proof.
  intros (j & -> & Hj)%normalize_index_in_range. simpl.
  unfold list_getitem.
  destruct (lookup_lt_is_Some_2 a j Hj) as [x ->]. by eexists.
Qed.

Lemma row_Raise {A : Type} (a : list A) i e :
  (j ← normalize_index (length a) i; list_getitem a j) = Raise e →
  e = IndexError ∧ ¬ index_in_range (length a) i.
Proof.
  destruct (normalize_index (length a) i) as [j|e'] eqn:Hj; simpl.
  - apply normalize_index_Ok in Hj as [_ Hj].
    unfold list_getitem.
    by destruct (lookup_lt_is_Some_2 a j Hj) as [x ->].
  - intros [= <-]. by apply normalize_index_Raise in Hj.
Qed.

Lemma array_getitem_length {A : Type} (a : list A) idx chosen :
  array_getitem a idx = Ok chosen → length chosen = length idx.
Proof. apply mapM_Ok_length. Qed.

Lemma mapM_Raise {A B : Type} (f : A → result B) l e :
  mapM f l = Raise e → ∃ x, x ∈ l ∧ f x = Raise e.
Proof.
  induction l as [|x l IH]; simpl; [done|].
  destruct (f x) as [y|e'] eqn:Hy; simpl.
  - destruct (mapM f l) as [k|e']; simpl; [done|].
    intros [= <-]. destruct IH as (x' & Hx' & Hf); [done|].
    exists x'. split; [by right|done].
  - intros [= <-]. exists x. split; [left|done].
Qed.

Lemma array_getitem_Ok_iff {A : Type} (a : list A) idx :
  (∃ chosen, array_getitem a idx = Ok chosen)
  ↔ Forall (index_in_range (length a)) idx.
Proof.
  split.
  - intros [chosen Hchosen]. apply mapM_Ok_Forall2 in Hchosen.
    induction Hchosen as [|i x idx chosen Hx _ IH]; constructor; [|done].
    destruct (normalize_index (length a) i) as [j|] eqn:Hj; [|done].
    by apply normalize_index_Ok in Hj as [? _].
  - intros Hidx. apply mapM_Ok_exists.
    eapply Forall_impl; [exact Hidx|]. intros i Hi. by apply row_in_range.
Qed.

Lemma array_getitem_Raise {A : Type} (a : list A) idx e :
  array_getitem a idx = Raise e →
  e = IndexError ∧ Exists (λ i, ¬ index_in_range (length a) i) idx.
Proof.
  intros (i & Hi & Hraise)%mapM_Raise.
  apply row_Raise in Hraise as [-> Hout]. split; [done|].
  apply Exists_exists. by exists i.
Qed.

(** Selecting from a selection is selecting by the composed indices. *)
Lemma array_getitem_compose {A : Type} (a b : list A) i1 i2 i12 :
  array_getitem a i1 = Ok b →
  array_getitem i1 i2 = Ok i12 →
  array_getitem b i2 = array_getitem a i12.
Proof.
  intros Hb H12.
  pose proof (array_getitem_length _ _ _ Hb) as Hlen.
  apply mapM_Ok_Forall2 in Hb.
  assert (∃ c, array_getitem b i2 = Ok c ∧ array_getitem a i12 = Ok c)
    as (c & -> & ->); [|done].
  apply mapM_Ok_Forall2 in H12. unfold array_getitem.
  induction H12 as [|i x i2 i12 Hx _ (c & IH2 & IH12)]; [by exists []|].
  destruct (normalize_index (length i1) i) as [j|] eqn:Hj; [|done].
  simpl in Hx. unfold list_getitem in Hx.
  destruct (i1 !! j) as [x'|] eqn:Hx'; [|done]. injection Hx as ->.
  destruct (Forall2_lookup_l _ _ _ _ _ Hb Hx') as (y & Hy & Hfy).
  assert (normalize_index (length b) i = Ok j) as Hj' by by rewrite Hlen.
  exists (y :: c). split.
  - simpl. rewrite Hj'. simpl. rewrite (list_getitem_Some _ _ _ Hy).
    simpl. by rewrite IH2.
  - simpl. rewrite Hfy. simpl. by rewrite IH12.
Qed.

Lemma mapM_app {A B : Type} (f : A → result B) l1 l2 :
  mapM f (l1 ++ l2)
  = k1 ← mapM f l1; k2 ← mapM f l2; Ok (k1 ++ k2).
Proof.
  induction l1 as [|x l1 IH]; simpl.
  - by destruct (mapM f l2).
  - destruct (f x) as [y|]; [|done]. simpl. rewrite IH.
    destruct (mapM f l1) as [k1|]; [|done]. simpl.
    by destruct (mapM f l2).
Qed.

Lemma mapM_Forall2_eq {A A' B : Type} (g : A' → result B) (h : A → result B)
    (l : list A) (l' : list A') :
  Forall2 (λ x x', g x' = h x) l l' → mapM g l' = mapM h l.
Proof.
  induction 1 as [|x x' l l' Hx _ IH]; [done|].
  simpl. by rewrite Hx, IH.
Qed.

Lemma Forall2_bind_leaves {P : Tensor Row → Tensor Row → Prop}
    (members members' : list Tree) :
  Forall2 (λ x y, Forall2 P (leaves x) (leaves y)) members members' →
  Forall2 P (members ≫= leaves) (members' ≫= leaves).
Proof.
  induction 1 as [|x y l k Hxy _ IH]; [constructor|].
  rewrite !bind_cons. by apply Forall2_app.
Qed.

(** A traversal keeps the shape of the tree and applies the function to
    the leaves, in order. *)
Lemma recursive_tensor_func_Ok func x y :
  recursive_tensor_func x func = Ok y →
  shape y = shape x ∧ Forall2 (λ t t', func t = Ok t') (leaves x) (leaves y).
Proof.
  revert y. induction x as [x|members IH] using Tree_nested_ind; intros y.
  - simpl. destruct (func x) as [x'|] eqn:Hx; [|done]. simpl.
    intros [= <-]. split; [done|]. simpl. by constructor.
  - simpl.
    destruct (mapM _ members) as [members'|] eqn:Hm; [|done]. simpl.
    intros [= <-]. apply mapM_Ok_Forall2 in Hm.
    assert (Forall2 (λ x y, shape y = shape x
              ∧ Forall2 (λ t t', func t = Ok t') (leaves x) (leaves y))
              members members') as Hall.
    { clear -IH Hm. induction Hm as [|x y l k Hxy _ IHm]; [constructor|].
      apply Forall_cons in IH as [Hx IH]. constructor; [by apply Hx|by apply IHm]. }
    split.
    + simpl. f_equal. clear -Hall.
      induction Hall as [|x y l k [Hs _] _ IHs]; [done|].
      rewrite !fmap_cons. by rewrite Hs, IHs.
    + simpl. apply Forall2_bind_leaves.
      eapply Forall2_impl; [exact Hall|]. by intros ?? [_ ?].
Qed.

(** A traversal raises what the function raises at some leaf. *)
Lemma recursive_tensor_func_Raise func x e :
  recursive_tensor_func x func = Raise e →
  ∃ t, t ∈ leaves x ∧ func t = Raise e.
Proof.
  induction x as [x|members IH] using Tree_nested_ind.
  - simpl. destruct (func x) as [x'|e'] eqn:Hx; [done|]. simpl.
    intros [= <-]. exists x. split; [left|done].
  - simpl.
    destruct (mapM _ members) as [members'|e'] eqn:Hm; [done|]. simpl.
    intros [= <-]. apply mapM_Raise in Hm as (member & Hin & Hraise).
    rewrite Forall_forall in IH.
    destruct (IH member Hin Hraise) as (t & Ht & Hf).
    exists t. split; [|done]. apply list_elem_of_bind. by exists member.
Qed.

Lemma recursive_tensor_func_id x :
  recursive_tensor_func x (subfunc None None) = Ok x.
Proof.
  induction x as [x|members IH] using Tree_nested_ind; [done|].
  simpl. rewrite (mapM_Ok_fmap _ id) by done. simpl. by rewrite list_fmap_id.
Qed.

Lemma tensor_getitem_compose {A : Type} (x x1 : Tensor A) i1 i2 i12 :
  tensor_getitem x i1 = Ok x1 →
  array_getitem i1 i2 = Ok i12 →
  tensor_getitem x1 i2 = tensor_getitem x i12.
Proof.
  unfold tensor_getitem.
  destruct (array_getitem (tensor_rows x) i1) as [b|] eqn:Hb; [|done]. simpl.
  intros [= <-] H12. simpl.
  by rewrite (array_getitem_compose _ _ _ _ _ Hb H12).
Qed.

Lemma subfunc_compose i1 i2 i12 device1 device2 x x1 :
  subfunc (Some i1) device1 x = Ok x1 →
  array_getitem i1 i2 = Ok i12 →
  subfunc (Some i2) device2 x1
  = subfunc (Some i12)
      (match device2 with Some d => Some d | None => device1 end) x.
Proof.
  unfold subfunc, tensor_getitem.
  destruct (array_getitem (tensor_rows x) i1) as [b|] eqn:Hb; [|done]. simpl.
  intros [= <-] H12.
  assert (array_getitem
            (tensor_rows match device1 with
                         | Some device =>
                             tensor_to {| tensor_device := tensor_device x;
                                          tensor_rows := b |} device
                         | None => {| tensor_device := tensor_device x;
                                      tensor_rows := b |}
                         end) i2
          = array_getitem (tensor_rows x) i12) as ->.
  { rewrite <-(array_getitem_compose _ _ _ _ _ Hb H12). by destruct device1. }
  destruct (array_getitem (tensor_rows x) i12) as [c|]; [|done]. simpl.
  by destruct device1, device2.
Qed.

Lemma recursive_tensor_func_compose i1 i2 i12 device1 device2 x x1 :
  recursive_tensor_func x (subfunc (Some i1) device1) = Ok x1 →
  array_getitem i1 i2 = Ok i12 →
  recursive_tensor_func x1 (subfunc (Some i2) device2)
  = recursive_tensor_func x
      (subfunc (Some i12)
         (match device2 with Some d => Some d | None => device1 end)).
Proof.
  intros Hx1 H12. revert x1 Hx1.
  induction x as [x|members IH] using Tree_nested_ind; intros x1.
  - simpl.
    destruct (subfunc (Some i1) device1 x) as [t1|] eqn:Ht1; [|done]. simpl.
    intros [= <-]. simpl.
    by rewrite (subfunc_compose _ _ _ _ _ _ _ Ht1 H12).
  - simpl.
    destruct (mapM _ members) as [members1|] eqn:Hm; [|done]. simpl.
    intros [= <-]. simpl. f_equal. apply mapM_Forall2_eq.
    apply mapM_Ok_Forall2 in Hm. clear -IH Hm.
    induction Hm as [|x y l k Hxy _ IHm]; [constructor|].
    apply Forall_cons in IH as [Hx IH]. constructor; [by apply Hx|by apply IHm].
Qed.

(** ** [dict_map_recursive_tensor_idx_to] *)

Lemma dict_map_recursive_tensor_idx_to_Ok dict idx device mapped :
  dict_map_recursive_tensor_idx_to dict idx device = Ok mapped
  ↔ Forall2 (λ kv kv',
       kv'.1 = kv.1
       ∧ recursive_tensor_func kv.2 (subfunc idx device) = Ok kv'.2)
      dict mapped.
Proof.
  unfold dict_map_recursive_tensor_idx_to, dict_map.
  destruct (mapM _ dict) as [mapped'|e] eqn:Hm; simpl.
  - apply mapM_Ok_Forall2 in Hm.
    assert (Forall2 (λ kv kv',
              kv'.1 = kv.1
              ∧ recursive_tensor_func kv.2 (subfunc idx device) = Ok kv'.2)
              dict mapped') as Hall.
    { eapply Forall2_impl; [exact Hm|]. intros [k x] [k' y]. simpl.
      destruct (recursive_tensor_func x _); [|done]. simpl. by intros [= <- <-]. }
    split; [by intros [= <-]|]. intros Hall'. f_equal.
    clear Hm. revert mapped Hall'.
    induction Hall as [|[k x] [k1 y1] l l1 [Hk Hy] _ IH]; intros mapped Hall'.
    + by apply Forall2_nil_inv_l in Hall'.
    + apply Forall2_cons_inv_l in Hall'
        as ([k2 y2] & l2 & [Hk2 Hy2] & Hl2 & ->).
      simpl in *. rewrite Hy in Hy2. injection Hy2 as <-. subst.
      f_equal. by apply IH.
  - split; [done|]. intros Hall. exfalso.
    assert (∃ k, mapM (λ kv, v ← recursive_tensor_func kv.2 (subfunc idx device);
                             Ok (kv.1, v)) dict = Ok k) as [k Hk];
      [|by rewrite Hk in Hm].
    apply mapM_Ok_exists. clear Hm.
    induction Hall as [|[k x] [k1 y1] l l1 [Hk Hy] _ IH]; constructor;
      [|done].
    simpl in *. rewrite Hy. by eexists.
Qed.

Lemma dict_map_recursive_tensor_idx_to_Raise dict idx device e :
  dict_map_recursive_tensor_idx_to dict idx device = Raise e →
  ∃ t, t ∈ dict_leaves dict ∧ subfunc idx device t = Raise e.
Proof.
  unfold dict_map_recursive_tensor_idx_to, dict_map.
  destruct (mapM _ dict) as [mapped'|e'] eqn:Hm; simpl; [done|].
  intros [= <-]. apply mapM_Raise in Hm as ([k x] & Hin & Hraise).
  simpl in Hraise.
  destruct (recursive_tensor_func x _) as [y|e2] eqn:Hx; [done|].
  injection Hraise as ->.
  apply recursive_tensor_func_Raise in Hx as (t & Ht & Hf).
  exists t. split; [|done]. unfold dict_leaves.
  apply list_elem_of_bind. exists x. split; [done|].
  apply list_elem_of_fmap. by exists (k, x).
Qed.

Lemma subfunc_Ok idx device x y :
  subfunc idx device x = Ok y → selected_and_moved idx device x y.
Proof.
  unfold subfunc, selected_and_moved, tensor_getitem.
  destruct idx as [idx|]; simpl.
  - destruct (array_getitem (tensor_rows x) idx) as [chosen|]; [|done].
    simpl. intros [= <-]. by destruct device.
  - intros [= <-]. by destruct device.
Qed.

Lemma subfunc_Ok_iff idx device x :
  (∃ y, subfunc (Some idx) device x = Ok y)
  ↔ Forall (index_in_range (length (tensor_rows x))) idx.
Proof.
  rewrite <-array_getitem_Ok_iff. unfold subfunc, tensor_getitem.
  destruct (array_getitem (tensor_rows x) idx) as [chosen|]; simpl.
  - split; eauto.
  - split; by intros [? ?].
Qed.

Lemma subfunc_Raise idx device x e :
  subfunc idx device x = Raise e → e = IndexError.
Proof.
  unfold subfunc, tensor_getitem. destruct idx as [idx|]; [|done]. simpl.
  destruct (array_getitem (tensor_rows x) idx) as [chosen|e'] eqn:Ha; [done|].
  simpl. intros [= <-]. by apply array_getitem_Raise in Ha as [-> _].
Qed.

Lemma dict_map_recursive_tensor_idx_to_leaves dict idx device mapped :
  dict_map_recursive_tensor_idx_to dict idx device = Ok mapped →
  dict_shape mapped = dict_shape dict
  ∧ Forall2 (selected_and_moved idx device)
      (dict_leaves dict) (dict_leaves mapped).
Proof.
  intros Hall%dict_map_recursive_tensor_idx_to_Ok. unfold dict_shape, dict_leaves.
  induction Hall as [|[k x] [k' y] l l' [Hk Hy] _ [IHs IHl]]; [by split|].
  simpl in Hk, Hy. subst k'.
  apply recursive_tensor_func_Ok in Hy as [Hshape Hleaves].
  rewrite !fmap_cons, !bind_cons. simpl. split.
  - by rewrite Hshape, IHs.
  - apply Forall2_app; [|done].
    eapply Forall2_impl; [exact Hleaves|]. intros ??. apply subfunc_Ok.
Qed.

(** X1. When [dict_map_recursive_tensor_idx_to] returns, the result has
    the keys of the argument, in the same order, each value nested as it
    was; its leaf tensors are, one for one and in order, the leaves of
    the argument with the rows [idx] selected (all rows when [idx] is
    [None]) on [device] (where they were when [device] is [None]). *)
Theorem dict_map_recursive_tensor_idx_to_structure dict idx device mapped :
  dict_map_recursive_tensor_idx_to dict idx device = Ok mapped →
  dict_shape mapped = dict_shape dict
  ∧ Forall2 (selected_and_moved idx device)
      (dict_leaves dict) (dict_leaves mapped).
Proof. apply dict_map_recursive_tensor_idx_to_leaves. Qed.

(** X2. With neither an index nor a device,
    [dict_map_recursive_tensor_idx_to] returns its argument and cannot
    raise. *)
Theorem dict_map_recursive_tensor_idx_to_nothing dict :
  dict_map_recursive_tensor_idx_to dict None None = Ok dict.
Proof.
  apply dict_map_recursive_tensor_idx_to_Ok.
  induction dict as [|[k x] dict IH]; constructor; [|done].
  split; [done|]. apply recursive_tensor_func_id.
Qed.

Lemma dict_map_recursive_tensor_idx_to_total dict idx device :
  Forall (λ x, Forall (index_in_range (length (tensor_rows x))) idx)
    (dict_leaves dict) →
  ∃ mapped, dict_map_recursive_tensor_idx_to dict (Some idx) device = Ok mapped.
Proof.
  intros Hall.
  destruct (dict_map_recursive_tensor_idx_to dict (Some idx) device)
    as [mapped|e] eqn:Hm; [by eexists|].
  apply dict_map_recursive_tensor_idx_to_Raise in Hm as (t & Ht & Hraise).
  rewrite Forall_forall in Hall. specialize (Hall t Ht).
  apply (subfunc_Ok_iff idx device) in Hall as [y Hy]. by rewrite Hy in Hraise.
Qed.

(** X3. [dict_map_recursive_tensor_idx_to] with an index array returns
    exactly when every index is in range ([-n <= i < n]) for every leaf
    tensor ([n] its number of rows); otherwise it raises, and what it
    raises is [IndexError]. *)
Theorem dict_map_recursive_tensor_idx_to_bounds dict idx device :
  ((∃ mapped, dict_map_recursive_tensor_idx_to dict (Some idx) device = Ok mapped)
   ↔ Forall (λ x, Forall (index_in_range (length (tensor_rows x))) idx)
       (dict_leaves dict))
  ∧ ∀ e, dict_map_recursive_tensor_idx_to dict (Some idx) device = Raise e →
      e = IndexError.
Proof.
  split; [|by intros e (t & _ & ->%subfunc_Raise)
                        %dict_map_recursive_tensor_idx_to_Raise].
  split.
  - intros [mapped [_ Hl]%dict_map_recursive_tensor_idx_to_leaves].
    apply Forall_forall. intros x Hx.
    apply list_elem_of_lookup_1 in Hx as [n Hn].
    destruct (Forall2_lookup_l _ _ _ _ _ Hl Hn) as (y & _ & Hy & _).
    apply array_getitem_Ok_iff. by eexists.
  - apply dict_map_recursive_tensor_idx_to_total.
Qed.

Lemma dict_map_recursive_tensor_idx_to_composed dict i1 i2 i12
    device1 device2 dict1 :
  dict_map_recursive_tensor_idx_to dict (Some i1) device1 = Ok dict1 →
  array_getitem i1 i2 = Ok i12 →
  dict_map_recursive_tensor_idx_to dict1 (Some i2) device2
  = dict_map_recursive_tensor_idx_to dict (Some i12)
      (match device2 with Some d => Some d | None => device1 end).
Proof.
  intros Hall%dict_map_recursive_tensor_idx_to_Ok H12.
  unfold dict_map_recursive_tensor_idx_to, dict_map.
  assert (mapM (λ kv, v ← recursive_tensor_func kv.2 (subfunc (Some i2) device2);
                      Ok (kv.1, v)) dict1
          = mapM (λ kv, v ← recursive_tensor_func kv.2
                              (subfunc (Some i12)
                                 (match device2 with
                                  | Some d => Some d
                                  | None => device1
                                  end));
                        Ok (kv.1, v)) dict) as ->;
    [|by destruct (mapM _ dict)].
  apply mapM_Forall2_eq.
  eapply Forall2_impl; [exact Hall|]. intros [k x] [k1 x1] [Hk Hx]. simpl in *.
  subst k1. by rewrite (recursive_tensor_func_compose _ _ _ _ _ _ _ Hx H12).
Qed.

(** X4. Selecting rows [i2] from a selection of rows [i1] is selecting
    the rows [i1[i2]] from the start: with [i1[i2]] defined, the second
    call returns, or raises, what the call with the composed index
    does. *)
Theorem dict_map_recursive_tensor_idx_to_compose dict i1 i2 i12 device dict1 :
  dict_map_recursive_tensor_idx_to dict (Some i1) None = Ok dict1 →
  array_getitem i1 i2 = Ok i12 →
  dict_map_recursive_tensor_idx_to dict1 (Some i2) device
  = dict_map_recursive_tensor_idx_to dict (Some i12) device.
Proof.
  intros Hdict1 H12.
  rewrite (dict_map_recursive_tensor_idx_to_composed _ _ _ _ _ _ _ Hdict1 H12).
  by destruct device.
Qed.

Lemma dict_map_recursive_tensor_idx_to_structure_witness :
  ∃ mapped,
    dict_map_recursive_tensor_idx_to five_contents (Some [4; 0; -1]%Z)
      (Some (cuda 0)) = Ok mapped
    ∧ dict_shape mapped = dict_shape five_contents
    ∧ Forall2 (selected_and_moved (Some [4; 0; -1]%Z) (Some (cuda 0)))
        (dict_leaves five_contents) (dict_leaves mapped).
Proof.
  assert (∃ mapped,
            dict_map_recursive_tensor_idx_to five_contents (Some [4; 0; -1]%Z)
              (Some (cuda 0)) = Ok mapped) as [mapped Hmapped]
    by (eexists; vm_compute; reflexivity).
  exists mapped. split; [exact Hmapped|].
  exact (dict_map_recursive_tensor_idx_to_structure _ _ _ _ Hmapped).
Defined.

Lemma dict_map_recursive_tensor_idx_to_compose_witness :
  ∃ dict1,
    dict_map_recursive_tensor_idx_to five_contents (Some [4; 0; 2]%Z) None
    = Ok dict1
    ∧ array_getitem [4; 0; 2]%Z [2; -3]%Z = Ok [2; 4]%Z
    ∧ dict_map_recursive_tensor_idx_to dict1 (Some [2; -3]%Z) (Some (cuda 0))
      = dict_map_recursive_tensor_idx_to five_contents (Some [2; 4]%Z)
          (Some (cuda 0)).
Proof.
  assert (∃ dict1,
            dict_map_recursive_tensor_idx_to five_contents (Some [4; 0; 2]%Z)
              None = Ok dict1) as [dict1 Hdict1]
    by (eexists; vm_compute; reflexivity).
  assert (array_getitem [4; 0; 2]%Z [2; -3]%Z = Ok [2; 4]%Z) as H12
    by reflexivity.
  exists dict1. split_and!; [exact Hdict1|exact H12|].
  exact (dict_map_recursive_tensor_idx_to_compose _ _ _ _ _ _ Hdict1 H12).
Defined.

(** ** Sampler: names, order and bounds *)

Lemma stage_dict_Some name (t : nat) :
  Sampler.stage_dict !! name = Some t
  ↔ (name = "maxbatch" ∧ t = 0%nat) ∨ (name = "batch" ∧ t = 1%nat)
    ∨ (name = "minibatch" ∧ t = 2%nat).
Proof.
  unfold Sampler.stage_dict.
  rewrite !lookup_insert_Some, lookup_singleton_Some. split.
  - intros [[<- <-]|[? [[<- <-]|[? [<- <-]]]]]; auto.
  - intros [[-> ->]|[[-> ->]|[-> ->]]]; [by left|right|right];
      (split; [done|]); [by left|right]. by split.
Qed.

Lemma stage_dict_None name :
  Sampler.stage_dict !! name = None ↔ name ∉ stage_names.
Proof.
  unfold stage_names. rewrite !not_elem_of_cons. split.
  - intros Hnone.
    split_and!; try apply not_elem_of_nil; intros ->; by vm_compute in Hnone.
  - intros (H1 & H2 & H3 & _).
    destruct (Sampler.stage_dict !! name) as [t|] eqn:Ht; [|done].
    apply stage_dict_Some in Ht as [[-> _]|[[-> _]|[-> _]]]; done.
Qed.

(** X5. [Sampler.__init__] raises exactly when [mem_stage] or
    [gpu_stage] is not one of ['maxbatch', 'batch', 'minibatch'], and then
    it raises [KeyError]; otherwise the sampler it builds has one empty
    index list per tier size and nothing loaded. *)
Theorem init_names memory rewards sizes mem_stage gpu_stage device :
  (mem_stage ∈ stage_names ∧ gpu_stage ∈ stage_names →
     ∃ self,
       Sampler.__init__ memory rewards sizes mem_stage gpu_stage device
       = Ok self
       ∧ Sampler.stage_dict !! mem_stage = Some (Sampler.mem_stage self)
       ∧ Sampler.stage_dict !! gpu_stage = Some (Sampler.gpu_stage self)
       ∧ Sampler.sizes self = sizes
       ∧ fresh self)
  ∧ (mem_stage ∉ stage_names ∨ gpu_stage ∉ stage_names →
       Sampler.__init__ memory rewards sizes mem_stage gpu_stage device
       = Raise KeyError).
Proof.
  unfold Sampler.__init__, dict_getitem. split.
  - intros [Hm Hg].
    destruct (Sampler.stage_dict !! mem_stage) as [m|] eqn:Em;
      [|by apply stage_dict_None in Em].
    destruct (Sampler.stage_dict !! gpu_stage) as [g|] eqn:Eg;
      [|by apply stage_dict_None in Eg].
    simpl. eexists. split; [done|]. by unfold fresh.
  - intros [Hm|Hg].
    + apply stage_dict_None in Hm. by rewrite Hm.
    + apply stage_dict_None in Hg. rewrite Hg.
      by destruct (Sampler.stage_dict !! mem_stage).
Qed.

(** X6. [stage] with a name that is not one of the three tier names
    raises [KeyError], whatever the sampler holds. *)
Theorem stage_unknown_name self name idx rng :
  name ∉ stage_names →
  Sampler.stage self name idx rng = Raise KeyError.
Proof.
  intros Hname%stage_dict_None. unfold Sampler.stage, dict_getitem.
  by rewrite Hname.
Qed.

Lemma stage_unknown_name_witness :
  Sampler.stage five_sampler "megabatch" None stride_rng = Raise KeyError.
Proof.
  apply stage_unknown_name. unfold stage_names.
  rewrite !not_elem_of_cons. split_and!; try done. apply not_elem_of_nil.
Defined.

Lemma init_names_witness :
  ∃ self,
    Sampler.__init__ (tree_memory 5 five_contents) five_rewards [3; 2; 1]%Z
      "maxbatch" "batch" (cuda 0) = Ok self
    ∧ Sampler.stage_dict !! "maxbatch" = Some (Sampler.mem_stage self)
    ∧ Sampler.stage_dict !! "batch" = Some (Sampler.gpu_stage self)
    ∧ Sampler.sizes self = [3; 2; 1]%Z
    ∧ fresh self.
Proof.
  apply (proj1 (init_names (tree_memory 5 five_contents) five_rewards
                  [3; 2; 1]%Z "maxbatch" "batch" (cuda 0))).
  unfold stage_names. split; [left|right; left].
Defined.

(** With nothing to draw from, a tier of nonzero size cannot be drawn. *)
Lemma sample_empty_space self (t : nat) rng (size : Z) :
  t ≠ 0%nat →
  Sampler.idxs self !! (t - 1)%nat = Some [] →
  Sampler.sizes self !! t = Some size →
  size ≠ 0%Z →
  Sampler.sample self t None rng = Raise ValueError
  ∧ ∀ idx, ∃ e, Sampler.sample self t idx rng = Raise e.
Proof.
  intros Ht Hprev Hsize Hne.
  assert (Sampler.sample self t None rng = Raise ValueError) as Hnone.
  { unfold Sampler.sample, list_getitem. rewrite decide_False by done.
    rewrite Hprev.
    assert (∀ a, population_size a = 0%nat →
              (size ← (match Sampler.sizes self !! t with
                       | Some x => Ok x | None => Raise IndexError end);
               '(drawn, rng0) ← random_choice a size rng;
               self0 ← Sampler.assign_idxs self t drawn; Ok (self0, rng0))
              = Raise ValueError) as Hdraw.
    { intros a Ha. rewrite Hsize. simpl. by rewrite random_choice_empty. }
    case_decide; simpl; by apply Hdraw. }
  split; [done|]. intros [idx|]; [|by eexists].
  destruct (Sampler.sample self t (Some idx) rng) as [r|e] eqn:Hsome;
    [|by eexists].
  apply sample_explicit in Hsome. by rewrite Hnone in Hsome.
Qed.

(** X7. On a sampler fresh from [__init__], staging a tier other than
    the first, of nonzero size, raises: [ValueError] from the draw when
    no [idx] is given, some exception with any [idx]. *)
Theorem later_tier_first self name (t : nat) idx rng (size : Z) :
  fresh self →
  Sampler.stage_dict !! name = Some t →
  t ≠ 0%nat →
  Sampler.sizes self !! t = Some size →
  size ≠ 0%Z →
  Sampler.stage self name None rng = Raise ValueError
  ∧ ∃ e, Sampler.stage self name idx rng = Raise e.
Proof.
  intros (Hidxs & _) Hname Ht Hsize Hne.
  assert (Sampler.idxs self !! (t - 1)%nat = Some []) as Hprev.
  { rewrite Hidxs. apply lookup_replicate_2.
    apply lookup_lt_Some in Hsize. lia. }
  destruct (sample_empty_space self t rng size Ht Hprev Hsize Hne)
    as [Hnone Hany].
  unfold Sampler.stage, dict_getitem. rewrite Hname. simpl.
  rewrite Hnone. split; [done|].
  destruct (Hany idx) as [e ->]. by eexists.
Qed.

Lemma later_tier_first_witness :
  Sampler.stage late_sampler "minibatch" None stride_rng = Raise ValueError
  ∧ ∃ e, Sampler.stage late_sampler "minibatch" (Some [0]%Z) stride_rng
         = Raise e.
Proof.
  apply (later_tier_first late_sampler "minibatch" 2 (Some [0]%Z) stride_rng 1).
  - by unfold fresh.
  - reflexivity.
  - lia.
  - reflexivity.
  - lia.
Defined.

(** X8. When the tier that loads the GPU comes before the tier that
    loads memory, [stage] at the GPU tier of a sampler with no memory
    loaded never returns; if the draw succeeds, [act] raises
    [AttributeError], the staging data being [None]. *)
Theorem gpu_tier_before_memory self name idx rng :
  Sampler.mem_data self = None →
  Sampler.stage_dict !! name = Some (Sampler.gpu_stage self) →
  (Sampler.gpu_stage self < Sampler.mem_stage self)%nat →
  (∃ e, Sampler.stage self name idx rng = Raise e)
  ∧ ∀ self1 rng1,
      Sampler.sample self (Sampler.gpu_stage self) idx rng = Ok (self1, rng1) →
      Sampler.stage self name idx rng = Raise AttributeError.
Proof.
  intros Hdata Hname Hlt.
  assert (∀ self1 rng1,
            Sampler.sample self (Sampler.gpu_stage self) idx rng
            = Ok (self1, rng1) →
            Sampler.stage self name idx rng = Raise AttributeError) as Hact.
  { intros self1 rng1 Hsample.
    unfold Sampler.stage, dict_getitem. rewrite Hname. simpl.
    rewrite Hsample. simpl.
    apply sample_Ok in Hsample as (drawn & size & -> & Hstage & _).
    unfold Sampler.act. simpl. rewrite decide_False by lia. simpl.
    rewrite decide_True by done.
    unfold Sampler.load_into_gpu, list_getitem. simpl.
    rewrite decide_False by lia.
    rewrite list_lookup_insert_eq by done. simpl. by rewrite Hdata. }
  split; [|done].
  destruct (Sampler.sample self (Sampler.gpu_stage self) idx rng)
    as [[self1 rng1]|e] eqn:Hsample.
  - exists AttributeError. by eapply Hact.
  - exists e. unfold Sampler.stage, dict_getitem. rewrite Hname. simpl.
    by rewrite Hsample.
Qed.

(** X11. [sample] at a tier changes that tier of [idxs] and nothing
    else: not the other tiers, not the configuration, not what is
    loaded. *)
Theorem sample_frame self (t : nat) idx rng self' rng' :
  Sampler.sample self t idx rng = Ok (self', rng') →
  Sampler.memory self' = Sampler.memory self
  ∧ Sampler.rewards self' = Sampler.rewards self
  ∧ Sampler.sizes self' = Sampler.sizes self
  ∧ Sampler.mem_stage self' = Sampler.mem_stage self
  ∧ Sampler.gpu_stage self' = Sampler.gpu_stage self
  ∧ Sampler.device self' = Sampler.device self
  ∧ Sampler.mem_data self' = Sampler.mem_data self
  ∧ Sampler.mem_rewards self' = Sampler.mem_rewards self
  ∧ Sampler.gpu_data self' = Sampler.gpu_data self
  ∧ Sampler.gpu_rewards self' = Sampler.gpu_rewards self
  ∧ length (Sampler.idxs self') = length (Sampler.idxs self)
  ∧ ∀ t' : nat, t' ≠ t → Sampler.idxs self' !! t' = Sampler.idxs self !! t'.
Proof.
  intros (drawn & size & -> & _)%sample_Ok. simpl.
  split_and!; try done.
  - apply length_insert.
  - intros t' Ht'. by apply list_lookup_insert_ne.
Qed.


Lemma gpu_tier_before_memory_witness :
  (∃ e, Sampler.stage (Sampler.Build (tree_memory 5 five_contents)
                         five_rewards [3; 2; 1]%Z 1 0 (cuda 0)
                         [[]; []; []] None None None None)
          "maxbatch" None stride_rng = Raise e)
  ∧ ∀ self1 rng1,
      Sampler.sample (Sampler.Build (tree_memory 5 five_contents)
                        five_rewards [3; 2; 1]%Z 1 0 (cuda 0)
                        [[]; []; []] None None None None)
        0 None stride_rng = Ok (self1, rng1) →
      Sampler.stage (Sampler.Build (tree_memory 5 five_contents)
                       five_rewards [3; 2; 1]%Z 1 0 (cuda 0)
                       [[]; []; []] None None None None)
        "maxbatch" None stride_rng = Raise AttributeError.
Proof.
  apply (gpu_tier_before_memory
           (Sampler.Build (tree_memory 5 five_contents) five_rewards
              [3; 2; 1]%Z 1 0 (cuda 0) [[]; []; []] None None None None)
           "maxbatch" None stride_rng).
  - reflexivity.
  - reflexivity.
  - simpl. lia.
Defined.

Lemma sample_frame_witness :
  ∃ self' rng',
    Sampler.sample five_sampler 0 None stride_rng = Ok (self', rng')
    ∧ Sampler.mem_data self' = Sampler.mem_data five_sampler
    ∧ ∀ t' : nat, t' ≠ 0%nat →
        Sampler.idxs self' !! t' = Sampler.idxs five_sampler !! t'.
Proof.
  assert (∃ self' rng',
            Sampler.sample five_sampler 0 None stride_rng = Ok (self', rng'))
    as (self' & rng' & Hsample) by (eexists _, _; vm_compute; reflexivity).
  exists self', rng'. split; [exact Hsample|].
  pose proof (sample_frame five_sampler 0 None stride_rng self' rng' Hsample)
    as (_ & _ & _ & _ & _ & _ & Hdata & _ & _ & _ & _ & Hother).
  split; [exact Hdata|exact Hother].
Defined.


(** ** Sampler: what [act] returns *)

Lemma tensor_getitem_Ok {A : Type} (x y : Tensor A) ix :
  tensor_getitem x ix = Ok y →
  array_getitem (tensor_rows x) ix = Ok (tensor_rows y)
  ∧ length (tensor_rows y) = length ix
  ∧ tensor_device y = tensor_device x.
Proof.
  unfold tensor_getitem.
  destruct (array_getitem (tensor_rows x) ix) as [chosen|] eqn:Hc; [|done].
  simpl. intros [= <-]. simpl. split_and!; try done.
  by eapply array_getitem_length.
Qed.

Lemma Forall2_Forall_right {A B : Type} (P : A → B → Prop) (Q : B → Prop)
    (l : list A) (k : list B) :
  (∀ x y, P x y → Q y) → Forall2 P l k → Forall Q k.
Proof. intros HPQ. induction 1; constructor; eauto. Qed.

Lemma selected_rows dict ix device mapped :
  dict_map_recursive_tensor_idx_to dict (Some ix) device = Ok mapped →
  Forall (λ y, length (tensor_rows y) = length ix) (dict_leaves mapped).
Proof.
  intros [_ Hl]%dict_map_recursive_tensor_idx_to_leaves.
  eapply Forall2_Forall_right; [|exact Hl].
  intros x y [Hrows _]. by eapply array_getitem_length.
Qed.

Lemma moved_leaves dict idx device mapped :
  dict_map_recursive_tensor_idx_to dict idx (Some device) = Ok mapped →
  Forall (λ y, tensor_device y = device) (dict_leaves mapped).
Proof.
  intros [_ Hl]%dict_map_recursive_tensor_idx_to_leaves.
  eapply Forall2_Forall_right; [|exact Hl]. by intros x y [_ Hdev].
Qed.

Lemma selected_leaves_stay dict idx device mapped :
  dict_map_recursive_tensor_idx_to dict idx None = Ok mapped →
  Forall (λ x, tensor_device x = device) (dict_leaves dict) →
  Forall (λ y, tensor_device y = device) (dict_leaves mapped).
Proof.
  intros [_ Hl]%dict_map_recursive_tensor_idx_to_leaves Hall.
  induction Hl as [|x y l k [_ Hxy] _ IH]; [constructor|].
  apply Forall_cons in Hall as [Hx Hall]. constructor; [congruence|by apply IH].
Qed.

Lemma narrowed_Ok data rewards ix out :
  Sampler.narrowed data rewards ix = Ok out →
  ∃ resident staged d r,
    data = Some resident ∧ rewards = Some staged
    ∧ dict_map_recursive_tensor_idx_to resident (Some ix) None = Ok d
    ∧ tensor_getitem staged ix = Ok r
    ∧ out = (Some d, Some r).
Proof.
  unfold Sampler.narrowed.
  destruct data as [resident|]; [|done]. simpl.
  destruct (dict_map_recursive_tensor_idx_to resident _ _) as [d|] eqn:Hd;
    [|done]. simpl.
  destruct rewards as [staged|]; [|done]. simpl.
  destruct (tensor_getitem staged ix) as [r|] eqn:Hr; [|done]. simpl.
  intros [= <-]. by exists resident, staged, d, r.
Qed.

(** What [load_into_gpu] stores: from a tier that also loads memory, the
    staging data moved; from a later tier, the rows of the tier. *)
Lemma load_into_gpu_stored self (t : nat) s2 :
  Sampler.load_into_gpu self t = Ok s2 →
  ∃ d r,
    s2 = Sampler.set_gpu_rewards (Sampler.set_gpu_data self (Some d)) (Some r)
    ∧ Forall (λ x, tensor_device x = Sampler.device self) (dict_leaves d)
    ∧ tensor_device r = Sampler.device self
    ∧ (t = Sampler.mem_stage self →
         ∃ staged chosen,
           Sampler.mem_data self = Some staged
           ∧ Sampler.mem_rewards self = Some chosen
           ∧ d = dict_to (Sampler.device self) staged
           ∧ r = tensor_to chosen (Sampler.device self))
    ∧ (t ≠ Sampler.mem_stage self →
         ∃ ix,
           Sampler.idxs self !! t = Some ix
           ∧ length (tensor_rows r) = length ix
           ∧ Forall (λ x, length (tensor_rows x) = length ix) (dict_leaves d)).
Proof.
  destruct self as [memory rewards sizes mem gpu device idxs md mr gd gr].
  unfold Sampler.load_into_gpu, list_getitem. simpl.
  destruct (decide (t = mem)) as [->|Hmem].
  - destruct md as [staged|]; [|done]. simpl.
    rewrite dict_map_recursive_tensor_to. simpl.
    destruct mr as [chosen|]; [|done]. simpl.
    intros [= <-]. exists (dict_to device staged), (tensor_to chosen device).
    split_and!; try done.
    + eapply moved_leaves. apply dict_map_recursive_tensor_to.
    + intros _. by exists staged, chosen.
  - destruct (idxs !! t) as [ix|] eqn:Hix; [|done]. simpl.
    destruct md as [staged|]; [|done]. simpl.
    destruct (dict_map_recursive_tensor_idx_to staged (Some ix) (Some device))
      as [d|] eqn:Hd; [|done]. simpl.
    destruct mr as [resident|]; [|done]. simpl.
    destruct (tensor_getitem resident ix) as [chosen|] eqn:Hchosen; [|done].
    simpl. intros [= <-]. exists d, (tensor_to chosen device).
    split_and!; try done.
    + by eapply moved_leaves.
    + intros _. exists ix. split_and!; [done| |by eapply selected_rows].
      simpl. by apply tensor_getitem_Ok in Hchosen as (_ & ? & _).
Qed.

(** X9. The rewards [act] returns at a tier have one entry for each
    index of that tier; and so has every leaf tensor of the data it
    returns, at a tier other than the one that loads memory, where the
    data is what [memory[idx]] gives. *)
Theorem act_output_sized self (t : nat) self' data rewards :
  Sampler.act self t = Ok (self', (data, rewards)) →
  ∃ ix r,
    Sampler.idxs self !! t = Some ix
    ∧ rewards = Some r
    ∧ length (tensor_rows r) = length ix
    ∧ (t ≠ Sampler.mem_stage self →
         ∀ d, data = Some d →
           Forall (λ x, length (tensor_rows x) = length ix) (dict_leaves d)).
Proof.
  intros Hact.
  pose proof (act_configuration _ _ _ _ Hact) as (_ & _ & _ & Hm & Hg & _ & Hi).
  apply act_Ok in Hact as (s1 & Hs1 & Hs2 & Hout).
  assert (Sampler.same_configuration self s1) as (_ & _ & _ & Hm1 & Hg1 & _ & Hi1).
  { destruct (decide (t = Sampler.mem_stage self)).
    - by eapply load_into_memory_configuration.
    - injection Hs1 as <-. apply same_configuration_refl. }
  rewrite Hg1 in Hs2.
  unfold Sampler.latest_data, list_getitem in Hout.
  rewrite Hm, Hg, Hi in Hout.
  destruct (decide (t = Sampler.gpu_stage self)) as [Hgpu|Hgpu].
  - (* the tier that loads the GPU *)
    rewrite decide_True in Hout by lia. injection Hout as <- <-.
    apply load_into_gpu_stored in Hs2 as (d & r & -> & _ & _ & Hboth & Hlater).
    simpl. destruct (decide (t = Sampler.mem_stage self)) as [Hmem|Hmem].
    + apply load_into_memory_Ok in Hs1
        as (ix & staged & chosen & Hix & _ & Hchosen & ->).
      destruct Hboth as (staged' & chosen' & _ & Hmr & _ & ->); [by rewrite Hm1|].
      simpl in Hmr. injection Hmr as <-.
      exists ix, (tensor_to chosen (Sampler.device self)). split_and!; try done.
      simpl. by apply tensor_getitem_Ok in Hchosen as (_ & ? & _).
    + injection Hs1 as <-.
      destruct Hlater as (ix & Hix & Hr & Hd); [done|].
      exists ix, r. split_and!; try done. by intros _ d' [= <-].
  - injection Hs2 as <-.
    destruct (Sampler.idxs self !! t) as [ix|] eqn:Hix.
    2:{ exfalso. rewrite <-Hi1 in Hix.
        destruct (decide (t = Sampler.mem_stage self)).
        - apply load_into_memory_Ok in Hs1 as (ix & _ & _ & Hix' & _).
          rewrite Hi1 in Hix. congruence.
        - injection Hs1 as <-. simpl in Hout.
          repeat case_decide; done. }
    exists ix. simpl in Hout.
    destruct (decide (Sampler.gpu_stage self ≤ t)%nat).
    + apply narrowed_Ok in Hout as (? & ? & d & r & _ & _ & Hd & Hr & [= -> ->]).
      exists r. split_and!; try done.
      * by apply tensor_getitem_Ok in Hr as (_ & ? & _).
      * intros _ d' [= <-]. by eapply selected_rows.
    + destruct (decide (Sampler.mem_stage self ≤ t)%nat).
      * destruct (decide (t = Sampler.mem_stage self)) as [Hmem|Hmem].
        -- injection Hout as <- <-.
           apply load_into_memory_Ok in Hs1
             as (ix' & staged & chosen & Hix' & _ & Hchosen & ->).
           rewrite Hix in Hix'. injection Hix' as <-.
           exists chosen. split_and!; try done.
           by apply tensor_getitem_Ok in Hchosen as (_ & ? & _).
        -- apply narrowed_Ok in Hout
             as (? & ? & d & r & _ & _ & Hd & Hr & [= -> ->]).
           exists r. split_and!; try done.
           ++ by apply tensor_getitem_Ok in Hr as (_ & ? & _).
           ++ intros _ d' [= <-]. by eapply selected_rows.
      * rewrite decide_False in Hs1 by lia. injection Hs1 as <-.
        destruct (tensor_getitem (Sampler.rewards self) ix) as [r|] eqn:Hr;
          [|done].
        simpl in Hout. injection Hout as <- <-.
        exists r. split_and!; try done.
        by apply tensor_getitem_Ok in Hr as (_ & ? & _).
Qed.

(** X10. At the tier that loads the GPU, [act] returns data and
    rewards that live on the sampler's device and stores them as the
    GPU copy; at a later tier it returns rows of the GPU copy, on the
    device if the copy is, and leaves the copy as it is. *)
Theorem act_on_device self (t : nat) self' data rewards :
  Sampler.act self t = Ok (self', (data, rewards)) →
  (Sampler.gpu_stage self ≤ t)%nat →
  (t ≠ Sampler.gpu_stage self →
     on_device (Sampler.device self)
       (Sampler.gpu_data self) (Sampler.gpu_rewards self)) →
  on_device (Sampler.device self) data rewards
  ∧ on_device (Sampler.device self)
      (Sampler.gpu_data self') (Sampler.gpu_rewards self')
  ∧ (t = Sampler.gpu_stage self →
       Sampler.gpu_data self' = data ∧ Sampler.gpu_rewards self' = rewards)
  ∧ (t ≠ Sampler.gpu_stage self →
       Sampler.gpu_data self' = Sampler.gpu_data self
       ∧ Sampler.gpu_rewards self' = Sampler.gpu_rewards self).
Proof.
  intros Hact Hle Hcache.
  pose proof (act_configuration _ _ _ _ Hact) as (_ & _ & _ & Hm & Hg & _ & Hi).
  apply act_Ok in Hact as (s1 & Hs1 & Hs2 & Hout).
  assert (Sampler.same_configuration self s1
          ∧ Sampler.gpu_data s1 = Sampler.gpu_data self
          ∧ Sampler.gpu_rewards s1 = Sampler.gpu_rewards self)
    as ((_ & _ & _ & Hm1 & Hg1 & Hd1 & Hi1) & Hgd1 & Hgr1).
  { destruct (decide (t = Sampler.mem_stage self)).
    - apply load_into_memory_Ok in Hs1 as (? & ? & ? & _ & _ & _ & ->).
      by unfold Sampler.same_configuration.
    - injection Hs1 as <-. split; [apply same_configuration_refl|done]. }
  rewrite Hg1 in Hs2.
  unfold Sampler.latest_data, list_getitem in Hout.
  rewrite Hg, decide_True in Hout by done.
  destruct (decide (t = Sampler.gpu_stage self)) as [Hgpu|Hgpu].
  - injection Hout as <- <-.
    apply load_into_gpu_stored in Hs2 as (d & r & -> & Hd & Hr & _).
    rewrite Hd1 in Hd, Hr. simpl.
    assert (on_device (Sampler.device self) (Some d) (Some r)) as Hon.
    { split; [by intros ? [= <-]|by intros ? [= <-]]. }
    by split_and!.
  - injection Hs2 as <-. rewrite Hgd1, Hgr1.
    specialize (Hcache Hgpu). destruct Hcache as [Hcd Hcr].
    destruct (Sampler.idxs s1 !! t) as [ix|]; [|done]. simpl in Hout.
    apply narrowed_Ok in Hout
      as (resident & staged & d & r & Hres & Hst & Hd & Hr & [= -> ->]).
    rewrite Hgd1 in Hres. rewrite Hgr1 in Hst.
    split_and!; try done. split.
    + intros ? [= <-]. eapply selected_leaves_stay; [exact Hd|]. by apply Hcd.
    + intros ? [= <-]. apply tensor_getitem_Ok in Hr as (_ & _ & ->).
      by apply Hcr.
Qed.

Lemma act_output_sized_witness :
  ∃ self' data rewards ix r,
    Sampler.act joint_sampler 0 = Ok (self', (data, rewards))
    ∧ Sampler.idxs joint_sampler !! 0%nat = Some ix
    ∧ rewards = Some r
    ∧ length (tensor_rows r) = length ix.
Proof.
  assert (∃ self' data rewards,
            Sampler.act joint_sampler 0 = Ok (self', (data, rewards)))
    as (self' & data & rewards & Hact)
    by (eexists _, _, _; vm_compute; reflexivity).
  destruct (act_output_sized joint_sampler 0 self' data rewards Hact)
    as (ix & r & Hix & Hr & Hlen & _).
  by exists self', data, rewards, ix, r.
Defined.

Lemma act_on_device_witness :
  ∃ self' data rewards,
    Sampler.act joint_sampler 0 = Ok (self', (data, rewards))
    ∧ on_device (cuda 0) data rewards.
Proof.
  assert (∃ self' data rewards,
            Sampler.act joint_sampler 0 = Ok (self', (data, rewards)))
    as (self' & data & rewards & Hact)
    by (eexists _, _, _; vm_compute; reflexivity).
  exists self', data, rewards. split; [exact Hact|].
  refine (proj1 (act_on_device joint_sampler 0 self' data rewards Hact _ _)).
  - simpl. lia.
  - intros Hne. by destruct Hne.
Defined.

(** ** Selecting records *)

Lemma length_all_records n : length (all_records n) = n.
Proof. unfold all_records. by rewrite length_fmap, length_seq. Qed.

Lemma elem_of_all_records n x :
  x ∈ all_records n ↔ (0 ≤ x < Z.of_nat n)%Z.
Proof.
  unfold all_records. rewrite list_elem_of_fmap. split.
  - intros (i & -> & Hi). apply elem_of_seq in Hi. lia.
  - intros Hx. exists (Z.to_nat x). split; [lia|]. apply elem_of_seq. lia.
Qed.

Lemma lookup_all_records n (i : nat) :
  (i < n)%nat → all_records n !! i = Some (Z.of_nat i).
Proof.
  intros Hi. unfold all_records. rewrite list_lookup_fmap.
  by rewrite lookup_seq_lt.
Qed.

Lemma record_in_range n x : (0 ≤ x < Z.of_nat n)%Z → index_in_range n x.
Proof. unfold index_in_range. lia. Qed.

Lemma array_getitem_elem {A : Type} (a b : list A) ix :
  array_getitem a ix = Ok b → Forall (λ y, y ∈ a) b.
Proof.
  intros Hb%mapM_Ok_Forall2.
  induction Hb as [|i y ix b Hy _ IH]; constructor; [|done].
  destruct (normalize_index (length a) i) as [j|]; [|done]. simpl in Hy.
  unfold list_getitem in Hy. destruct (a !! j) as [y'|] eqn:Hj; [|done].
  injection Hy as <-. by eapply list_elem_of_lookup_2.
Qed.

Lemma array_getitem_subset {A : Type} (a b : list A) ix drawn :
  array_getitem a ix = Ok b →
  Forall (λ x, x ∈ ix) drawn →
  ∃ c, array_getitem a drawn = Ok c.
Proof.
  intros Hb Hsub. apply array_getitem_Ok_iff.
  assert (Forall (index_in_range (length a)) ix) as Hix
    by (apply array_getitem_Ok_iff; by eexists).
  rewrite Forall_forall in Hix. eapply Forall_impl; [exact Hsub|].
  intros x Hx. by apply Hix.
Qed.

Lemma array_getitem_positions {A : Type} (a : list A) drawn :
  Forall (λ x, 0 ≤ x < Z.of_nat (length a))%Z drawn →
  ∃ c, array_getitem a drawn = Ok c.
Proof.
  intros Hpos. apply array_getitem_Ok_iff.
  eapply Forall_impl; [exact Hpos|]. intros x. apply record_in_range.
Qed.

(** Selecting every position, in order, selects the array. *)
Lemma array_getitem_all {A : Type} (a : list A) :
  array_getitem a (all_records (length a)) = Ok a.
Proof.
  apply mapM_Ok_Forall2. apply Forall2_same_length_lookup. split.
  - apply length_all_records.
  - intros i x y Hx Hy.
    pose proof (lookup_lt_Some _ _ _ Hy) as Hi.
    rewrite lookup_all_records in Hx by done. injection Hx as <-.
    unfold normalize_index. rewrite decide_True by lia. simpl.
    rewrite Nat2Z.id. by apply list_getitem_Some.
Qed.

Lemma tensor_getitem_all {A : Type} (x : Tensor A) :
  tensor_getitem x (all_records (length (tensor_rows x))) = Ok x.
Proof.
  unfold tensor_getitem. rewrite array_getitem_all. simpl. by destruct x.
Qed.

Lemma recursive_tensor_func_all n x :
  Forall (λ y, length (tensor_rows y) = n) (leaves x) →
  recursive_tensor_func x (subfunc (Some (all_records n)) None) = Ok x.
Proof.
  induction x as [x|members IH] using Tree_nested_ind; simpl.
  - intros [<- _]%Forall_cons. unfold subfunc.
    by rewrite tensor_getitem_all.
  - intros Hall. rewrite (mapM_Ok_fmap _ id); [simpl; by rewrite list_fmap_id|].
    rewrite Forall_bind in Hall.
    rewrite Forall_forall in IH, Hall. apply Forall_forall.
    intros member Hmember. by apply IH, Hall.
Qed.

Lemma dict_map_recursive_tensor_idx_to_all n dict :
  Forall (λ y, length (tensor_rows y) = n) (dict_leaves dict) →
  dict_map_recursive_tensor_idx_to dict (Some (all_records n)) None = Ok dict.
Proof.
  intros Hall. apply dict_map_recursive_tensor_idx_to_Ok.
  unfold dict_leaves in Hall. rewrite Forall_bind, Forall_fmap in Hall.
  induction Hall as [|[k x] dict Hx _ IH]; constructor; [|done].
  split; [done|]. by apply recursive_tensor_func_all.
Qed.

Lemma tensor_getitem_to {A : Type} (x : Tensor A) device ix :
  tensor_getitem (tensor_to x device) ix
  = r ← tensor_getitem x ix; Ok (tensor_to r device).
Proof.
  unfold tensor_getitem. simpl.
  by destruct (array_getitem (tensor_rows x) ix).
Qed.

Section dataset.
Context (self : Sampler.t) (n : nat) (contents : Dict).
Hypothesis Hdataset : dataset self n contents.

(** Positions in the whole dataset denote the records they resolve to. *)
Lemma contents_via_all ix records device :
  array_getitem (all_records n) ix = Ok records →
  dict_map_recursive_tensor_idx_to contents (Some ix) device
  = dict_map_recursive_tensor_idx_to contents (Some records) device.
Proof.
  intros Hrecords. destruct Hdataset as (_ & _ & Hleaves & _).
  rewrite (dict_map_recursive_tensor_idx_to_composed contents
             (all_records n) ix records None device contents);
    [by destruct device| |done].
  by apply dict_map_recursive_tensor_idx_to_all.
Qed.

Lemma rewards_via_all ix records :
  array_getitem (all_records n) ix = Ok records →
  tensor_getitem (Sampler.rewards self) ix
  = tensor_getitem (Sampler.rewards self) records.
Proof.
  intros Hrecords. destruct Hdataset as (_ & _ & _ & Hrows & _).
  apply (tensor_getitem_compose (Sampler.rewards self) _ (all_records n));
    [|done].
  rewrite <-Hrows. apply tensor_getitem_all.
Qed.

Lemma contents_records records device :
  Forall (λ x, 0 ≤ x < Z.of_nat n)%Z records →
  ∃ d, dict_map_recursive_tensor_idx_to contents (Some records) device = Ok d.
Proof.
  intros Hrecords. destruct Hdataset as (_ & _ & Hleaves & _).
  apply dict_map_recursive_tensor_idx_to_total.
  eapply Forall_impl; [exact Hleaves|]. intros x ->.
  eapply Forall_impl; [exact Hrecords|]. intros i. apply record_in_range.
Qed.

Lemma rewards_records records :
  Forall (λ x, 0 ≤ x < Z.of_nat n)%Z records →
  ∃ r, tensor_getitem (Sampler.rewards self) records = Ok r.
Proof.
  intros Hrecords. destruct Hdataset as (_ & _ & _ & Hrows & _).
  destruct (array_getitem_positions (tensor_rows (Sampler.rewards self)) records)
    as [c Hc]; [by rewrite Hrows|].
  unfold tensor_getitem. rewrite Hc. by eexists.
Qed.

End dataset.

(** ** Sampler: [act], tier by tier *)

Lemma act_at_joint_tier self (t : nat) ix data chosen :
  Sampler.mem_stage self = t →
  Sampler.gpu_stage self = t →
  Sampler.idxs self !! t = Some ix →
  memory_getitem (Sampler.memory self) ix = Ok data →
  tensor_getitem (Sampler.rewards self) ix = Ok chosen →
  Sampler.act self t
  = Ok (Sampler.set_gpu_rewards
          (Sampler.set_gpu_data
             (Sampler.set_mem_rewards
                (Sampler.set_mem_data self (Some data)) (Some chosen))
             (Some (dict_to (Sampler.device self) data)))
          (Some (tensor_to chosen (Sampler.device self))),
        (Some (dict_to (Sampler.device self) data),
         Some (tensor_to chosen (Sampler.device self)))).
Proof.
  intros Hmem Hgpu Hix Hdata Hchosen.
  unfold Sampler.act. rewrite decide_True by done.
  rewrite (load_into_memory_eq _ _ ix data chosen) by done. simpl.
  rewrite decide_True by done.
  unfold Sampler.load_into_gpu. simpl. rewrite decide_True by done.
  rewrite dict_map_recursive_tensor_to. simpl.
  unfold Sampler.latest_data. simpl.
  rewrite decide_True by lia. by rewrite decide_True by done.
Qed.

Lemma act_at_memory_tier self (t : nat) ix data chosen :
  Sampler.mem_stage self = t →
  (t < Sampler.gpu_stage self)%nat →
  Sampler.idxs self !! t = Some ix →
  memory_getitem (Sampler.memory self) ix = Ok data →
  tensor_getitem (Sampler.rewards self) ix = Ok chosen →
  Sampler.act self t
  = Ok (Sampler.set_mem_rewards
          (Sampler.set_mem_data self (Some data)) (Some chosen),
        (Some data, Some chosen)).
Proof.
  intros Hmem Hgpu Hix Hdata Hchosen.
  unfold Sampler.act. rewrite decide_True by done.
  rewrite (load_into_memory_eq _ _ ix data chosen) by done. simpl.
  rewrite decide_False by lia. simpl.
  unfold Sampler.latest_data. simpl.
  rewrite decide_False by lia. rewrite decide_True by lia.
  by rewrite decide_True by done.
Qed.

Lemma act_at_gpu_tier self (t : nat) ix staged resident data chosen :
  Sampler.gpu_stage self = t →
  Sampler.mem_stage self ≠ t →
  Sampler.idxs self !! t = Some ix →
  Sampler.mem_data self = Some staged →
  Sampler.mem_rewards self = Some resident →
  dict_map_recursive_tensor_idx_to staged (Some ix)
    (Some (Sampler.device self)) = Ok data →
  tensor_getitem resident ix = Ok chosen →
  Sampler.act self t
  = Ok (Sampler.set_gpu_rewards
          (Sampler.set_gpu_data self (Some data))
          (Some (tensor_to chosen (Sampler.device self))),
        (Some data, Some (tensor_to chosen (Sampler.device self)))).
Proof.
  intros Hgpu Hmem Hix Hstaged Hresident Hdata Hchosen.
  unfold Sampler.act. rewrite decide_False by done. simpl.
  rewrite decide_True by done.
  unfold Sampler.load_into_gpu, list_getitem. rewrite decide_False by done.
  rewrite Hix. simpl. rewrite Hstaged. simpl. rewrite Hdata. simpl.
  rewrite Hresident. simpl. rewrite Hix. simpl. rewrite Hchosen. simpl.
  unfold Sampler.latest_data. simpl.
  rewrite decide_True by lia. by rewrite decide_True by done.
Qed.

Lemma act_between self (t : nat) ix staged resident data chosen :
  (Sampler.mem_stage self < t < Sampler.gpu_stage self)%nat →
  Sampler.idxs self !! t = Some ix →
  Sampler.mem_data self = Some staged →
  Sampler.mem_rewards self = Some resident →
  dict_map_recursive_tensor_idx_to staged (Some ix) None = Ok data →
  tensor_getitem resident ix = Ok chosen →
  Sampler.act self t = Ok (self, (Some data, Some chosen)).
Proof.
  intros Ht Hix Hstaged Hresident Hdata Hchosen.
  unfold Sampler.act. rewrite decide_False by lia. simpl.
  rewrite decide_False by lia. simpl.
  unfold Sampler.latest_data, list_getitem, Sampler.narrowed.
  rewrite decide_False by lia. rewrite decide_True by lia.
  rewrite decide_False by lia. rewrite Hix. simpl.
  rewrite Hstaged. simpl. rewrite Hdata. simpl. rewrite Hresident. simpl.
  by rewrite Hchosen.
Qed.

Lemma act_after_gpu self (t : nat) ix staged resident data chosen :
  (Sampler.mem_stage self ≤ Sampler.gpu_stage self)%nat →
  (Sampler.gpu_stage self < t)%nat →
  Sampler.idxs self !! t = Some ix →
  Sampler.gpu_data self = Some staged →
  Sampler.gpu_rewards self = Some resident →
  dict_map_recursive_tensor_idx_to staged (Some ix) None = Ok data →
  tensor_getitem resident ix = Ok chosen →
  Sampler.act self t = Ok (self, (Some data, Some chosen)).
Proof.
  intros Hle Ht Hix Hstaged Hresident Hdata Hchosen.
  unfold Sampler.act. rewrite decide_False by lia. simpl.
  rewrite decide_False by lia. simpl.
  unfold Sampler.latest_data, list_getitem, Sampler.narrowed.
  rewrite decide_True by lia. rewrite decide_False by lia.
  rewrite Hix. simpl.
  rewrite Hstaged. simpl. rewrite Hdata. simpl. rewrite Hresident. simpl.
  by rewrite Hchosen.
Qed.

(** ** Sampler: the records behind the indices *)

Lemma records_of_memory_tier self n :
  records_of self n (Sampler.mem_stage self) = memory_records self n.
Proof.
  unfold records_of, index_space, memory_records.
  by rewrite decide_True by lia.
Qed.

Lemma records_of_gpu_tier self n :
  (Sampler.mem_stage self ≤ Sampler.gpu_stage self)%nat →
  records_of self n (Sampler.gpu_stage self) = gpu_records self n.
Proof.
  intros Hle. unfold records_of, index_space, gpu_records.
  destruct (decide (Sampler.gpu_stage self = Sampler.mem_stage self)) as [E|E].
  - rewrite decide_True by lia. unfold memory_records. rewrite E. simpl.
    destruct (list_getitem _ _) as [ix|]; [|done]. simpl.
    by destruct (array_getitem _ ix).
  - rewrite decide_False by lia. by rewrite decide_True by lia.
Qed.

Lemma memory_records_in_range self n records :
  memory_records self n = Ok records →
  Forall (λ x, 0 ≤ x < Z.of_nat n)%Z records.
Proof.
  unfold memory_records.
  destruct (list_getitem _ _) as [ix|]; [|done]. simpl.
  intros Hrecords%array_getitem_elem.
  eapply Forall_impl; [exact Hrecords|]. intros x. apply elem_of_all_records.
Qed.

Lemma gpu_records_in_range self n records :
  gpu_records self n = Ok records →
  Forall (λ x, 0 ≤ x < Z.of_nat n)%Z records.
Proof.
  unfold gpu_records.
  destruct (memory_records self n) as [staged|] eqn:Hstaged; [|done]. simpl.
  apply memory_records_in_range in Hstaged.
  case_decide; [by intros [= <-]|].
  destruct (list_getitem _ _) as [ix|]; [|done]. simpl.
  intros Hrecords%array_getitem_elem. rewrite Forall_forall in Hstaged.
  eapply Forall_impl; [exact Hrecords|]. intros x. apply Hstaged.
Qed.

Lemma index_space_in_range self n (t : nat) space :
  index_space self n t = Ok space →
  Forall (λ x, 0 ≤ x < Z.of_nat n)%Z space.
Proof.
  unfold index_space. repeat case_decide.
  - intros [= <-]. apply Forall_forall. intros x. apply elem_of_all_records.
  - apply memory_records_in_range.
  - apply gpu_records_in_range.
Qed.

Lemma records_of_Ok self n (t : nat) records :
  records_of self n t = Ok records →
  ∃ space ix,
    index_space self n t = Ok space
    ∧ Sampler.idxs self !! t = Some ix
    ∧ array_getitem space ix = Ok records
    ∧ Forall (λ x, 0 ≤ x < Z.of_nat n)%Z records.
Proof.
  unfold records_of, list_getitem.
  destruct (index_space self n t) as [space|] eqn:Hspace; [|done]. simpl.
  destruct (Sampler.idxs self !! t) as [ix|]; [|done]. simpl.
  intros Hrecords. exists space, ix. split_and!; try done.
  apply index_space_in_range in Hspace. rewrite Forall_forall in Hspace.
  apply array_getitem_elem in Hrecords.
  eapply Forall_impl; [exact Hrecords|]. intros x. apply Hspace.
Qed.

Lemma records_of_eq self n (t : nat) space ix :
  index_space self n t = Ok space →
  Sampler.idxs self !! t = Some ix →
  records_of self n t = array_getitem space ix.
Proof.
  intros Hspace Hix. unfold records_of, list_getitem.
  rewrite Hspace. simpl. by rewrite Hix.
Qed.

(** The index space of a tier, from the tier before it. *)
Lemma index_space_next self n (t : nat) :
  (Sampler.mem_stage self ≤ Sampler.gpu_stage self)%nat →
  t ≠ 0%nat →
  index_space self n t
  = if decide (Sampler.after_boundary self t)
    then records_of self n (t - 1) else index_space self n (t - 1).
Proof.
  intros Hle Ht. unfold Sampler.after_boundary.
  case_decide as Hafter.
  - destruct (decide ((t - 1)%nat = Sampler.gpu_stage self)) as [Hgpu|Hgpu].
    + rewrite Hgpu, records_of_gpu_tier by done.
      unfold index_space. rewrite decide_False by lia.
      by rewrite decide_False by lia.
    + destruct Hafter as [Hmem|?]; [|done].
      rewrite Hmem, records_of_memory_tier.
      unfold index_space. rewrite decide_False by lia.
      by rewrite decide_True by lia.
  - unfold index_space.
    destruct (decide (t ≤ Sampler.mem_stage self)%nat).
    + by rewrite decide_True by lia.
    + rewrite (decide_False (P := (t - 1 ≤ Sampler.mem_stage self)%nat)) by lia.
      destruct (decide (t ≤ Sampler.gpu_stage self)%nat).
      * by rewrite decide_True by lia.
      * by rewrite decide_False by lia.
Qed.

(** A draw at tier [t] leaves the records of the copies loaded before
    tier [t], and the index space of tier [t], as they are. *)
Lemma memory_records_insert self n (t : nat) drawn :
  (Sampler.mem_stage self < t)%nat →
  memory_records
    (Sampler.set_idxs self (<[t := drawn]> (Sampler.idxs self))) n
  = memory_records self n.
Proof.
  intros Ht. unfold memory_records, list_getitem. simpl.
  by rewrite list_lookup_insert_ne by lia.
Qed.

Lemma gpu_records_insert self n (t : nat) drawn :
  (Sampler.mem_stage self ≤ Sampler.gpu_stage self)%nat →
  (Sampler.gpu_stage self < t)%nat →
  gpu_records
    (Sampler.set_idxs self (<[t := drawn]> (Sampler.idxs self))) n
  = gpu_records self n.
Proof.
  intros Hle Ht. unfold gpu_records.
  rewrite memory_records_insert by lia. unfold list_getitem. simpl.
  by rewrite list_lookup_insert_ne by lia.
Qed.

Lemma index_space_insert self n (t : nat) drawn :
  (Sampler.mem_stage self ≤ Sampler.gpu_stage self)%nat →
  index_space
    (Sampler.set_idxs self (<[t := drawn]> (Sampler.idxs self))) n t
  = index_space self n t.
Proof.
  intros Hle. unfold index_space. simpl.
  destruct (decide (t ≤ Sampler.mem_stage self)%nat); [done|].
  rewrite memory_records_insert by lia.
  destruct (decide (t ≤ Sampler.gpu_stage self)%nat); [done|].
  by rewrite gpu_records_insert by lia.
Qed.

(** The records depend on the configuration and the indices only. *)
Lemma memory_records_configuration self self' n :
  Sampler.same_configuration self self' →
  memory_records self' n = memory_records self n.
Proof.
  intros (_ & _ & _ & Hm & _ & _ & Hi). unfold memory_records.
  by rewrite Hm, Hi.
Qed.

Lemma gpu_records_configuration self self' n :
  Sampler.same_configuration self self' →
  gpu_records self' n = gpu_records self n.
Proof.
  intros Hsame. unfold gpu_records.
  rewrite (memory_records_configuration self self') by done.
  destruct Hsame as (_ & _ & _ & Hm & Hg & _ & Hi). by rewrite Hm, Hg, Hi.
Qed.

Lemma records_of_configuration self self' n (t : nat) :
  Sampler.same_configuration self self' →
  records_of self' n t = records_of self n t.
Proof.
  intros Hsame. unfold records_of, index_space.
  rewrite (memory_records_configuration self self'),
    (gpu_records_configuration self self') by done.
  destruct Hsame as (_ & _ & _ & Hm & Hg & _ & Hi). by rewrite Hm, Hg, Hi.
Qed.

Lemma dataset_configuration self self' n contents :
  Sampler.same_configuration self self' →
  dataset self n contents → dataset self' n contents.
Proof.
  intros (Hmem & Hr & _ & Hm & Hg & _) (Hlen & Hget & Hleaves & Hrows & Hle).
  unfold dataset. rewrite Hmem, Hr, Hm, Hg. by split_and!.
Qed.

(** ** Sampler: staging in order *)

Lemma selection_configuration self self' contents records device data rewards :
  Sampler.same_configuration self self' →
  selection self contents records device data rewards →
  selection self' contents records device data rewards.
Proof.
  intros (_ & Hr & _) (d & r & ? & ? & ? & ?). exists d, r.
  rewrite Hr. by split_and!.
Qed.

Lemma selected_rewards_Ok rewards records device r :
  tensor_getitem rewards records = Ok r →
  selected_rewards rewards records device
  = Ok (match device with Some device => tensor_to r device | None => r end).
Proof. intros Hr. unfold selected_rewards. by rewrite Hr. Qed.

(** With the copies of the earlier tiers in place and the indices of
    tier [t] selecting records, [act] at tier [t] returns, loads what the
    tier loads and serves the records the tier selects. *)
Lemma act_in_order self n contents (t : nat) records :
  dataset self n contents →
  records_of self n t = Ok records →
  ((Sampler.mem_stage self < t)%nat →
     ∃ staged_records,
       memory_records self n = Ok staged_records
       ∧ selection self contents staged_records None
           (Sampler.mem_data self) (Sampler.mem_rewards self)) →
  ((Sampler.gpu_stage self < t)%nat →
     ∃ gpu_resident,
       gpu_records self n = Ok gpu_resident
       ∧ selection self contents gpu_resident (Some (Sampler.device self))
           (Sampler.gpu_data self) (Sampler.gpu_rewards self)) →
  ∃ self' out,
    Sampler.act self t = Ok (self', out)
    ∧ Sampler.same_configuration self self'
    ∧ staged self' n contents t
    ∧ if decide (t < Sampler.mem_stage self)%nat then
        out.1 = None
        ∧ ∃ r, out.2 = Some r
               ∧ selected_rewards (Sampler.rewards self) records None = Ok r
      else
        selection self contents records
          (if decide (Sampler.gpu_stage self ≤ t)%nat
           then Some (Sampler.device self) else None)
          out.1 out.2.
Proof.
  intros Hdataset Hrecords Hmem Hgpu.
  pose proof Hdataset as (Hlen & Hget & Hleaves & Hrows & Hle).
  pose proof Hrecords as (space & ix & Hspace & Hix & Hspaced & Hrange)
    %records_of_Ok.
  destruct (rewards_records self n contents Hdataset records Hrange)
    as [r Hr].
  assert (∀ self', Sampler.same_configuration self self' →
            ∃ records', records_of self' n t = Ok records') as Hfirst.
  { intros self' Hsame. exists records.
    by rewrite (records_of_configuration self self'). }
  destruct (decide (t < Sampler.mem_stage self)%nat) as [Hbefore|Hnot].
  { (* before the memory tier *)
    unfold index_space in Hspace. rewrite decide_True in Hspace by lia.
    injection Hspace as <-.
    exists self, (None, Some r). split; [|split; [|split]].
    - rewrite act_before_loading by lia.
      rewrite (list_getitem_Some _ _ _ Hix). simpl.
      by rewrite (rewards_via_all self n contents Hdataset ix records), Hr.
    - apply same_configuration_refl.
    - split; [|split]; [by eexists|intros ?; lia|intros ?; lia].
    - split; [done|]. exists r. split; [done|].
      by apply (selected_rewards_Ok _ _ None). }
  destruct (decide (t = Sampler.mem_stage self)) as [Hat|Hafter].
  { (* the memory tier *)
    unfold index_space in Hspace. rewrite decide_True in Hspace by lia.
    injection Hspace as <-.
    destruct (contents_records self n contents Hdataset records None Hrange)
      as [d Hd].
    assert (memory_getitem (Sampler.memory self) ix = Ok d) as Hdata
      by by rewrite Hget,
           (contents_via_all self n contents Hdataset ix records).
    assert (tensor_getitem (Sampler.rewards self) ix = Ok r) as Hchosen
      by by rewrite (rewards_via_all self n contents Hdataset ix records).
    assert (memory_records self n = Ok records) as Hstaged
      by by rewrite <-records_of_memory_tier, <-Hat.
    destruct (decide (t = Sampler.gpu_stage self)) as [Hjoint|Hsplit].
    - eexists _, _. split; [|split; [|split]].
      + by apply (act_at_joint_tier self t ix d r).
      + by unfold Sampler.same_configuration.
      + split; [|split].
        * apply Hfirst. by unfold Sampler.same_configuration.
        * intros _. exists records. split.
          -- by rewrite (memory_records_configuration self)
               by by unfold Sampler.same_configuration.
          -- exists d, r. split_and!; try done.
             by apply (selected_rewards_Ok _ _ None).
        * intros _. exists records. split.
          -- rewrite (gpu_records_configuration self)
               by by unfold Sampler.same_configuration.
             by rewrite <-records_of_gpu_tier, <-Hjoint.
          -- eexists _, _. split_and!; try done.
             ++ simpl. by apply dict_map_recursive_tensor_idx_then_to.
             ++ by apply (selected_rewards_Ok _ _ (Some _)).
      + rewrite decide_True by lia. eexists _, _. split_and!; try done.
        * by apply dict_map_recursive_tensor_idx_then_to.
        * by apply (selected_rewards_Ok _ _ (Some _)).
    - eexists _, _. split; [|split; [|split]].
      + apply (act_at_memory_tier self t ix d r); try done. lia.
      + by unfold Sampler.same_configuration.
      + split; [|split].
        * apply Hfirst. by unfold Sampler.same_configuration.
        * intros _. exists records. split.
          -- by rewrite (memory_records_configuration self)
               by by unfold Sampler.same_configuration.
          -- exists d, r. split_and!; try done.
             by apply (selected_rewards_Ok _ _ None).
        * simpl. intros ?. lia.
      + rewrite decide_False by lia. exists d, r. split_and!; try done.
        by apply (selected_rewards_Ok _ _ None). }
  (* after the memory tier *)
  destruct Hmem as (staged_records & Hstaged & dm & rm & Hmd & Hmr & Hdm & Hrm);
    [lia|].
  unfold selected_rewards in Hrm.
  destruct (tensor_getitem (Sampler.rewards self) staged_records)
    as [rm'|] eqn:Hrm'; [|done].
  injection Hrm as <-.
  destruct (decide (t ≤ Sampler.gpu_stage self)%nat) as [Hupto|Hpast].
  { unfold index_space in Hspace. rewrite decide_False in Hspace by lia.
    rewrite decide_True in Hspace by lia.
    rewrite Hstaged in Hspace. injection Hspace as <-.
    assert (tensor_getitem rm' ix = Ok r) as Hchosen
      by by rewrite (tensor_getitem_compose _ _ _ _ _ Hrm' Hspaced).
    destruct (decide (t = Sampler.gpu_stage self)) as [Hat|Hbetween].
    - (* the GPU tier, after the memory tier *)
      destruct (contents_records self n contents Hdataset records
                  (Some (Sampler.device self)) Hrange) as [d Hd].
      assert (dict_map_recursive_tensor_idx_to dm (Some ix)
                (Some (Sampler.device self)) = Ok d) as Hdata
        by by rewrite (dict_map_recursive_tensor_idx_to_composed
                         _ _ _ _ _ _ _ Hdm Hspaced).
      eexists _, _. split; [|split; [|split]].
      + by apply (act_at_gpu_tier self t ix dm rm' d r).
      + by unfold Sampler.same_configuration.
      + split; [|split].
        * apply Hfirst. by unfold Sampler.same_configuration.
        * intros _. exists staged_records. split.
          -- by rewrite (memory_records_configuration self)
               by by unfold Sampler.same_configuration.
          -- exists dm, rm'. split_and!; try done.
             by apply (selected_rewards_Ok _ _ None).
        * intros _. exists records. split.
          -- rewrite (gpu_records_configuration self)
               by by unfold Sampler.same_configuration.
             by rewrite <-records_of_gpu_tier, <-Hat.
          -- eexists _, _. split_and!; try done.
             by apply (selected_rewards_Ok _ _ (Some _)).
      + rewrite decide_True by lia. eexists _, _. split_and!; try done.
        by apply (selected_rewards_Ok _ _ (Some _)).
    - (* between the memory tier and the GPU tier *)
      destruct (contents_records self n contents Hdataset records None Hrange)
        as [d Hd].
      assert (dict_map_recursive_tensor_idx_to dm (Some ix) None = Ok d)
        as Hdata
        by by rewrite (dict_map_recursive_tensor_idx_to_composed
                         _ _ _ _ _ _ _ Hdm Hspaced).
      exists self, (Some d, Some r). split; [|split; [|split]].
      + apply (act_between self t ix dm rm' d r); try done. lia.
      + apply same_configuration_refl.
      + split; [|split].
        * by eexists.
        * intros _. exists staged_records. split; [done|].
          exists dm, rm'. split_and!; try done.
          by apply (selected_rewards_Ok _ _ None).
        * intros ?. lia.
      + rewrite decide_False by lia. exists d, r. split_and!; try done.
        by apply (selected_rewards_Ok _ _ None). }
  (* after the GPU tier *)
  destruct Hgpu as (gpu_resident & Hresident & dg & rg & Hgd & Hgr & Hdg & Hrg);
    [lia|].
  unfold selected_rewards in Hrg.
  destruct (tensor_getitem (Sampler.rewards self) gpu_resident)
    as [rg'|] eqn:Hrg'; [|done].
  injection Hrg as <-.
  unfold index_space in Hspace. rewrite !decide_False in Hspace by lia.
  rewrite Hresident in Hspace. injection Hspace as <-.
  destruct (contents_records self n contents Hdataset records
              (Some (Sampler.device self)) Hrange) as [d Hd].
  assert (dict_map_recursive_tensor_idx_to dg (Some ix) None = Ok d) as Hdata
    by by rewrite (dict_map_recursive_tensor_idx_to_composed
                     _ _ _ _ _ _ _ Hdg Hspaced).
  assert (tensor_getitem (tensor_to rg' (Sampler.device self)) ix
          = Ok (tensor_to r (Sampler.device self))) as Hchosen.
  { rewrite tensor_getitem_to.
    by rewrite (tensor_getitem_compose _ _ _ _ _ Hrg' Hspaced), Hr. }
  exists self, (Some d, Some (tensor_to r (Sampler.device self))). split; [|split; [|split]].
  - by apply (act_after_gpu self t ix dg
                (tensor_to rg' (Sampler.device self)) d
                (tensor_to r (Sampler.device self))); try done; lia.
  - apply same_configuration_refl.
  - split; [|split].
    + by eexists.
    + intros _. exists staged_records. split; [done|].
      exists dm, rm'. split_and!; try done.
      by apply (selected_rewards_Ok _ _ None).
    + intros _. exists gpu_resident. split; [done|].
      eexists _, _. split_and!; try done.
      by apply (selected_rewards_Ok _ _ (Some _)).
  - rewrite decide_True by lia. eexists _, _. split_and!; try done.
    by apply (selected_rewards_Ok _ _ (Some _)).
Qed.

(** A draw made in order takes positions of the index space of its
    tier, so that the tier selects records. *)
Lemma sample_in_space self n contents (t : nat) idx rng self1 rng1 :
  dataset self n contents →
  (t ≠ 0%nat → staged self n contents (t - 1)) →
  Sampler.sample self t idx rng = Ok (self1, rng1) →
  ∃ drawn records,
    self1 = Sampler.set_idxs self (<[t := drawn]> (Sampler.idxs self))
    ∧ (t < length (Sampler.idxs self))%nat
    ∧ Sampler.sizes self !! t = Some (Z.of_nat (length drawn))
    ∧ records_of self1 n t = Ok records
    ∧ length records = length drawn.
Proof.
  intros Hdataset Hprev Hsample.
  pose proof Hdataset as (Hlen & _ & _ & _ & Hle).
  apply sample_Ok in Hsample
    as (drawn & size & -> & Ht & Hsize & Hdrawn & Hfirst & Hnext).
  subst size.
  assert (∃ space records,
            index_space self n t = Ok space
            ∧ array_getitem space drawn = Ok records)
    as (space & records & Hspace & Hrecords).
  { destruct (decide (t = 0%nat)) as [->|Hne].
    - exists (all_records n).
      destruct (array_getitem_positions (all_records n) drawn) as [records ?].
      { rewrite length_all_records, <-Hlen. by apply Hfirst. }
      exists records. split; [|done].
      unfold index_space. by rewrite decide_True by lia.
    - destruct (Hnext Hne) as (prev & Hp & Hafter & Hnot).
      destruct (Hprev Hne) as ([before Hbefore] & _).
      pose proof Hbefore as (space' & ix & Hspace' & Hix & Hspaced & _)
        %records_of_Ok.
      rewrite Hp in Hix. injection Hix as <-.
      rewrite index_space_next by done.
      destruct (decide (Sampler.after_boundary self t)) as [Hb|Hb].
      + exists before.
        destruct (array_getitem_positions before drawn) as [records ?].
        { rewrite (array_getitem_length _ _ _ Hspaced). by apply Hafter. }
        by exists records.
      + exists space'.
        destruct (array_getitem_subset _ _ _ drawn Hspaced (Hnot Hb))
          as [records ?].
        by exists records. }
  exists drawn, records. split_and!; try done.
  - rewrite (records_of_eq _ _ _ space drawn); [done|by rewrite index_space_insert|].
    simpl. by apply list_lookup_insert_eq.
  - by eapply array_getitem_length.
Qed.

(** Staging a tier after the tiers before it: once the draw has
    returned, [act] does not raise, and what [stage] returns is the
    records the tier selects. *)
Lemma stage_in_order self n contents name (t : nat) idx rng self1 rng1 :
  dataset self n contents →
  Sampler.stage_dict !! name = Some t →
  (t ≠ 0%nat → staged self n contents (t - 1)) →
  Sampler.sample self t idx rng = Ok (self1, rng1) →
  ∃ self' out drawn,
    Sampler.stage self name idx rng = Ok (self', rng1, out)
    ∧ dataset self' n contents
    ∧ staged self' n contents t
    ∧ aligned self' n contents t out
    ∧ Sampler.idxs self' = <[t := drawn]> (Sampler.idxs self)
    ∧ (t < length (Sampler.idxs self))%nat
    ∧ Sampler.sizes self !! t = Some (Z.of_nat (length drawn))
    ∧ Sampler.sizes self' = Sampler.sizes self.
Proof.
  intros Hdataset Hname Hprev Hsample.
  pose proof Hdataset as (_ & _ & _ & _ & Hle).
  destruct (sample_in_space self n contents t idx rng self1 rng1
              Hdataset Hprev Hsample)
    as (drawn & records & Hself1 & Ht & Hsize & Hrecords & Hlength).
  assert (Sampler.mem_data self1 = Sampler.mem_data self
          ∧ Sampler.mem_rewards self1 = Sampler.mem_rewards self
          ∧ Sampler.gpu_data self1 = Sampler.gpu_data self
          ∧ Sampler.gpu_rewards self1 = Sampler.gpu_rewards self
          ∧ Sampler.memory self1 = Sampler.memory self
          ∧ Sampler.rewards self1 = Sampler.rewards self
          ∧ Sampler.sizes self1 = Sampler.sizes self
          ∧ Sampler.mem_stage self1 = Sampler.mem_stage self
          ∧ Sampler.gpu_stage self1 = Sampler.gpu_stage self
          ∧ Sampler.device self1 = Sampler.device self
          ∧ Sampler.idxs self1 = <[t := drawn]> (Sampler.idxs self))
    as (Hmd & Hmr & Hgd & Hgr & Hmemory & Hrewards & Hsizes & Hms & Hgs
        & Hdev & Hidxs).
  { by subst self1. }
  assert (dataset self1 n contents) as Hdataset1.
  { destruct Hdataset as (? & ? & ? & ? & ?).
    unfold dataset. rewrite Hmemory, Hrewards, Hms, Hgs. by split_and!. }
  destruct (act_in_order self1 n contents t records Hdataset1 Hrecords)
    as (self' & out & Hact & Hsame & Hstaged & Hout).
  { rewrite Hms. intros Hlt.
    destruct (Hprev ltac:(lia)) as (_ & Hmem & _).
    destruct Hmem as (staged_records & Hstaged & Hsel); [lia|].
    exists staged_records. split.
    - subst self1. by rewrite memory_records_insert by lia.
    - rewrite Hmd, Hmr. destruct Hsel as (d & r & ? & ? & ? & ?).
      exists d, r. rewrite Hrewards. by split_and!. }
  { rewrite Hgs. intros Hlt.
    destruct (Hprev ltac:(lia)) as (_ & _ & Hgpu).
    destruct Hgpu as (gpu_resident & Hresident & Hsel); [lia|].
    exists gpu_resident. split.
    - subst self1. by rewrite gpu_records_insert by lia.
    - rewrite Hgd, Hgr, Hdev. destruct Hsel as (d & r & ? & ? & ? & ?).
      exists d, r. rewrite Hrewards. by split_and!. }
  pose proof Hsame as (_ & Hr' & Hs' & Hm' & Hg' & Hd' & Hi').
  exists self', out, drawn. split_and!.
  - unfold Sampler.stage, dict_getitem. rewrite Hname. simpl.
    rewrite Hsample. simpl. by rewrite Hact.
  - by apply (dataset_configuration self1).
  - done.
  - pose proof Hrecords as (_ & _ & _ & _ & _ & Hrange)%records_of_Ok.
    exists records, (Z.of_nat (length drawn)). split_and!.
    + by rewrite (records_of_configuration self1).
    + done.
    + by rewrite Hs', Hsizes.
    + by rewrite Hlength.
    + rewrite Hm', Hg', Hd'. destruct (decide (t < Sampler.mem_stage self1)%nat).
      * by rewrite Hr'.
      * by apply (selection_configuration self1).
  - by rewrite Hi'.
  - done.
  - done.
  - by rewrite Hs'.
Qed.

(** A draw with no [idx] returns when the tier exists, its size is not
    negative, and there is something to draw from unless the size is
    zero. *)
Lemma sample_returns self (t : nat) rng (size : Z) :
  (t < length (Sampler.idxs self))%nat →
  Sampler.sizes self !! t = Some size →
  (0 ≤ size)%Z →
  (t = 0%nat → size ≠ 0%Z → memory_len (Sampler.memory self) ≠ 0%nat) →
  (t ≠ 0%nat →
     ∃ prev, Sampler.idxs self !! (t - 1)%nat = Some prev
             ∧ (size ≠ 0%Z → prev ≠ [])) →
  ∃ self1 rng1, Sampler.sample self t None rng = Ok (self1, rng1).
Proof.
  intros Ht Hsize Hpos Hfirst Hnext.
  assert (∀ a, (size ≠ 0%Z → population_size a ≠ 0%nat) →
            ∃ drawn rng1, random_choice a size rng = Ok (drawn, rng1))
    as Hdraw.
  { intros a Ha. unfold random_choice. rewrite decide_False by lia.
    rewrite decide_False; [by eexists _, _|]. intros [? ?]. by apply Ha. }
  unfold Sampler.sample, list_getitem.
  destruct (decide (t = 0%nat)) as [->|Hne].
  - simpl. rewrite Hsize. simpl.
    destruct (Hdraw (Count (memory_len (Sampler.memory self))))
      as (drawn & rng1 & ->); [by apply Hfirst|].
    simpl. unfold Sampler.assign_idxs, list_setitem.
    rewrite decide_True by done. simpl. by eexists _, _.
  - destruct (Hnext Hne) as (prev & -> & Hprev).
    assert (size ≠ 0%Z → length prev ≠ 0%nat) as Hlength.
    { intros Hs Hl. apply (Hprev Hs). by apply nil_length_inv. }
    case_decide; simpl; rewrite Hsize; simpl.
    + destruct (Hdraw (Count (length prev))) as (drawn & rng1 & ->); [done|].
      simpl. unfold Sampler.assign_idxs, list_setitem.
      rewrite decide_True by done. simpl. by eexists _, _.
    + destruct (Hdraw (Indices prev)) as (drawn & rng1 & ->); [done|].
      simpl. unfold Sampler.assign_idxs, list_setitem.
      rewrite decide_True by done. simpl. by eexists _, _.
Qed.

(** X13. On a dataset held as a dict of tensors with one reward per
    record, with the memory tier not after the GPU tier: when the tiers
    before tier [t] have been staged in order and the draw of tier [t]
    returns, [stage] returns, without an exception from [act]; the
    rewards it returns are the rewards of the records the tier selects,
    the data the rows of the same records (no data before the memory
    tier), both on the device from the GPU tier on; and the tiers up to
    [t] are staged in order. The first tier needs no tier before it. *)
Theorem stage_returns_records self n contents name (t : nat) idx rng
    self1 rng1 :
  dataset self n contents →
  Sampler.stage_dict !! name = Some t →
  (t ≠ 0%nat → staged self n contents (t - 1)) →
  Sampler.sample self t idx rng = Ok (self1, rng1) →
  ∃ self' out,
    Sampler.stage self name idx rng = Ok (self', rng1, out)
    ∧ dataset self' n contents
    ∧ staged self' n contents t
    ∧ aligned self' n contents t out.
Proof.
  intros Hdataset Hname Hprev Hsample.
  destruct (stage_in_order self n contents name t idx rng self1 rng1
              Hdataset Hname Hprev Hsample)
    as (self' & out & drawn & ? & ? & ? & ? & _).
  by exists self', out.
Qed.

(** X14. A sampler built by [__init__] with sizes [[a, b, c]], [a] and
    [b] positive, over a dataset of [n > 0] records held as a dict of
    tensors, with the memory tier not after the GPU tier: the calls
    [stage('maxbatch')], [stage('batch')], [stage('minibatch')] in this
    order all return, whatever the generator yields, and each returns
    the rows and the rewards of the same records of the dataset. *)
Theorem staging_never_raises memory rewards (a b c : Z) mem_stage gpu_stage
    device n contents s0 rng0 :
  Sampler.__init__ memory rewards [a; b; c] mem_stage gpu_stage device
  = Ok s0 →
  dataset s0 n contents →
  (0 < n)%nat → (0 < a)%Z → (0 < b)%Z → (0 ≤ c)%Z →
  ∃ s1 rng1 out1 s2 rng2 out2 s3 rng3 out3,
    Sampler.stage s0 "maxbatch" None rng0 = Ok (s1, rng1, out1)
    ∧ aligned s1 n contents 0 out1
    ∧ Sampler.stage s1 "batch" None rng1 = Ok (s2, rng2, out2)
    ∧ aligned s2 n contents 1 out2
    ∧ Sampler.stage s2 "minibatch" None rng2 = Ok (s3, rng3, out3)
    ∧ aligned s3 n contents 2 out3.
Proof.
  intros Hinit Hdataset Hn Ha Hb Hc.
  assert (Sampler.idxs s0 = [[]; []; []] ∧ Sampler.sizes s0 = [a; b; c])
    as (Hi0 & Hs0).
  { revert Hinit. unfold Sampler.__init__.
    destruct (dict_getitem _ mem_stage); [|done]. simpl.
    destruct (dict_getitem _ gpu_stage); [|done]. simpl.
    by intros [= <-]. }
  pose proof Hdataset as (Hlen & _).
  (* maxbatch *)
  destruct (sample_returns s0 0 rng0 a) as (s0' & rng1 & Hsample0).
  { rewrite Hi0. simpl. lia. }
  { by rewrite Hs0. }
  { lia. }
  { intros _ _. lia. }
  { done. }
  destruct (stage_in_order s0 n contents "maxbatch" 0 None rng0 s0' rng1)
    as (s1 & out1 & drawn0 & Hstage0 & Hdataset1 & Hstaged1 & Haligned1
        & Hi1 & _ & Hsize0 & Hs1); [done|done|done|done|].
  rewrite Hs0 in Hsize0, Hs1. rewrite Hi0 in Hi1. simpl in Hsize0, Hi1.
  injection Hsize0 as Hsize0.
  (* batch *)
  destruct (sample_returns s1 1 rng1 b) as (s1' & rng2 & Hsample1).
  { rewrite Hi1. simpl. lia. }
  { by rewrite Hs1. }
  { lia. }
  { done. }
  { intros _. exists drawn0. split; [by rewrite Hi1|].
    intros _ ->. simpl in Hsize0. lia. }
  destruct (stage_in_order s1 n contents "batch" 1 None rng1 s1' rng2)
    as (s2 & out2 & drawn1 & Hstage1 & Hdataset2 & Hstaged2 & Haligned2
        & Hi2 & _ & Hsize1 & Hs2); [done|done|done|done|].
  rewrite Hs1 in Hsize1, Hs2. rewrite Hi1 in Hi2. simpl in Hsize1, Hi2.
  injection Hsize1 as Hsize1.
  (* minibatch *)
  destruct (sample_returns s2 2 rng2 c) as (s2' & rng3 & Hsample2).
  { rewrite Hi2. simpl. lia. }
  { by rewrite Hs2. }
  { done. }
  { done. }
  { intros _. exists drawn1. split; [by rewrite Hi2|].
    intros _ ->. simpl in Hsize1. lia. }
  destruct (stage_in_order s2 n contents "minibatch" 2 None rng2 s2' rng3)
    as (s3 & out3 & drawn2 & Hstage2 & _ & _ & Haligned3 & _);
    [done|done|done|done|].
  by exists s1, rng1, out1, s2, rng2, out2, s3, rng3, out3.
Qed.

Lemma five_dataset : dataset five_sampler 5 five_contents.
Proof.
  unfold dataset. split_and!; try done.
  - vm_compute. repeat constructor.
  - simpl. lia.
Qed.

Lemma stage_returns_records_witness :
  ∃ self1 rng1 self' out,
    Sampler.sample five_sampler 0 None stride_rng = Ok (self1, rng1)
    ∧ Sampler.stage five_sampler "maxbatch" None stride_rng
      = Ok (self', rng1, out)
    ∧ dataset self' 5 five_contents
    ∧ staged self' 5 five_contents 0
    ∧ aligned self' 5 five_contents 0 out.
Proof.
  assert (∃ self1 rng1,
            Sampler.sample five_sampler 0 None stride_rng = Ok (self1, rng1))
    as (self1 & rng1 & Hsample) by (eexists _, _; vm_compute; reflexivity).
  destruct (stage_returns_records five_sampler 5 five_contents "maxbatch" 0
              None stride_rng self1 rng1 five_dataset eq_refl
              (λ H : 0%nat ≠ 0%nat, False_ind _ (H eq_refl)) Hsample)
    as (self' & out & H).
  by exists self1, rng1, self', out.
Defined.

Lemma staging_never_raises_witness :
  ∃ s1 rng1 out1 s2 rng2 out2 s3 rng3 out3,
    Sampler.stage five_sampler "maxbatch" None stride_rng = Ok (s1, rng1, out1)
    ∧ aligned s1 5 five_contents 0 out1
    ∧ Sampler.stage s1 "batch" None rng1 = Ok (s2, rng2, out2)
    ∧ aligned s2 5 five_contents 1 out2
    ∧ Sampler.stage s2 "minibatch" None rng2 = Ok (s3, rng3, out3)
    ∧ aligned s3 5 five_contents 2 out3.
Proof.
  apply (staging_never_raises (tree_memory 5 five_contents) five_rewards
           3 2 1 "maxbatch" "batch" (cuda 0) 5 five_contents five_sampler
           stride_rng).
  - vm_compute. reflexivity.
  - exact five_dataset.
  - lia.
  - lia.
  - lia.
  - lia.
Defined.

(** ** RunningStatistics *)

Lemma Qc_of_Z_add (a b : Z) : Qc_of_Z (a + b) = Qc_of_Z a + Qc_of_Z b.
Proof.
  apply Qc_is_canon. unfold Qc_of_Z. simpl.
  rewrite !Qred_correct. by rewrite inject_Z_plus.
Qed.

Lemma Qc_of_Z_zero (a : Z) : Qc_of_Z a = 0 → a = 0%Z.
Proof.
  unfold Qc_of_Z. intros Heq. apply (f_equal this) in Heq. simpl in Heq.
  pose proof (Qred_correct (inject_Z a)) as Hred. rewrite Heq in Hred.
  unfold Qeq in Hred. simpl in Hred. lia.
Qed.

Lemma Qc_of_Z_lt (a b : Z) : (a < b)%Z → Qc_of_Z a < Qc_of_Z b.
Proof.
  intros Hlt. unfold Qclt, Qc_of_Z. simpl. rewrite !Qred_correct.
  by rewrite <-Zlt_Qlt.
Qed.

(** ** RunningStatistics: a fixed [n_set] *)

Lemma updates_n_set (c : Z) (xs : list Qc) (self : RunningStatistics.t) :
  c ≠ 0%Z →
  RunningStatistics.n_set self = Some c →
  ∃ self',
    RunningStatistics.updates xs self = Some self'
    ∧ RunningStatistics.n_set self' = Some c
    ∧ RunningStatistics.n self'
      = (RunningStatistics.n self + Z.of_nat (length xs))%Z.
Proof.
  intros Hc. revert self. induction xs as [|x xs IH]; intros self Hset.
  - exists self. split_and!; try done. simpl. lia.
  - assert (Qc_of_Z c ≠ 0) as Hne by (by intros ?%Qc_of_Z_zero).
    destruct (IH {| RunningStatistics.mean_x :=
                      RunningStatistics.mean_x self
                      + (x - RunningStatistics.mean_x self) / Qc_of_Z c;
                    RunningStatistics.m2 :=
                      RunningStatistics.m2 self
                      + (x - RunningStatistics.mean_x self)
                        * (x - (RunningStatistics.mean_x self
                                + (x - RunningStatistics.mean_x self)
                                  / Qc_of_Z c));
                    RunningStatistics.n := RunningStatistics.n self + 1;
                    RunningStatistics.n_set := RunningStatistics.n_set self |})
      as (self' & Hupdates & Hset' & Hn); [done|].
    exists self'. split_and!; try done.
    + simpl. unfold RunningStatistics.update, truediv. rewrite Hset.
      rewrite decide_False by done. simpl. by rewrite <-Hset.
    + rewrite Hn. simpl. lia.
Qed.

(** X20. With [n_set = c >= 2], [variance()] divides [m2] by the number
    of updates made minus one, although the mean was taken with [c]:
    right after [__init__] it returns [-m2], the opposite of the [m2]
    the statistics were given; after exactly one update the divisor is
    zero (ZeroDivisionError on Python numbers); after [n >= 2] updates
    it returns [m2 / (n - 1)]. *)
Theorem variance_with_n_set (c : Z) (mean m2 : option Qc) (xs : list Qc) :
  (2 ≤ c)%Z →
  ∃ self,
    RunningStatistics.updates xs (RunningStatistics.__init__ (Some c) mean m2)
    = Some self
    ∧ RunningStatistics.variance self
      = match xs with
        | [] => Some (- default 0 m2)
        | [_] => None
        | _ => Some (RunningStatistics.m2 self
                     / Qc_of_Z (Z.of_nat (length xs) - 1))
        end.
Proof.
  intros Hc.
  destruct (updates_n_set c xs (RunningStatistics.__init__ (Some c) mean m2))
    as (self & Hupdates & Hset & Hn); [lia|done|].
  exists self. split; [done|].
  unfold RunningStatistics.variance, truediv. rewrite Hset, Hn.
  rewrite decide_False by lia. simpl.
  destruct xs as [|x [|x' xs]].
  - injection Hupdates as <-.
    rewrite decide_False by (simpl; lia). f_equal.
    assert (∀ z (q : Qc), z = (-1)%Z → q / Qc_of_Z z = - q) as Hopp.
    { intros z q ->.
      assert (Qc_of_Z (-1) = - (1)) as -> by by apply Qc_is_canon.
      field. done. }
    apply Hopp. simpl. lia.
  - by rewrite decide_True by (simpl; lia).
  - by rewrite decide_False by (simpl length; lia).
Qed.

Lemma variance_with_n_set_witness :
  (2 ≤ 2)%Z
  ∧ ∃ self,
      RunningStatistics.updates [1]
        (RunningStatistics.__init__ (Some 2%Z) None None)
      = Some self
      ∧ RunningStatistics.variance self = None.
Proof.
  assert (2 ≤ 2)%Z as Hc by lia.
  split; [exact Hc|].
  exact (variance_with_n_set 2 None None [1] Hc).
Defined.

(** ** EarlyStopping *)

Section early_stopping.
Implicit Types (self : EarlyStopping.t) (objective : Float).

Lemma same_parameters_refl self : same_parameters self self.
Proof. by unfold same_parameters. Qed.

Lemma same_parameters_trans self1 self2 self3 :
  same_parameters self1 self2 → same_parameters self2 self3 →
  same_parameters self1 self3.
Proof.
  intros (? & ? & ? & ? & ?) (? & ? & ? & ? & ?).
  unfold same_parameters. split_and!; congruence.
Qed.

Lemma init_stopper method buffer delta decreasing window_size self :
  EarlyStopping.__init__ method buffer delta decreasing window_size = Ok self →
  stopper self
  ∧ EarlyStopping.method self = method
  ∧ EarlyStopping.buffer self = buffer
  ∧ EarlyStopping.delta self = delta
  ∧ EarlyStopping.decreasing self = decreasing
  ∧ EarlyStopping.window_size self = window_size
  ∧ (0 ≤ window_size)%Z
  ∧ EarlyStopping.history self = []
  ∧ EarlyStopping.current self = None
  ∧ EarlyStopping.best self = None
  ∧ EarlyStopping.threshold self = None
  ∧ EarlyStopping.lapses self = 0%Z.
Proof.
  unfold EarlyStopping.__init__.
  destruct (decide (window_size < 0)%Z); [done|]. simpl.
  destruct (decide (method ∉ _)) as [|Hin%dec_stable]; [done|].
  intros [= <-]. simpl. split_and!; try done; try lia.
Qed.

Lemma record_observation_Ok objective self :
  EarlyStopping.method self ∈ ["absolute"; "average"] →
  ∃ self1,
    EarlyStopping.record_observation objective self = Ok (self1, ())
    ∧ same_parameters self self1
    ∧ EarlyStopping.best self1 = EarlyStopping.best self
    ∧ EarlyStopping.threshold self1 = EarlyStopping.threshold self
    ∧ EarlyStopping.lapses self1 = EarlyStopping.lapses self.
Proof.
  intros Hmethod. unfold EarlyStopping.record_observation.
  destruct (decide (EarlyStopping.method self = "absolute")).
  { eexists. split; [done|]. by split_and!. }
  destruct (decide (EarlyStopping.method self = "average")).
  { case_decide; (eexists; split; [done|]; by split_and!). }
  apply elem_of_cons in Hmethod as [?|Hmethod]; [done|].
  by apply list_elem_of_singleton in Hmethod.
Qed.

(** A call on a stopper returns, leaves a stopper, counts at most one
    lapse, and returns [True] only when the lapses have reached
    [buffer]. *)
Lemma call_observed objective self self1 :
  stopper self →
  EarlyStopping.record_observation objective self = Ok (self1, ()) →
  ∃ self' (stop : bool),
    EarlyStopping.__call__ objective self = Ok (self', stop)
    ∧ stopper self'
    ∧ same_parameters self self'
    ∧ (EarlyStopping.lapses self' ≤ EarlyStopping.lapses self + 1)%Z
    ∧ (stop = true → (EarlyStopping.buffer self ≤ EarlyStopping.lapses self')%Z)
    ∧ EarlyStopping.history self' = EarlyStopping.history self1
    ∧ EarlyStopping.current self' = EarlyStopping.current self1
    ∧ (EarlyStopping.current self1 = None → self' = self1 ∧ stop = false).
Proof.
  intros (Hmethod & Hbest & Hlapses) Hrecord.
  destruct (record_observation_Ok objective self Hmethod)
    as (self1' & Hrecord' & Hsame & Hb1 & Ht1 & Hl1).
  rewrite Hrecord in Hrecord'. injection Hrecord' as <-.
  pose proof Hsame as (Hm & Hbuf & Hdelta & Hdec & Hw).
  unfold EarlyStopping.__call__. rewrite Hrecord. simpl.
  destruct (EarlyStopping.current self1) as [current|] eqn:Hcurrent.
  2: { exists self1, false. split; [done|]. split_and!; try done.
       - split_and!; [by rewrite Hm|by rewrite Hb1, Ht1|by rewrite Hl1].
       - lia. }
  assert (∃ self2,
            match EarlyStopping.best self1 with
            | None => EarlyStopping.set_best current self1
            | Some _ => Ok (self1, ())
            end = Ok (self2, ())
            ∧ same_parameters self1 self2
            ∧ is_Some (EarlyStopping.threshold self2)
            ∧ (0 ≤ EarlyStopping.lapses self2 ≤ EarlyStopping.lapses self)%Z
            ∧ EarlyStopping.history self2 = EarlyStopping.history self1
            ∧ EarlyStopping.current self2 = Some current)
    as (self2 & -> & Hsame2 & [threshold Hthreshold] & Hl2 & Hh2 & Hc2).
  { destruct (EarlyStopping.best self1) as [best|] eqn:Hbest1.
    - exists self1. split; [done|]. split; [apply same_parameters_refl|].
      split; [|split; [lia|done]]. rewrite Ht1. apply Hbest. by rewrite <-Hb1.
    - eexists. split; [done|]. simpl.
      split; [by unfold same_parameters|]. split; [done|]. split; [lia|done]. }
  simpl. rewrite Hthreshold.
  pose proof Hsame2 as (Hm2 & Hbuf2 & Hdelta2 & Hdec2 & Hw2).
  assert (∀ self3,
            stopper self3 → same_parameters self2 self3 →
            (EarlyStopping.lapses self3 ≤ EarlyStopping.lapses self + 1)%Z →
            EarlyStopping.history self3 = EarlyStopping.history self2 →
            EarlyStopping.current self3 = EarlyStopping.current self2 →
            ∃ self' (stop : bool),
              (if decide (EarlyStopping.buffer self3
                          ≤ EarlyStopping.lapses self3)%Z
               then Ok (self3, true) else Ok (self3, false))
              = Ok (self', stop)
              ∧ stopper self'
              ∧ same_parameters self self'
              ∧ (EarlyStopping.lapses self' ≤ EarlyStopping.lapses self + 1)%Z
              ∧ (stop = true
                 → (EarlyStopping.buffer self ≤ EarlyStopping.lapses self')%Z)
              ∧ EarlyStopping.history self' = EarlyStopping.history self1
              ∧ EarlyStopping.current self' = Some current
              ∧ (Some current = None → self' = self1 ∧ stop = false))
    as Hend.
  { intros self3 Hstopper Hsame3 Hl3 Hh3 Hc3.
    assert (same_parameters self self3) as Hall
      by (eapply same_parameters_trans; [|done];
          by eapply same_parameters_trans).
    pose proof Hall as (_ & Hbuf3 & _).
    case_decide; eexists _, _; (split; [done|]); split_and!; try done;
      try congruence. }
  assert (stopper (EarlyStopping.set_lapses self2
                     (EarlyStopping.lapses self2 + 1))) as Hlapse.
  { split_and!; simpl; [by rewrite Hm2, Hm|by rewrite Hthreshold|lia]. }
  assert (∃ self3,
            EarlyStopping.set_best current self2 = Ok (self3, ())
            ∧ stopper self3 ∧ same_parameters self2 self3
            ∧ EarlyStopping.lapses self3 = 0%Z
            ∧ EarlyStopping.history self3 = EarlyStopping.history self2
            ∧ EarlyStopping.current self3 = EarlyStopping.current self2)
    as (self3 & Hset & Hstopper3 & Hsame3 & Hl3 & Hh3 & Hc3).
  { eexists. split; [done|]. simpl. split_and!; try done.
    split_and!; simpl; [by rewrite Hm2, Hm|done|done]. }
  destruct (EarlyStopping.decreasing self2); simpl.
  - destruct (float_lt current threshold).
    + rewrite Hset. simpl. apply Hend; [done|done|lia|done|done].
    + apply (Hend (EarlyStopping.set_lapses self2
                     (EarlyStopping.lapses self2 + 1)));
        [done|by unfold same_parameters|simpl; lia|done|done].
  - destruct (float_gt current threshold).
    + rewrite Hset. simpl. apply Hend; [done|done|lia|done|done].
    + apply (Hend (EarlyStopping.set_lapses self2
                     (EarlyStopping.lapses self2 + 1)));
        [done|by unfold same_parameters|simpl; lia|done|done].
Qed.

Lemma call_stopper objective self :
  stopper self →
  ∃ self' (stop : bool),
    EarlyStopping.__call__ objective self = Ok (self', stop)
    ∧ stopper self'
    ∧ same_parameters self self'
    ∧ (EarlyStopping.lapses self' ≤ EarlyStopping.lapses self + 1)%Z
    ∧ (stop = true → (EarlyStopping.buffer self ≤ EarlyStopping.lapses self')%Z).
Proof.
  intros Hself. pose proof Hself as (Hmethod & _).
  destruct (record_observation_Ok objective self Hmethod)
    as (self1 & Hrecord & _).
  destruct (call_observed objective self self1 Hself Hrecord)
    as (self' & stop & ? & ? & ? & ? & ? & _).
  by exists self', stop.
Qed.

Lemma calls_stopper (objectives : list Float) self :
  stopper self →
  ∃ self' (stops : list bool),
    EarlyStopping.calls objectives self = Ok (self', stops)
    ∧ stopper self'
    ∧ same_parameters self self'
    ∧ length stops = length objectives
    ∧ ∀ i : nat,
        stops !! i = Some true →
        (EarlyStopping.buffer self
         ≤ EarlyStopping.lapses self + Z.of_nat i + 1)%Z.
Proof.
  revert self.
  induction objectives as [|objective objectives IH]; intros self Hself.
  { exists self, []. by split_and!. }
  destruct (call_stopper objective self Hself)
    as (self1 & stop & Hcall & Hself1 & Hsame1 & Hl1 & Hstop).
  destruct (IH self1 Hself1) as (self' & stops & Hcalls & ? & Hsame & Hlen & Hstops).
  exists self', (stop :: stops). split_and!.
  - simpl. rewrite Hcall. simpl. by rewrite Hcalls.
  - done.
  - by eapply same_parameters_trans.
  - simpl. by rewrite Hlen.
  - destruct Hsame1 as (_ & Hbuf & _). intros [|i] Hi; simpl in Hi.
    + injection Hi as ->. specialize (Hstop eq_refl). lia.
    + specialize (Hstops i Hi). lia.
Qed.

End early_stopping.

(** X21. A stopper built by [__init__] can be called with any sequence
    of objectives, [nan] included, and no call raises; a call returns
    [True] only if it is at least the [buffer]-th call, since each call
    counts at most one lapse. *)
Theorem never_stops_before_buffer method buffer delta decreasing window_size
    self (objectives : list Float) :
  EarlyStopping.__init__ method buffer delta decreasing window_size = Ok self →
  ∃ self' (stops : list bool),
    EarlyStopping.calls objectives self = Ok (self', stops)
    ∧ length stops = length objectives
    ∧ ∀ i : nat, stops !! i = Some true → (buffer ≤ Z.of_nat i + 1)%Z.
Proof.
  intros (Hself & _ & Hbuf & _ & _ & _ & _ & _ & _ & _ & _ & Hl)%init_stopper.
  destruct (calls_stopper objectives self Hself)
    as (self' & stops & ? & _ & _ & ? & Hstops).
  exists self', stops. split_and!; try done.
  intros i Hi. specialize (Hstops i Hi). lia.
Qed.

Lemma never_stops_before_buffer_witness :
  ∃ self self' (stops : list bool),
    EarlyStopping.__init__ "average" 2 half false 2 = Ok self
    ∧ EarlyStopping.calls [Real 1; NaN; Real 0] self = Ok (self', stops)
    ∧ length stops = 3%nat
    ∧ ∀ i : nat, stops !! i = Some true → (2 ≤ Z.of_nat i + 1)%Z.
Proof.
  assert (∃ self, EarlyStopping.__init__ "average" 2 half false 2 = Ok self)
    as [self Hself] by (eexists; vm_compute; reflexivity).
  destruct (never_stops_before_buffer "average" 2 half false 2 self
              [Real 1; NaN; Real 0] Hself) as (self' & stops & H).
  by exists self, self', stops.
Defined.

(** ** EarlyStopping: the method ['average'] *)




Section average.
Implicit Types (self : EarlyStopping.t) (seen xs : list Qc).





End average.


(** ** EarlyStopping: the method ['absolute'] *)

Section absolute.
Implicit Types (self : EarlyStopping.t) (seen xs : list Qc).

Lemma stop_flag {A : Type} (a : A) (P : Prop) `{!Decision P} :
  (if decide P then Ok (a, true) else Ok (a, false)) = Ok (a, bool_decide P).
Proof.
  destruct (decide P).
  - by rewrite bool_decide_eq_true_2.
  - by rewrite bool_decide_eq_false_2.
Qed.

Ltac returned :=
  match goal with |- ∃ _, Ok (?a, _) = _ ∧ _ => exists a end.

Lemma improves_within (decreasing : bool) (delta x b : Qc) :
  improves decreasing delta x b = false ↔ within decreasing delta x b.
Proof.
  unfold improves, within, threshold_of. destruct decreasing.
  - rewrite bool_decide_eq_false.
    replace (b + - (1) * delta) with (b - delta) by ring.
    split; [apply Qcnot_lt_le|apply Qcle_not_lt].
  - rewrite bool_decide_eq_false.
    replace (b + 1 * delta) with (b + delta) by ring.
    split; [apply Qcnot_lt_le|apply Qcle_not_lt].
Qed.

Lemma within_refl (decreasing : bool) (delta x : Qc) :
  0 <= delta → within decreasing delta x x.
Proof.
  intros Hdelta. unfold within. destruct decreasing.
  - apply Qcle_minus_iff. replace (x + - (x - delta)) with delta by ring. done.
  - apply Qcle_minus_iff. replace (x + delta + - x) with delta by ring. done.
Qed.

Lemma call_tracked self (x b : Qc) :
  tracked b self →
  ∃ self',
    EarlyStopping.__call__ (Real x) self
    = Ok (self', bool_decide (EarlyStopping.buffer self
                              ≤ EarlyStopping.lapses self')%Z)
    ∧ same_parameters self self'
    ∧ tracked (if improves (EarlyStopping.decreasing self)
                    (EarlyStopping.delta self) x b then x else b) self'
    ∧ EarlyStopping.lapses self'
      = (if improves (EarlyStopping.decreasing self)
              (EarlyStopping.delta self) x b
         then 0 else EarlyStopping.lapses self + 1)%Z.
Proof.
  intros (Hmethod & Hbest & Hthreshold).
  unfold EarlyStopping.__call__, EarlyStopping.record_observation.
  rewrite decide_True by done. simpl. rewrite Hbest. simpl.
  rewrite Hthreshold. unfold improves.
  destruct (EarlyStopping.decreasing self) eqn:Hdec; simpl.
  - unfold float_lt. destruct (bool_decide (x < _)) eqn:Hlt.
    + simpl. rewrite stop_flag. returned. split; [done|].
      split; [by unfold same_parameters|]. split; [|done].
      split_and!; simpl; try done; by rewrite ?Hdec.
    + simpl. rewrite stop_flag. returned. split; [done|].
      split; [by unfold same_parameters|]. split; [|done].
      split_and!; simpl; try done; by rewrite ?Hdec.
  - unfold float_gt, float_lt. destruct (bool_decide (_ < x)) eqn:Hlt.
    + simpl. rewrite stop_flag. returned. split; [done|].
      split; [by unfold same_parameters|]. split; [|done].
      split_and!; simpl; try done; by rewrite ?Hdec.
    + simpl. rewrite stop_flag. returned. split; [done|].
      split; [by unfold same_parameters|]. split; [|done].
      split_and!; simpl; try done; by rewrite ?Hdec.
Qed.

Lemma call_first self (x : Qc) :
  EarlyStopping.method self = "absolute" →
  EarlyStopping.best self = None →
  ∃ self',
    EarlyStopping.__call__ (Real x) self
    = Ok (self', bool_decide (EarlyStopping.buffer self
                              ≤ EarlyStopping.lapses self')%Z)
    ∧ same_parameters self self'
    ∧ tracked x self'
    ∧ EarlyStopping.lapses self'
      = (if improves (EarlyStopping.decreasing self)
              (EarlyStopping.delta self) x x
         then 0 else 1)%Z.
Proof.
  intros Hmethod Hbest.
  unfold EarlyStopping.__call__, EarlyStopping.record_observation.
  rewrite decide_True by done. simpl. rewrite Hbest. simpl.
  unfold improves.
  destruct (EarlyStopping.decreasing self) eqn:Hdec; simpl.
  - unfold float_lt. destruct (bool_decide (x < _)) eqn:Hlt.
    + simpl. rewrite stop_flag. returned. split; [done|].
      split; [by unfold same_parameters|]. split; [|done].
      split_and!; simpl; try done; by rewrite ?Hdec.
    + simpl. rewrite stop_flag. returned. split; [done|].
      split; [by unfold same_parameters|]. split; [|done].
      split_and!; simpl; try done; by rewrite ?Hdec.
  - unfold float_gt, float_lt. destruct (bool_decide (_ < x)) eqn:Hlt.
    + simpl. rewrite stop_flag. returned. split; [done|].
      split; [by unfold same_parameters|]. split; [|done].
      split_and!; simpl; try done; by rewrite ?Hdec.
    + simpl. rewrite stop_flag. returned. split; [done|].
      split; [by unfold same_parameters|]. split; [|done].
      split_and!; simpl; try done; by rewrite ?Hdec.
Qed.


Lemma calls_plateau xs self (b : Qc) :
  tracked b self →
  Forall (λ x, within (EarlyStopping.decreasing self)
                 (EarlyStopping.delta self) x b) xs →
  ∃ self' (stops : list bool),
    EarlyStopping.calls (Real <$> xs) self = Ok (self', stops)
    ∧ tracked b self'
    ∧ EarlyStopping.lapses self'
      = (EarlyStopping.lapses self + Z.of_nat (length xs))%Z
    ∧ ∀ i : nat,
        (i < length xs)%nat →
        stops !! i
        = Some (bool_decide (EarlyStopping.buffer self
                             ≤ EarlyStopping.lapses self + Z.of_nat i + 1)%Z).
Proof.
  revert self. induction xs as [|x xs IH]; intros self Hself Hxs.
  { exists self, []. split_and!; try done.
    - simpl. lia.
    - intros i Hi. simpl in Hi. lia. }
  apply Forall_cons in Hxs as [Hx Hxs].
  apply improves_within in Hx.
  destruct (call_tracked self x b Hself)
    as (self1 & Hcall & (Hm & Hbuf & Hdelta & Hdec & Hw) & Hself1 & Hl1).
  rewrite Hx in Hself1, Hl1.
  destruct (IH self1 Hself1) as (self' & stops & Hcalls & Hself' & Hl' & Hstops).
  { by rewrite Hdec, Hdelta. }
  eexists self', (_ :: stops). split_and!.
  - rewrite fmap_cons. simpl. rewrite Hcall. simpl. by rewrite Hcalls.
  - done.
  - rewrite Hl', Hl1. simpl length. lia.
  - intros [|i] Hi; simpl.
    + rewrite Hl1. do 2 f_equal. apply bool_decide_ext. lia.
    + rewrite Hstops by (simpl in Hi; lia). rewrite Hbuf, Hl1.
      f_equal. apply bool_decide_ext. lia.
Qed.

(** X23. With the method ['absolute'] and [delta >= 0], the first
    observation counts as a lapse: if no objective after the first one
    [x0] passes its threshold ([x0 + delta], or [x0 - delta] when
    decreasing), then call number [i] returns [True] exactly when
    [i >= buffer]; the stopper stops at the [buffer]-th call, not after
    [buffer] calls without improvement, and at the very first call when
    [buffer <= 1]. *)
Theorem plateau_stops_at_buffer buffer delta decreasing window_size self
    (x0 : Qc) xs :
  EarlyStopping.__init__ "absolute" buffer delta decreasing window_size
  = Ok self →
  0 <= delta →
  Forall (λ x, within decreasing delta x x0) xs →
  ∃ self' (stops : list bool),
    EarlyStopping.calls (Real <$> x0 :: xs) self = Ok (self', stops)
    ∧ (∀ i : nat,
         (i ≤ length xs)%nat →
         stops !! i = Some (bool_decide (buffer ≤ Z.of_nat i + 1)%Z))
    ∧ EarlyStopping.best self' = Some (Real x0)
    ∧ EarlyStopping.lapses self' = (Z.of_nat (length xs) + 1)%Z.
Proof.
  intros (Hself & Hm & Hbuf & Hdelta & Hdec & _ & _ & _ & _ & Hb & _ & Hl)
    %init_stopper Hpos Hxs.
  destruct (call_first self x0 Hm Hb)
    as (self1 & Hcall & (_ & Hbuf1 & Hdelta1 & Hdec1 & _) & Hself1 & Hl1).
  rewrite Hdec, Hdelta in Hl1.
  rewrite (proj2 (improves_within decreasing delta x0 x0)) in Hl1
    by by apply within_refl.
  destruct (calls_plateau xs self1 x0 Hself1)
    as (self' & stops & Hcalls & (_ & Hbest & _) & Hl' & Hstops).
  { by rewrite Hdec1, Hdelta1, Hdec, Hdelta. }
  eexists self', (_ :: stops). split_and!.
  - rewrite fmap_cons. simpl. rewrite Hcall. simpl. by rewrite Hcalls.
  - intros [|i] Hi; simpl.
    + rewrite Hl1, Hbuf. do 2 f_equal.
    + rewrite Hstops by lia. rewrite Hbuf1, Hbuf, Hl1.
      f_equal. apply bool_decide_ext. lia.
  - done.
  - rewrite Hl', Hl1. lia.
Qed.

End absolute.

Lemma plateau_stops_at_buffer_witness :
  ∃ self self' (stops : list bool),
    EarlyStopping.__init__ "absolute" 2 half false 15 = Ok self
    ∧ 0 <= half
    ∧ Forall (λ x, within false half x 1) [1; 1 + half; 0]
    ∧ EarlyStopping.calls (Real <$> [1; 1; 1 + half; 0]) self
      = Ok (self', stops)
    ∧ stops !! 0%nat = Some false
    ∧ stops !! 1%nat = Some true
    ∧ EarlyStopping.best self' = Some (Real 1)
    ∧ EarlyStopping.lapses self' = 4%Z.
Proof.
  assert (∃ self, EarlyStopping.__init__ "absolute" 2 half false 15 = Ok self)
    as [self Hself] by (eexists; vm_compute; reflexivity).
  assert (0 <= half) as Hpos by done.
  assert (Forall (λ x, within false half x 1) [1; 1 + half; 0]) as Hxs
    by (repeat constructor; done).
  destruct (plateau_stops_at_buffer 2 half false 15 self 1 [1; 1 + half; 0]
              Hself Hpos Hxs) as (self' & stops & Hcalls & Hstops & Hb & Hl).
  exists self, self', stops. split_and!; try done.
  - by rewrite (Hstops 0%nat) by (simpl; lia).
  - by rewrite (Hstops 1%nat) by (simpl; lia).
Defined.

(** ** overwrite_dict *)

Lemma filter_ext_in {A : Type} (P1 P2 : A → Prop)
    `{!∀ x, Decision (P1 x), !∀ x, Decision (P2 x)} (l : list A) :
  (∀ x, x ∈ l → P1 x ↔ P2 x) → filter P1 l = filter P2 l.
Proof.
  induction l as [|x l IH]; intros Hl; [done|].
  rewrite !filter_cons.
  rewrite IH by (intros y Hy; apply Hl; by right).
  assert (P1 x ↔ P2 x) as Hx by (apply Hl; left).
  destruct (decide (P1 x)) as [HP|HP].
  - by rewrite decide_True by by apply Hx.
  - by rewrite decide_False by by rewrite <-Hx.
Qed.

Section overwrite_dict.
Context {K V : Type} `{EqDecision K}.
Implicit Types (d original modification : PyDict K V) (k : K) (v : V).

Lemma pydict_get_setitem d k v k' :
  pydict_get (pydict_setitem d k v) k'
  = if decide (k = k') then Some v else pydict_get d k'.
Proof.
  induction d as [|[k0 v0] d IH]; simpl.
  - done.
  - destruct (decide (k0 = k)) as [->|Hne]; simpl.
    + by destruct (decide (k = k')).
    + rewrite IH. destruct (decide (k0 = k')) as [->|]; [|done].
      by rewrite decide_False.
Qed.

Lemma pydict_setitem_keys d k v :
  (pydict_setitem d k v).*1 = if decide (k ∈ d.*1) then d.*1 else d.*1 ++ [k].
Proof.
  induction d as [|[k0 v0] d IH].
  - destruct (decide (k ∈ ([] : PyDict K V).*1)) as [Hin|]; [|done].
    by apply elem_of_nil in Hin.
  - simpl. destruct (decide (k0 = k)) as [->|Hne].
    + rewrite decide_True by left. done.
    + rewrite fmap_cons, IH. simpl. destruct (decide (k ∈ d.*1)).
      * rewrite decide_True by by right. done.
      * rewrite decide_False; [done|].
        intros [?|?]%elem_of_cons; [congruence|done].
Qed.

Lemma pydict_get_None d k : pydict_get d k = None ↔ k ∉ d.*1.
Proof.
  induction d as [|[k0 v0] d IH]; simpl.
  - split; [by intros _ ?%elem_of_nil|done].
  - destruct (decide (k0 = k)) as [->|Hne].
    + split; [done|]. intros []. by left.
    + rewrite IH, not_elem_of_cons. split; [by intros ?|by intros [_ ?]].
Qed.

Lemma overwrite_get original modification k :
  NoDup modification.*1 →
  pydict_get (foldl (λ new kv, pydict_setitem new kv.1 kv.2)
                original modification) k
  = match pydict_get modification k with
    | Some v => Some v
    | None => pydict_get original k
    end.
Proof.
  revert original.
  induction modification as [|[k0 v0] modification IH]; intros original Hdup.
  { done. }
  rewrite fmap_cons in Hdup. apply NoDup_cons in Hdup as [Hk0 Hdup].
  simpl. rewrite IH, pydict_get_setitem by done.
  destruct (decide (k0 = k)) as [->|Hne]; [|done].
  rewrite <-pydict_get_None in Hk0. simpl in Hk0. by rewrite Hk0.
Qed.

Lemma overwrite_keys original modification :
  NoDup modification.*1 →
  (foldl (λ new kv, pydict_setitem new kv.1 kv.2) original modification).*1
  = original.*1 ++ filter (λ k, k ∉ original.*1) modification.*1.
Proof.
  revert original.
  induction modification as [|[k0 v0] modification IH]; intros original Hdup.
  { simpl. by rewrite app_nil_r. }
  rewrite fmap_cons in Hdup. apply NoDup_cons in Hdup as [Hk0 Hdup].
  simpl. rewrite IH, pydict_setitem_keys by done.
  destruct (decide (k0 ∈ original.*1)) as [Hin|Hout].
  - by rewrite filter_cons_False by by intros ?.
  - rewrite filter_cons_True by done. rewrite <-app_assoc. simpl.
    do 2 f_equal. apply filter_ext_in. intros k Hk.
    rewrite elem_of_app, list_elem_of_singleton.
    split; [tauto|]. intros Hnot [?| ->]; done.
Qed.

(** X25. For dicts [original] and [modification], [overwrite_dict]
    returns a dict that maps every key of [modification] to the value
    [modification] gives it and every other key to the value of
    [original]; the keys of [original] keep their places and the new
    keys follow in the order of [modification]. With [copy] the object
    [original] is left as it was; without, it is the dict returned. *)
Theorem overwrite_dict_lookup original modification (copy : bool) :
  NoDup original.*1 →
  NoDup modification.*1 →
  ∃ original' new,
    overwrite_dict original modification copy = (original', new)
    ∧ (∀ k, pydict_get new k
            = match pydict_get modification k with
              | Some v => Some v
              | None => pydict_get original k
              end)
    ∧ new.*1 = original.*1 ++ filter (λ k, k ∉ original.*1) modification.*1
    ∧ NoDup new.*1
    ∧ original' = if copy then original else new.
Proof.
  intros Horiginal Hmodification. eexists _, _. split; [done|].
  split_and!.
  - intros k. by apply overwrite_get.
  - by apply overwrite_keys.
  - rewrite overwrite_keys by done. apply NoDup_app. split_and!.
    + done.
    + by intros k Hk [? _]%list_elem_of_filter.
    + by apply NoDup_filter.
  - done.
Qed.

End overwrite_dict.

Lemma overwrite_dict_lookup_witness :
  NoDup [1; 2]%nat
  ∧ NoDup [2; 3]%nat
  ∧ ∃ original' new,
      overwrite_dict [(1, true); (2, true)]%nat [(2, false); (3, false)]%nat
        false
      = (original', new)
      ∧ new.*1 = [1; 2; 3]%nat
      ∧ pydict_get new 2%nat = Some false
      ∧ original' = new.
Proof.
  assert (NoDup [1; 2]%nat) as H1 by (by apply (bool_decide_unpack _)).
  assert (NoDup [2; 3]%nat) as H2 by (by apply (bool_decide_unpack _)).
  split; [exact H1|]. split; [exact H2|].
  destruct (overwrite_dict_lookup [(1, true); (2, true)]%nat
              [(2, false); (3, false)]%nat false H1 H2)
    as (original' & new & Hcall & Hget & Hkeys & _ & Halias).
  exists original', new. split_and!; try done.
Defined.

(** ** subsample_nodes *)

Lemma draw_distinct_spec (size : nat) (pool : list Z) (rng : RandomState)
    (i : nat) :
  NoDup pool →
  (size ≤ length pool)%nat →
  length (draw_distinct pool size rng i) = size
  ∧ NoDup (draw_distinct pool size rng i)
  ∧ ∀ x, x ∈ draw_distinct pool size rng i → x ∈ pool.
Proof.
  revert pool i. induction size as [|size IH]; intros pool i Hdup Hsize.
  { simpl. split_and!; [done|constructor|by intros x ?%elem_of_nil]. }
  simpl.
  assert (rng i `mod` length pool < length pool)%nat as Hj
    by (apply Nat.mod_upper_bound; lia).
  destruct (lookup_lt_is_Some_2 pool _ Hj) as [x Hx]. rewrite Hx. simpl.
  assert (NoDup (delete (rng i `mod` length pool)%nat pool)) as Hdup'
    by (eapply sublist_NoDup; [done|apply sublist_delete]).
  destruct (IH (delete (rng i `mod` length pool)%nat pool) (S i) Hdup')
    as (Hlen & Hrest & Hsub).
  { rewrite length_delete by by eexists. lia. }
  assert (x ∉ delete (rng i `mod` length pool)%nat pool) as Hfresh.
  { rewrite delete_take_drop. rewrite <-(take_drop_middle pool _ x Hx) in Hdup.
    apply NoDup_app in Hdup as (_ & Hleft & Hright).
    apply NoDup_cons in Hright as [Hright _].
    intros [Hin|Hin]%elem_of_app; [|done].
    apply (Hleft x Hin). left. }
  split_and!.
  - by rewrite Hlen.
  - apply NoDup_cons. split; [|done]. intros Hin. by apply Hfresh, Hsub.
  - intros y [->|Hy]%elem_of_cons.
    + by eapply list_elem_of_lookup_2.
    + eapply sublist_subseteq; [apply sublist_delete|]. by apply Hsub.
Qed.

Lemma random_choice_distinct_Ok (n : nat) (size : Z) (rng : RandomState)
    idx rng' :
  random_choice_distinct n size rng = Ok (idx, rng') →
  (0 ≤ size ≤ Z.of_nat n)%Z
  ∧ length idx = Z.to_nat size
  ∧ NoDup idx
  ∧ Forall (λ i, 0 ≤ i < Z.of_nat n)%Z idx.
Proof.
  unfold random_choice_distinct.
  destruct (decide (size < 0)%Z); [done|].
  destruct (decide (Z.of_nat n < size)%Z); [done|].
  intros [= <- <-].
  destruct (draw_distinct_spec (Z.to_nat size) (Z.of_nat <$> seq 0 n) rng 0)
    as (Hlen & Hdup & Hsub).
  { apply NoDup_fmap_2; [apply _|apply NoDup_seq]. }
  { rewrite length_fmap, length_seq. lia. }
  split_and!; try done; try lia.
  apply Forall_forall. intros x Hx. apply Hsub in Hx.
  apply list_elem_of_fmap in Hx as (j & -> & Hj). apply elem_of_seq in Hj. lia.
Qed.

Lemma array_getitem_rows {A : Type} (D : list A) (idx : list Z) (R : list A) :
  Forall (λ i, 0 ≤ i)%Z idx →
  array_getitem D idx = Ok R →
  ∀ (p : nat) (i : Z), idx !! p = Some i → R !! p = D !! Z.to_nat i.
Proof.
  intros Hidx HR%mapM_Ok_Forall2 p i Hp.
  destruct (Forall2_lookup_l _ _ _ _ _ HR Hp) as (r & Hr & Hget).
  rewrite Hr.
  rewrite Forall_forall in Hidx.
  assert (0 ≤ i)%Z as Hi by (apply Hidx; by eapply list_elem_of_lookup_2).
  unfold normalize_index in Hget.
  destruct (decide (0 ≤ i < Z.of_nat (length D))%Z); simpl in Hget.
  - unfold list_getitem in Hget. by destruct (D !! Z.to_nat i); simplify_eq.
  - destruct (decide (- Z.of_nat (length D) ≤ i < 0)%Z); [lia|done].
Qed.

Section subsample_nodes.
Context {A : Type}.
Implicit Types (DS ret : list (list A)) (D R : list A) (rng : RandomState).

Lemma subsample_nodes_Ok DS (num_nodes : Z) (keep_array : bool) rng out rng' :
  subsample_nodes DS num_nodes keep_array rng = Ok (out, rng') →
  ∃ first idx ret,
    DS !! 0%nat = Some first
    ∧ random_choice_distinct (length first) num_nodes rng = Ok (idx, rng')
    ∧ mapM (λ D, array_getitem D idx) DS = Ok ret
    ∧ out = clean_return ret keep_array.
Proof.
  unfold subsample_nodes.
  destruct (DS !! 0%nat) as [first|]; [|done]. simpl.
  destruct (random_choice_distinct _ _ _) as [[idx rng1]|] eqn:Hidx; [|done].
  simpl.
  destruct (mapM _ DS) as [ret|] eqn:Hret; [|done]. simpl.
  intros [= <- <-]. by exists first, idx, ret.
Qed.

(** X26. When [subsample_nodes] returns, it has drawn [num_nodes]
    distinct row numbers of the first array, and each array it returns
    holds, in the order drawn, the rows of these numbers of the array
    given at the same place: the arrays stay aligned row by row. A
    single array is returned bare unless [keep_array] is set. *)
Theorem subsample_nodes_aligned DS (num_nodes : Z) (keep_array : bool) rng
    out rng' :
  subsample_nodes DS num_nodes keep_array rng = Ok (out, rng') →
  ∃ first idx ret,
    DS !! 0%nat = Some first
    ∧ (0 ≤ num_nodes ≤ Z.of_nat (length first))%Z
    ∧ length idx = Z.to_nat num_nodes
    ∧ NoDup idx
    ∧ Forall (λ i, 0 ≤ i < Z.of_nat (length first))%Z idx
    ∧ Forall2 (λ D R,
                 length R = Z.to_nat num_nodes
                 ∧ ∀ (p : nat) (i : Z),
                     idx !! p = Some i → R !! p = D !! Z.to_nat i)
        DS ret
    ∧ out = (if keep_array then inr ret
             else match ret with [R] => inl R | _ => inr ret end).
Proof.
  intros (first & idx & ret & Hfirst & Hidx & Hret & ->)%subsample_nodes_Ok.
  apply random_choice_distinct_Ok in Hidx as (Hnum & Hlen & Hdup & Hrange).
  exists first, idx, ret. do 5 (split; [done|]). split.
  - apply mapM_Ok_Forall2 in Hret.
    eapply Forall2_impl; [exact Hret|]. intros D R HR. split.
    + by rewrite (array_getitem_length _ _ _ HR).
    + apply array_getitem_rows; [|done].
      eapply Forall_impl; [exact Hrange|]. intros i ?. simpl in *. lia.
  - unfold clean_return. destruct keep_array; [done|]. simpl.
    by destruct ret as [|R [|R' ret]].
Qed.

(** X27. [subsample_nodes] raises [IndexError] when it is given no
    array, [ValueError] when [num_nodes] is negative or exceeds the
    number of rows of the first array, and returns when
    [0 <= num_nodes] does not exceed it and no other array has fewer
    rows than the first. *)
Theorem subsample_nodes_returns DS (num_nodes : Z) (keep_array : bool) rng :
  match DS with
  | [] => subsample_nodes DS num_nodes keep_array rng = Raise IndexError
  | first :: others =>
      if decide (0 ≤ num_nodes ≤ Z.of_nat (length first))%Z then
        Forall (λ D, length first ≤ length D)%nat others →
        ∃ out rng', subsample_nodes DS num_nodes keep_array rng = Ok (out, rng')
      else subsample_nodes DS num_nodes keep_array rng = Raise ValueError
  end.
Proof.
  destruct DS as [|first others]; [done|].
  unfold subsample_nodes. simpl.
  destruct (decide (0 ≤ num_nodes ≤ Z.of_nat (length first))%Z) as [Hnum|Hnum].
  - intros Hothers.
    destruct (random_choice_distinct (length first) num_nodes rng)
      as [[idx rng']|e] eqn:Hidx.
    2: { unfold random_choice_distinct in Hidx.
         rewrite !decide_False in Hidx by lia. done. }
    apply random_choice_distinct_Ok in Hidx as (_ & _ & _ & Hrange).
    simpl.
    destruct (mapM_Ok_exists (λ D, array_getitem D idx) (first :: others))
      as [ret Hret].
    { apply Forall_cons. split.
      - by apply array_getitem_positions.
      - eapply Forall_impl; [exact Hothers|]. intros D HD.
        apply array_getitem_positions.
        eapply Forall_impl; [exact Hrange|]. intros i ?. simpl in *. lia. }
    simpl in Hret. rewrite Hret. simpl. by eexists _, _.
  - unfold random_choice_distinct.
    destruct (decide (num_nodes < 0)%Z); [done|].
    by rewrite decide_True by lia.
Qed.

End subsample_nodes.

Lemma subsample_nodes_aligned_witness :
  ∃ out rng' first idx ret,
    subsample_nodes [[1; 2; 3]; [4; 5; 6]]%nat 2 false stride_rng
    = Ok (out, rng')
    ∧ [[1; 2; 3]; [4; 5; 6]]%nat !! 0%nat = Some first
    ∧ length idx = 2%nat
    ∧ NoDup idx
    ∧ Forall2 (λ D R,
                 length R = 2%nat
                 ∧ ∀ (p : nat) (i : Z),
                     idx !! p = Some i → R !! p = D !! Z.to_nat i)
        [[1; 2; 3]; [4; 5; 6]]%nat ret
    ∧ out = inr ret.
Proof.
  assert (∃ out rng',
            subsample_nodes [[1; 2; 3]; [4; 5; 6]]%nat 2 false stride_rng
            = Ok (out, rng')) as (out & rng' & Hcall)
    by (eexists _, _; vm_compute; reflexivity).
  destruct (subsample_nodes_aligned _ _ _ _ _ _ Hcall)
    as (first & idx & ret & Hfirst & _ & Hlen & Hdup & _ & Hrows & Hout).
  exists out, rng', first, idx, ret. split_and!; try done.
  rewrite Hout. apply Forall2_length in Hrows.
  by destruct ret as [|R [|R' ret]].
Defined.

Lemma subsample_nodes_returns_witness :
  ∃ out rng',
    subsample_nodes [[1; 2; 3]; [4; 5; 6]]%nat 2 false stride_rng
    = Ok (out, rng').
Proof.
  apply (subsample_nodes_returns [[1; 2; 3]; [4; 5; 6]]%nat 2 false
           stride_rng).
  repeat constructor.
Defined.

(** ** time_logger *)

Section time_logger.
Implicit Types (self : time_logger.t) (w : World) (str : string).

Lemma log_recording str self w :
  time_logger.record self = true →
  time_logger.verbose self = false →
  time_logger.memory_usage self = false →
  ∃ self' w',
    time_logger.log str self w = Ok (self', w')
    ∧ time_logger.record self' = true
    ∧ time_logger.verbose self' = false
    ∧ time_logger.memory_usage self' = false
    ∧ time_logger.history self'
      = pydict_append (time_logger.history self) str
          (clock w (clock_reads w) - time_logger.start_time self)
    ∧ time_logger.start_time self' = clock w (S (clock_reads w))
    ∧ clock w' = clock w
    ∧ clock_reads w' = S (S (clock_reads w))
    ∧ printed w' = printed w.
Proof.
  intros Hrecord Hverbose Hmemory.
  unfold time_logger.log. rewrite Hrecord, Hverbose. simpl.
  rewrite Hrecord. simpl. rewrite Hverbose, Hmemory. simpl.
  rewrite Hmemory. eexists _, _. split; [done|]. by split_and!.
Qed.

Lemma pydict_get_append {V : Type} (d : PyDict string (list V)) str str'
    (x : V) :
  pydict_get (pydict_append d str x) str'
  = if decide (str = str') then Some (default [] (pydict_get d str) ++ [x])
    else pydict_get d str'.
Proof. unfold pydict_append. apply pydict_get_setitem. Qed.

Lemma elapsed_S (clock : nat → Qc) (m n : nat) :
  elapsed clock m (S n)
  = (clock (S (2 * m)) - clock (2 * m)%nat) :: elapsed clock (S m) n.
Proof. done. Qed.

Lemma labelled_cons {V : Type} str label (labels : list string) (v : V)
    (values : list V) :
  labelled str (label :: labels) (v :: values)
  = if decide (label = str) then v :: labelled str labels values
    else labelled str labels values.
Proof.
  unfold labelled. simpl. rewrite filter_cons. simpl.
  by destruct (decide (label = str)).
Qed.

Lemma logs_recording (labels : list string) (base m : nat) self w :
  timing base m self w →
  ∃ self' w',
    time_logger.logs labels self w = Ok (self', w')
    ∧ timing base (m + length labels) self' w'
    ∧ clock w' = clock w
    ∧ printed w' = printed w
    ∧ ∀ str,
        pydict_get (time_logger.history self') str
        = match labelled str labels
                  (elapsed (λ i, clock w (base + i)%nat) m (length labels)) with
          | [] => pydict_get (time_logger.history self) str
          | new =>
              Some (default [] (pydict_get (time_logger.history self) str)
                    ++ new)
          end.
Proof.
  revert m self w.
  induction labels as [|label labels IH]; intros m self w Htiming.
  { exists self, w. split; [done|]. split_and!; try done.
    by rewrite Nat.add_0_r. }
  destruct Htiming as (Hrecord & Hverbose & Hmemory & Hreads & Hstart).
  destruct (log_recording label self w Hrecord Hverbose Hmemory)
    as (self1 & w1 & Hlog & Hrecord1 & Hverbose1 & Hmemory1 & Hhistory1
        & Hstart1 & Hclock1 & Hreads1 & Hprinted1).
  destruct (IH (S m) self1 w1) as (self' & w' & Hlogs & Htiming' & Hclock'
                                   & Hprinted' & Hget).
  { split_and!; try done.
    - rewrite Hreads1, Hreads. lia.
    - rewrite Hstart1, Hclock1, Hreads. f_equal. lia. }
  exists self', w'. split_and!.
  - simpl. rewrite Hlog. simpl. by rewrite Hlogs.
  - replace (m + length (label :: labels))%nat
      with (S m + length labels)%nat by (simpl; lia). done.
  - by rewrite Hclock'.
  - by rewrite Hprinted'.
  - intros str. rewrite Hget, Hhistory1, pydict_get_append, Hclock1.
    change (length (label :: labels)) with (S (length labels)).
    rewrite elapsed_S, labelled_cons.
    replace (clock w (clock_reads w) - time_logger.start_time self)
      with (clock w (base + S (2 * m)) - clock w (base + 2 * m))
      by by rewrite Hreads, Hstart.
    destruct (decide (label = str)) as [->|Hne]; [|done].
    destruct (labelled str labels _) as [|x new]; [done|].
    simpl. by rewrite <-app_assoc.
Qed.

(** X28. A logger made with [record=True], [verbose=False] and
    [memory_usage=False] keeps, for each label, one time for each call
    of [log] with this label, in the order of the calls: the time
    between the previous reading of the clock (by [__init__] or at the
    end of the previous call, whatever its label) and the reading at
    the start of this call. Nothing is printed and no call raises. *)
Theorem log_records_elapsed (discard_first_sample : bool)
    (labels : list string) w :
  ∃ self w1 self' w',
    time_logger.__init__ discard_first_sample true false false w = (self, w1)
    ∧ time_logger.logs labels self w1 = Ok (self', w')
    ∧ printed w' = printed w
    ∧ ∀ str,
        pydict_get (time_logger.history self') str
        = match labelled str labels
                  (elapsed (λ i, clock w (clock_reads w + i)%nat) 0
                     (length labels)) with
          | [] => None
          | new => Some new
          end.
Proof.
  eexists _, _.
  destruct (logs_recording labels (clock_reads w) 0
              (time_logger.__init__ discard_first_sample true false false w).1
              (time_logger.__init__ discard_first_sample true false false w).2)
    as (self' & w' & Hlogs & _ & Hclock & Hprinted & Hget).
  { split_and!; try done.
    - simpl. lia.
    - simpl. by rewrite Nat.add_0_r. }
  exists self', w'. split; [done|]. by split_and!.
Qed.

(** X29. Whenever [verbose] and [memory_usage] are both set, [log]
    raises, whatever the label: it looks up the key [-1] in the dict
    [history_mem], which [log] fills under labels only ([KeyError]; or
    [AttributeError] when the attribute was never made). *)
Theorem log_verbose_memory_raises str self w :
  time_logger.verbose self = true →
  time_logger.memory_usage self = true →
  time_logger.log str self w
  = Raise (match time_logger.history_mem self with
           | Some _ => KeyError
           | None => AttributeError
           end).
Proof.
  intros Hverbose Hmemory. unfold time_logger.log.
  rewrite Hverbose. simpl.
  destruct (time_logger.record self) eqn:Hrecord; simpl;
    rewrite ?Hrecord, Hverbose, Hmemory; simpl; rewrite ?Hrecord; simpl;
    destruct (time_logger.history_mem self); simpl; try done;
    by rewrite Hverbose.
Qed.

Lemma for_each_ext {S X : Type} (body body' : S → X → result S) xs s :
  (∀ s x, x ∈ xs → body s x = body' s x) →
  for_each body xs s = for_each body' xs s.
Proof.
  revert s. induction xs as [|x xs IH]; intros s Hext; [done|].
  simpl. rewrite Hext by left. destruct (body' s x); [|done]. simpl.
  apply IH. intros s' x' Hx'. apply Hext. by right.
Qed.

(** X30. With the method ['mean'] or ['sum'], [aggregate] prints the
    same lines, or raises the same exception, whether
    [discard_first_sample] is set or not: the first sample is dropped
    from an array that the mean and the sum are not taken of. *)
Theorem aggregate_ignores_discard (method : string) self w (flag : bool) :
  method = "mean" ∨ method = "sum" →
  time_logger.aggregate method
    {| time_logger.discard_first_sample := flag;
       time_logger.record := time_logger.record self;
       time_logger.verbose := time_logger.verbose self;
       time_logger.memory_usage := time_logger.memory_usage self;
       time_logger.history := time_logger.history self;
       time_logger.history_mem := time_logger.history_mem self;
       time_logger.start_time := time_logger.start_time self;
       time_logger.end_time := time_logger.end_time self |} w
  = time_logger.aggregate method self w.
Proof.
  intros Hmethod. unfold time_logger.aggregate. simpl.
  rewrite (for_each_ext _ (time_logger.aggregate_step method self)); [done|].
  intros [total w'] [k v] _. unfold time_logger.aggregate_step. simpl.
  destruct Hmethod as [-> | ->]; simpl; done.
Qed.

End time_logger.

Lemma log_verbose_memory_raises_witness :
  time_logger.log "step"
    (time_logger.__init__ false true true true ticking_world).1
    (time_logger.__init__ false true true true ticking_world).2
  = Raise KeyError.
Proof.
  exact (log_verbose_memory_raises "step"
           (time_logger.__init__ false true true true ticking_world).1
           (time_logger.__init__ false true true true ticking_world).2
           eq_refl eq_refl).
Defined.

Lemma aggregate_ignores_discard_witness :
  time_logger.aggregate "mean"
    {| time_logger.discard_first_sample := true;
       time_logger.record := true; time_logger.verbose := false;
       time_logger.memory_usage := false;
       time_logger.history := [("step", [1; 0])];
       time_logger.history_mem := None; time_logger.start_time := 0;
       time_logger.end_time := None |} ticking_world
  = time_logger.aggregate "mean" step_logger ticking_world.
Proof.
  exact (aggregate_ignores_discard "mean" step_logger ticking_world true
           (or_introl eq_refl)).
Defined.
